(** * Metaclasses all the way down: a Rocq model of the notebook's code cells

    The notebook [pythess/meta_alltheway/meta_alltheway.ipynb] is a sequence
    of small Python cells.  This development embeds the cells that carry
    behaviour -- the renaming function [convert], the two camelCase to
    snake_case metaclasses, the [Singleton] metaclass, the abstract base class
    demonstration and the constructor-trace classes -- together with the
    pieces of the Python runtime they call ([re.sub], [str.lower], [dict],
    [dir], [print], [type.__call__], [object.__new__], [ABCMeta.__new__]).

    Conventions.
    - The runtime is CPython 3.6 on Windows, the interpreter whose output the
      notebook records: its messages and its rendering of addresses.
    - The cells are embedded over [string]: a name is the sequence of its
      code points, each below 256, as all names of the notebook are.  What
      [convert] does to a name of any code points is in the module [Unicode],
      which [convert_code] relates to the embedding over [string].
    - A class body holds [def]s and attributes whose values are [None],
      integers or strings, and no [__slots__] (see [accepted]).
    - A constructor body is a computation on the whole state: it can call a
      class, its own included, and reach [Singleton._instances].
    - A [dict] is an association list in insertion order with unique keys.
    - The console is the list of chunks written by [print], each ending in a
      newline, as the notebook records them. *)

From Stdlib Require Import String Ascii List ZArith NArith Lia Bool.
From Stdlib Require Import DecimalString Sorted.
From stdpp Require Import base gmap strings.
Import ListNotations.

Local Open Scope list_scope.

(** ** Characters and strings *)

Module Str.

Abbreviation chars := list_ascii_of_string.
Abbreviation of_chars := string_of_list_ascii.

Definition code (c : ascii) : N := N_of_ascii c.

(** Python's [c.isupper()] on a single code point below 256: the letters
    A-Z, and the Latin-1 capitals U+00C0..U+00DE except the sign U+00D7. *)
Definition is_upper (c : ascii) : bool :=
  let n := code c in
  ((65 <=? n) && (n <=? 90) || (192 <=? n) && (n <=? 222) && negb (n =? 215))%N.

(** [str.lower] on one code point below 256: capitals move 32 places up,
    every other code point is kept.  Beyond 256 [str.lower] is not a map of
    single code points; it is [Unicode.lower]. *)
Definition lower_char (c : ascii) : ascii :=
  if is_upper c then ascii_of_N (code c + 32) else c.

(** [s.lower()] for [s] of code points below 256 *)
Definition lower (s : string) : string :=
  of_chars (map lower_char (chars s)).

(** [s.startswith(p)] *)
Definition startswith (s p : string) : bool := String.prefix p s.

(** The name starts with two underscores. *)
Definition dunder (a : string) : Prop := startswith a "__" = true.

(** No capital letter occurs in the characters [l], in the string [s]. *)
Definition plain (l : list ascii) : Prop := Forall (fun c => is_upper c = false) l.
Definition upper_free (s : string) : Prop := plain (chars s).

End Str.

(** ** The fragment of [re] used by the notebook *)

Module Re.

(** Character sets: [.], a range inside brackets, and the union of the items
    of a bracket expression. *)
Inductive cset : Type :=
| CDot
| CRange (lo hi : ascii)
| CUnion (a b : cset).

Fixpoint cset_mem (cs : cset) (c : ascii) : bool :=
  match cs with
  | CDot => negb (Ascii.eqb c "010"%char)
  | CRange lo hi => (Str.code lo <=? Str.code c)%N && (Str.code c <=? Str.code hi)%N
  | CUnion a b => cset_mem a c || cset_mem b c
  end.

(** Patterns: one character of a set, a greedy [+] over a set, sequence and
    capturing group.  Groups are numbered by their opening parenthesis. *)
Inductive regex : Type :=
| RSet (cs : cset)
| RPlus (cs : cset)
| RSeq (r1 r2 : regex)
| RGroup (r : regex).

(** One way of matching a pattern at the start of the input. *)
Record mres : Type := MRes {
  m_text : list ascii;          (* the characters consumed *)
  m_groups : list (list ascii); (* the text of each group, in group order *)
  m_rest : list ascii           (* the input left *)
}.

(** The non-empty prefixes of the longest run of [cs] characters, the longest
    first: the order in which a greedy [+] gives characters back. *)
Fixpoint runs (cs : cset) (s : list ascii) : list (list ascii * list ascii) :=
  match s with
  | c :: t =>
      if cset_mem cs c
      then map (fun p => (c :: fst p, snd p)) (runs cs t) ++ [([c], t)]
      else []
  | [] => []
  end.

(** The longest prefix of characters of [cs], and what follows it. *)
Fixpoint span (cs : cset) (s : list ascii) : list ascii * list ascii :=
  match s with
  | c :: t =>
      if cset_mem cs c then let (run, rest) := span cs t in (c :: run, rest) else ([], s)
  | [] => ([], [])
  end.

(** All the ways of matching [r] at the start of [s], in the order the
    backtracking matcher tries them. *)
Fixpoint matches (r : regex) (s : list ascii) : list mres :=
  match r with
  | RSet cs =>
      match s with
      | c :: t => if cset_mem cs c then [MRes [c] [] t] else []
      | [] => []
      end
  | RPlus cs => map (fun p => MRes (fst p) [] (snd p)) (runs cs s)
  | RSeq r1 r2 =>
      flat_map (fun a =>
        map (fun b => MRes (m_text a ++ m_text b) (m_groups a ++ m_groups b) (m_rest b))
            (matches r2 (m_rest a)))
        (matches r1 s)
  | RGroup r =>
      map (fun a => MRes (m_text a) (m_text a :: m_groups a) (m_rest a)) (matches r s)
  end.

(** [pattern.match(s)]: the first way that succeeds. *)
Definition match_at (r : regex) (s : list ascii) : option mres :=
  head (matches r s).

(** Replacement templates such as [r'\1_\2']. *)
Inductive titem : Type :=
| TLit (c : ascii)
| TRef (n : nat).

Definition expand (tpl : list titem) (m : mres) : list ascii :=
  flat_map (fun it =>
    match it with
    | TLit c => [c]
    | TRef n => nth (pred n) (m_groups m) []
    end) tpl.

(** The scan of [re.sub]: leftmost matches that do not overlap are replaced,
    every other character is copied.  [skip] counts the characters of the
    current match still to be passed over.  (No pattern of this fragment
    matches the empty string, see [matches_prefix].) *)
Fixpoint sub_scan (r : regex) (tpl : list titem) (s : list ascii) (skip : nat)
  : list ascii :=
  match s with
  | [] => []
  | c :: t =>
      match skip with
      | S k => sub_scan r tpl t k
      | O =>
          match match_at r s with
          | Some m => expand tpl m ++ sub_scan r tpl t (pred (length (m_text m)))
          | None => c :: sub_scan r tpl t 0
          end
      end
  end.

(** [re.sub(pattern, repl, s)] *)
Definition sub (r : regex) (tpl : list titem) (s : string) : string :=
  Str.of_chars (sub_scan r tpl (Str.chars s) 0).

End Re.

(** ** Cell 18: [convert] *)

(** ['(.)([A-Z][a-z]+)'] *)
Definition pattern1 : Re.regex :=
  Re.RSeq (Re.RGroup (Re.RSet Re.CDot))
          (Re.RGroup (Re.RSeq (Re.RSet (Re.CRange "A"%char "Z"%char))
                              (Re.RPlus (Re.CRange "a"%char "z"%char)))).

(** ['([a-z0-9])([A-Z])'] *)
Definition pattern2 : Re.regex :=
  Re.RSeq (Re.RGroup (Re.RSet (Re.CUnion (Re.CRange "a"%char "z"%char) (Re.CRange "0"%char "9"%char))))
          (Re.RGroup (Re.RSet (Re.CRange "A"%char "Z"%char))).

(** [r'\1_\2'] *)
Definition repl : list Re.titem := [Re.TRef 1; Re.TLit "_"%char; Re.TRef 2].

Definition convert (name : string) : string :=
  let s1 := Re.sub pattern1 repl name in
  Str.lower (Re.sub pattern2 repl s1).

(** ** Strings of any code points

    The cells are embedded over [string], names of code points below 256.
    For what [convert] does to a name with letters beyond Latin-1, [re.sub]
    and [str.lower] are written out here over lists of code points of any
    size.  [str.lower] reads the character database of the interpreter: it
    is a parameter, [casing], and [ucd] holds its rows for the code points
    U+0000 to U+03FF. *)

Module Unicode.

Local Open Scope N_scope.

Definition str : Type := list N.

(** The code points of a name of the 8-bit embedding. *)
Definition code_points (s : string) : str := map Str.code (Str.chars s).

(** *** [re.sub] *)

Fixpoint cset_mem (cs : Re.cset) (c : N) : bool :=
  match cs with
  | Re.CDot => negb (c =? 10)
  | Re.CRange lo hi => (Str.code lo <=? c) && (c <=? Str.code hi)
  | Re.CUnion a b => cset_mem a c || cset_mem b c
  end.

Record mres : Type := MRes {
  m_text : str;
  m_groups : list str;
  m_rest : str
}.

Fixpoint runs (cs : Re.cset) (s : str) : list (str * str) :=
  match s with
  | c :: t =>
      if cset_mem cs c
      then map (fun p => (c :: fst p, snd p)) (runs cs t) ++ [([c], t)]
      else []
  | [] => []
  end.

Fixpoint matches (r : Re.regex) (s : str) : list mres :=
  match r with
  | Re.RSet cs =>
      match s with
      | c :: t => if cset_mem cs c then [MRes [c] [] t] else []
      | [] => []
      end
  | Re.RPlus cs => map (fun p => MRes (fst p) [] (snd p)) (runs cs s)
  | Re.RSeq r1 r2 =>
      flat_map (fun a =>
        map (fun b => MRes (m_text a ++ m_text b) (m_groups a ++ m_groups b) (m_rest b))
            (matches r2 (m_rest a)))
        (matches r1 s)
  | Re.RGroup r =>
      map (fun a => MRes (m_text a) (m_text a :: m_groups a) (m_rest a)) (matches r s)
  end.

Definition match_at (r : Re.regex) (s : str) : option mres :=
  head (matches r s).

(** A match of the 8-bit embedding, in code points. *)
Definition of_match (m : Re.mres) : mres :=
  MRes (map Str.code (Re.m_text m)) (map (map Str.code) (Re.m_groups m))
       (map Str.code (Re.m_rest m)).

Definition expand (tpl : list Re.titem) (m : mres) : str :=
  flat_map (fun it =>
    match it with
    | Re.TLit c => [Str.code c]
    | Re.TRef n => nth (pred n) (m_groups m) []
    end) tpl.

Fixpoint sub_scan (r : Re.regex) (tpl : list Re.titem) (s : str) (skip : nat) : str :=
  match s with
  | [] => []
  | c :: t =>
      match skip with
      | S k => sub_scan r tpl t k
      | O =>
          match match_at r s with
          | Some m => expand tpl m ++ sub_scan r tpl t (pred (length (m_text m)))
          | None => c :: sub_scan r tpl t 0
          end
      end
  end.

(** [re.sub(pattern, repl, s)] *)
Definition sub (r : Re.regex) (tpl : list Re.titem) (s : str) : str :=
  sub_scan r tpl s 0.

(** *** [str.lower] *)

(** What [str.lower] and [str.isupper] read in the character database: the
    lower-case mapping of the code points that have one (a code point can
    map to more than one, as U+0130 does), and the properties Cased,
    Case_Ignorable and Uppercase. *)
Record casing : Type := Casing {
  full_lower : list (N * list N);
  cased : N -> bool;
  case_ignorable : N -> bool;
  uppercase : N -> bool
}.

Definition assoc (rows : list (N * list N)) (c : N) : option (list N) :=
  option_map snd (find (fun row => fst row =? c) rows).

(** The lower case of a code point other than U+03A3. *)
Definition lower_full (db : casing) (c : N) : list N :=
  match assoc (full_lower db) c with
  | Some l => l
  | None => [c]
  end.

(** The nearest code point that is not case-ignorable. *)
Fixpoint first_heeded (db : casing) (l : list N) : option N :=
  match l with
  | [] => None
  | c :: t => if case_ignorable db c then first_heeded db t else Some c
  end.

(** A capital sigma is final when a cased letter comes before it and none
    after it, case-ignorable code points being passed over; [before] is the
    text before it, the nearest code point first. *)
Definition final_sigma (db : casing) (before after : list N) : bool :=
  match first_heeded db before with
  | Some c =>
      cased db c &&
      match first_heeded db after with
      | Some d => negb (cased db d)
      | None => true
      end
  | None => false
  end.

Definition lower_at (db : casing) (before : list N) (c : N) (after : list N) : list N :=
  if c =? 0x3A3
  then [if final_sigma db before after then 0x3C2 else 0x3C3]
  else lower_full db c.

Fixpoint lower_from (db : casing) (before : list N) (s : str) : str :=
  match s with
  | [] => []
  | c :: t => lower_at db before c t ++ lower_from db (c :: before) t
  end.

(** [s.lower()] *)
Definition lower (db : casing) (s : str) : str := lower_from db [] s.

(** *** Cell 18: [convert], on any name *)

Definition convert (db : casing) (name : str) : str :=
  let s1 := sub pattern1 repl name in
  lower db (sub pattern2 repl s1).

(** One of the letters A to Z, the capitals that the patterns look for. *)
Definition capital (c : N) : bool := (0x41 <=? c) && (c <=? 0x5A).

Definition capitals : list N :=
  [0x41; 0x42; 0x43; 0x44; 0x45; 0x46; 0x47; 0x48; 0x49; 0x4A; 0x4B; 0x4C; 0x4D;
   0x4E; 0x4F; 0x50; 0x51; 0x52; 0x53; 0x54; 0x55; 0x56; 0x57; 0x58; 0x59; 0x5A].

(** A code point that [str.lower] keeps wherever it stands, and that is not
    one of A to Z. *)
Definition settled (db : casing) (d : N) : bool :=
  negb (d =? 0x3A3) && negb (capital d) &&
  match assoc (full_lower db) d with
  | None => true
  | Some _ => false
  end.

(** Lower case is final: a lower-case mapping is not empty, does not start
    with the code point it is the mapping of, and consists of settled code
    points, as do the two small sigmas; and A to Z have a mapping. *)
Definition well_formed (db : casing) : bool :=
  forallb (fun row =>
             match snd row with
             | [] => false
             | d :: _ => negb (d =? fst row)
             end && forallb (settled db) (snd row))
          (full_lower db)
  && forallb (fun c => match assoc (full_lower db) c with Some _ => true | None => false end)
             capitals
  && settled db 0x3C2 && settled db 0x3C3.

(** *** The database for U+0000 to U+03FF

    The rows of the Unicode character database for the blocks from Basic
    Latin to Greek and Coptic.  [ucd] takes every code point from U+0400 on
    to have no case: [lower ucd] is [str.lower] on the strings of code points
    below U+0400. *)

Definition in_ranges (ranges : list (N * N)) (c : N) : bool :=
  existsb (fun r => (fst r <=? c) && (c <=? snd r)) ranges.

(** The lower-case mappings, U+03A3 apart. *)
Definition ucd_lower : list (N * list N) :=
  [(0x41, [0x61]); (0x42, [0x62]); (0x43, [0x63]); (0x44, [0x64]); (0x45, [0x65]);
   (0x46, [0x66]); (0x47, [0x67]); (0x48, [0x68]); (0x49, [0x69]); (0x4A, [0x6A]);
   (0x4B, [0x6B]); (0x4C, [0x6C]); (0x4D, [0x6D]); (0x4E, [0x6E]); (0x4F, [0x6F]);
   (0x50, [0x70]); (0x51, [0x71]); (0x52, [0x72]); (0x53, [0x73]); (0x54, [0x74]);
   (0x55, [0x75]); (0x56, [0x76]); (0x57, [0x77]); (0x58, [0x78]); (0x59, [0x79]);
   (0x5A, [0x7A]); (0xC0, [0xE0]); (0xC1, [0xE1]); (0xC2, [0xE2]); (0xC3, [0xE3]);
   (0xC4, [0xE4]); (0xC5, [0xE5]); (0xC6, [0xE6]); (0xC7, [0xE7]); (0xC8, [0xE8]);
   (0xC9, [0xE9]); (0xCA, [0xEA]); (0xCB, [0xEB]); (0xCC, [0xEC]); (0xCD, [0xED]);
   (0xCE, [0xEE]); (0xCF, [0xEF]); (0xD0, [0xF0]); (0xD1, [0xF1]); (0xD2, [0xF2]);
   (0xD3, [0xF3]); (0xD4, [0xF4]); (0xD5, [0xF5]); (0xD6, [0xF6]); (0xD8, [0xF8]);
   (0xD9, [0xF9]); (0xDA, [0xFA]); (0xDB, [0xFB]); (0xDC, [0xFC]); (0xDD, [0xFD]);
   (0xDE, [0xFE]); (0x100, [0x101]); (0x102, [0x103]); (0x104, [0x105]); (0x106, [0x107]);
   (0x108, [0x109]); (0x10A, [0x10B]); (0x10C, [0x10D]); (0x10E, [0x10F]); (0x110, [0x111]);
   (0x112, [0x113]); (0x114, [0x115]); (0x116, [0x117]); (0x118, [0x119]); (0x11A, [0x11B]);
   (0x11C, [0x11D]); (0x11E, [0x11F]); (0x120, [0x121]); (0x122, [0x123]); (0x124, [0x125]);
   (0x126, [0x127]); (0x128, [0x129]); (0x12A, [0x12B]); (0x12C, [0x12D]); (0x12E, [0x12F]);
   (0x130, [0x69; 0x307]); (0x132, [0x133]); (0x134, [0x135]); (0x136, [0x137]);
   (0x139, [0x13A]); (0x13B, [0x13C]); (0x13D, [0x13E]); (0x13F, [0x140]); (0x141, [0x142]);
   (0x143, [0x144]); (0x145, [0x146]); (0x147, [0x148]); (0x14A, [0x14B]); (0x14C, [0x14D]);
   (0x14E, [0x14F]); (0x150, [0x151]); (0x152, [0x153]); (0x154, [0x155]); (0x156, [0x157]);
   (0x158, [0x159]); (0x15A, [0x15B]); (0x15C, [0x15D]); (0x15E, [0x15F]); (0x160, [0x161]);
   (0x162, [0x163]); (0x164, [0x165]); (0x166, [0x167]); (0x168, [0x169]); (0x16A, [0x16B]);
   (0x16C, [0x16D]); (0x16E, [0x16F]); (0x170, [0x171]); (0x172, [0x173]); (0x174, [0x175]);
   (0x176, [0x177]); (0x178, [0xFF]); (0x179, [0x17A]); (0x17B, [0x17C]); (0x17D, [0x17E]);
   (0x181, [0x253]); (0x182, [0x183]); (0x184, [0x185]); (0x186, [0x254]); (0x187, [0x188]);
   (0x189, [0x256]); (0x18A, [0x257]); (0x18B, [0x18C]); (0x18E, [0x1DD]); (0x18F, [0x259]);
   (0x190, [0x25B]); (0x191, [0x192]); (0x193, [0x260]); (0x194, [0x263]); (0x196, [0x269]);
   (0x197, [0x268]); (0x198, [0x199]); (0x19C, [0x26F]); (0x19D, [0x272]); (0x19F, [0x275]);
   (0x1A0, [0x1A1]); (0x1A2, [0x1A3]); (0x1A4, [0x1A5]); (0x1A6, [0x280]); (0x1A7, [0x1A8]);
   (0x1A9, [0x283]); (0x1AC, [0x1AD]); (0x1AE, [0x288]); (0x1AF, [0x1B0]); (0x1B1, [0x28A]);
   (0x1B2, [0x28B]); (0x1B3, [0x1B4]); (0x1B5, [0x1B6]); (0x1B7, [0x292]); (0x1B8, [0x1B9]);
   (0x1BC, [0x1BD]); (0x1C4, [0x1C6]); (0x1C5, [0x1C6]); (0x1C7, [0x1C9]); (0x1C8, [0x1C9]);
   (0x1CA, [0x1CC]); (0x1CB, [0x1CC]); (0x1CD, [0x1CE]); (0x1CF, [0x1D0]); (0x1D1, [0x1D2]);
   (0x1D3, [0x1D4]); (0x1D5, [0x1D6]); (0x1D7, [0x1D8]); (0x1D9, [0x1DA]); (0x1DB, [0x1DC]);
   (0x1DE, [0x1DF]); (0x1E0, [0x1E1]); (0x1E2, [0x1E3]); (0x1E4, [0x1E5]); (0x1E6, [0x1E7]);
   (0x1E8, [0x1E9]); (0x1EA, [0x1EB]); (0x1EC, [0x1ED]); (0x1EE, [0x1EF]); (0x1F1, [0x1F3]);
   (0x1F2, [0x1F3]); (0x1F4, [0x1F5]); (0x1F6, [0x195]); (0x1F7, [0x1BF]); (0x1F8, [0x1F9]);
   (0x1FA, [0x1FB]); (0x1FC, [0x1FD]); (0x1FE, [0x1FF]); (0x200, [0x201]); (0x202, [0x203]);
   (0x204, [0x205]); (0x206, [0x207]); (0x208, [0x209]); (0x20A, [0x20B]); (0x20C, [0x20D]);
   (0x20E, [0x20F]); (0x210, [0x211]); (0x212, [0x213]); (0x214, [0x215]); (0x216, [0x217]);
   (0x218, [0x219]); (0x21A, [0x21B]); (0x21C, [0x21D]); (0x21E, [0x21F]); (0x220, [0x19E]);
   (0x222, [0x223]); (0x224, [0x225]); (0x226, [0x227]); (0x228, [0x229]); (0x22A, [0x22B]);
   (0x22C, [0x22D]); (0x22E, [0x22F]); (0x230, [0x231]); (0x232, [0x233]); (0x23A, [0x2C65]);
   (0x23B, [0x23C]); (0x23D, [0x19A]); (0x23E, [0x2C66]); (0x241, [0x242]); (0x243, [0x180]);
   (0x244, [0x289]); (0x245, [0x28C]); (0x246, [0x247]); (0x248, [0x249]); (0x24A, [0x24B]);
   (0x24C, [0x24D]); (0x24E, [0x24F]); (0x370, [0x371]); (0x372, [0x373]); (0x376, [0x377]);
   (0x37F, [0x3F3]); (0x386, [0x3AC]); (0x388, [0x3AD]); (0x389, [0x3AE]); (0x38A, [0x3AF]);
   (0x38C, [0x3CC]); (0x38E, [0x3CD]); (0x38F, [0x3CE]); (0x391, [0x3B1]); (0x392, [0x3B2]);
   (0x393, [0x3B3]); (0x394, [0x3B4]); (0x395, [0x3B5]); (0x396, [0x3B6]); (0x397, [0x3B7]);
   (0x398, [0x3B8]); (0x399, [0x3B9]); (0x39A, [0x3BA]); (0x39B, [0x3BB]); (0x39C, [0x3BC]);
   (0x39D, [0x3BD]); (0x39E, [0x3BE]); (0x39F, [0x3BF]); (0x3A0, [0x3C0]); (0x3A1, [0x3C1]);
   (0x3A4, [0x3C4]); (0x3A5, [0x3C5]); (0x3A6, [0x3C6]); (0x3A7, [0x3C7]); (0x3A8, [0x3C8]);
   (0x3A9, [0x3C9]); (0x3AA, [0x3CA]); (0x3AB, [0x3CB]); (0x3CF, [0x3D7]); (0x3D8, [0x3D9]);
   (0x3DA, [0x3DB]); (0x3DC, [0x3DD]); (0x3DE, [0x3DF]); (0x3E0, [0x3E1]); (0x3E2, [0x3E3]);
   (0x3E4, [0x3E5]); (0x3E6, [0x3E7]); (0x3E8, [0x3E9]); (0x3EA, [0x3EB]); (0x3EC, [0x3ED]);
   (0x3EE, [0x3EF]); (0x3F4, [0x3B8]); (0x3F7, [0x3F8]); (0x3F9, [0x3F2]); (0x3FA, [0x3FB]);
   (0x3FD, [0x37B]); (0x3FE, [0x37C]); (0x3FF, [0x37D])].

Definition ucd_uppercase : list (N * N) :=
  [(0x41, 0x5A); (0xC0, 0xD6); (0xD8, 0xDE); (0x100, 0x100); (0x102, 0x102); (0x104, 0x104);
   (0x106, 0x106); (0x108, 0x108); (0x10A, 0x10A); (0x10C, 0x10C); (0x10E, 0x10E);
   (0x110, 0x110); (0x112, 0x112); (0x114, 0x114); (0x116, 0x116); (0x118, 0x118);
   (0x11A, 0x11A); (0x11C, 0x11C); (0x11E, 0x11E); (0x120, 0x120); (0x122, 0x122);
   (0x124, 0x124); (0x126, 0x126); (0x128, 0x128); (0x12A, 0x12A); (0x12C, 0x12C);
   (0x12E, 0x12E); (0x130, 0x130); (0x132, 0x132); (0x134, 0x134); (0x136, 0x136);
   (0x139, 0x139); (0x13B, 0x13B); (0x13D, 0x13D); (0x13F, 0x13F); (0x141, 0x141);
   (0x143, 0x143); (0x145, 0x145); (0x147, 0x147); (0x14A, 0x14A); (0x14C, 0x14C);
   (0x14E, 0x14E); (0x150, 0x150); (0x152, 0x152); (0x154, 0x154); (0x156, 0x156);
   (0x158, 0x158); (0x15A, 0x15A); (0x15C, 0x15C); (0x15E, 0x15E); (0x160, 0x160);
   (0x162, 0x162); (0x164, 0x164); (0x166, 0x166); (0x168, 0x168); (0x16A, 0x16A);
   (0x16C, 0x16C); (0x16E, 0x16E); (0x170, 0x170); (0x172, 0x172); (0x174, 0x174);
   (0x176, 0x176); (0x178, 0x179); (0x17B, 0x17B); (0x17D, 0x17D); (0x181, 0x182);
   (0x184, 0x184); (0x186, 0x187); (0x189, 0x18B); (0x18E, 0x191); (0x193, 0x194);
   (0x196, 0x198); (0x19C, 0x19D); (0x19F, 0x1A0); (0x1A2, 0x1A2); (0x1A4, 0x1A4);
   (0x1A6, 0x1A7); (0x1A9, 0x1A9); (0x1AC, 0x1AC); (0x1AE, 0x1AF); (0x1B1, 0x1B3);
   (0x1B5, 0x1B5); (0x1B7, 0x1B8); (0x1BC, 0x1BC); (0x1C4, 0x1C4); (0x1C7, 0x1C7);
   (0x1CA, 0x1CA); (0x1CD, 0x1CD); (0x1CF, 0x1CF); (0x1D1, 0x1D1); (0x1D3, 0x1D3);
   (0x1D5, 0x1D5); (0x1D7, 0x1D7); (0x1D9, 0x1D9); (0x1DB, 0x1DB); (0x1DE, 0x1DE);
   (0x1E0, 0x1E0); (0x1E2, 0x1E2); (0x1E4, 0x1E4); (0x1E6, 0x1E6); (0x1E8, 0x1E8);
   (0x1EA, 0x1EA); (0x1EC, 0x1EC); (0x1EE, 0x1EE); (0x1F1, 0x1F1); (0x1F4, 0x1F4);
   (0x1F6, 0x1F8); (0x1FA, 0x1FA); (0x1FC, 0x1FC); (0x1FE, 0x1FE); (0x200, 0x200);
   (0x202, 0x202); (0x204, 0x204); (0x206, 0x206); (0x208, 0x208); (0x20A, 0x20A);
   (0x20C, 0x20C); (0x20E, 0x20E); (0x210, 0x210); (0x212, 0x212); (0x214, 0x214);
   (0x216, 0x216); (0x218, 0x218); (0x21A, 0x21A); (0x21C, 0x21C); (0x21E, 0x21E);
   (0x220, 0x220); (0x222, 0x222); (0x224, 0x224); (0x226, 0x226); (0x228, 0x228);
   (0x22A, 0x22A); (0x22C, 0x22C); (0x22E, 0x22E); (0x230, 0x230); (0x232, 0x232);
   (0x23A, 0x23B); (0x23D, 0x23E); (0x241, 0x241); (0x243, 0x246); (0x248, 0x248);
   (0x24A, 0x24A); (0x24C, 0x24C); (0x24E, 0x24E); (0x370, 0x370); (0x372, 0x372);
   (0x376, 0x376); (0x37F, 0x37F); (0x386, 0x386); (0x388, 0x38A); (0x38C, 0x38C);
   (0x38E, 0x38F); (0x391, 0x3A1); (0x3A3, 0x3AB); (0x3CF, 0x3CF); (0x3D2, 0x3D4);
   (0x3D8, 0x3D8); (0x3DA, 0x3DA); (0x3DC, 0x3DC); (0x3DE, 0x3DE); (0x3E0, 0x3E0);
   (0x3E2, 0x3E2); (0x3E4, 0x3E4); (0x3E6, 0x3E6); (0x3E8, 0x3E8); (0x3EA, 0x3EA);
   (0x3EC, 0x3EC); (0x3EE, 0x3EE); (0x3F4, 0x3F4); (0x3F7, 0x3F7); (0x3F9, 0x3FA);
   (0x3FD, 0x3FF)].

Definition ucd_cased : list (N * N) :=
  [(0x41, 0x5A); (0x61, 0x7A); (0xAA, 0xAA); (0xB5, 0xB5); (0xBA, 0xBA); (0xC0, 0xD6);
   (0xD8, 0xF6); (0xF8, 0x1BA); (0x1BC, 0x1BF); (0x1C4, 0x293); (0x295, 0x2B8); (0x2C0, 0x2C1);
   (0x2E0, 0x2E4); (0x345, 0x345); (0x370, 0x373); (0x376, 0x377); (0x37A, 0x37D);
   (0x37F, 0x37F); (0x386, 0x386); (0x388, 0x38A); (0x38C, 0x38C); (0x38E, 0x3A1);
   (0x3A3, 0x3F5); (0x3F7, 0x3FF)].

Definition ucd_case_ignorable : list (N * N) :=
  [(0x27, 0x27); (0x2E, 0x2E); (0x3A, 0x3A); (0x5E, 0x5E); (0x60, 0x60); (0xA8, 0xA8);
   (0xAD, 0xAD); (0xAF, 0xAF); (0xB4, 0xB4); (0xB7, 0xB8); (0x2B0, 0x36F); (0x374, 0x375);
   (0x37A, 0x37A); (0x384, 0x385); (0x387, 0x387)].

Definition ucd : casing :=
  Casing ucd_lower (in_ranges ucd_cased) (in_ranges ucd_case_ignorable)
         (in_ranges ucd_uppercase).

End Unicode.

(** ** Values and their text *)

(** The values the cells pass around as constructor arguments and store as
    plain attributes. *)
Inductive value : Type :=
| VNone
| VInt (z : Z)
| VStr (s : string).

Module Text.

Definition nl : string := String "010"%char "".

Fixpoint join (sep : string) (l : list string) : string :=
  match l with
  | [] => ""
  | x :: l' =>
      match l' with
      | [] => x
      | _ :: _ => x +:+ sep +:+ join sep l'
      end
  end.

Definition of_nat (n : nat) : string := NilZero.string_of_uint (Nat.to_uint n).
Definition of_Z (z : Z) : string := NilZero.string_of_int (Z.to_int z).

Definition digit (upper : bool) (d : N) : ascii :=
  nth (N.to_nat d)
      (Str.chars (if upper then "0123456789ABCDEF" else "0123456789abcdef"))
      "0"%char.

(** The [w] low hexadecimal digits of [a], most significant first. *)
Fixpoint hex (upper : bool) (w : nat) (a : N) (acc : string) : string :=
  match w with
  | O => acc
  | S w' => hex upper w' (a / 16)%N (String (digit upper (a mod 16)%N) acc)
  end.

(** The [%p] conversion of the build the notebook was run on: [0x] and
    sixteen upper-case digits (see the recorded outputs of cells 13, 22
    and 27). *)
Definition pointer (a : N) : string := "0x" +:+ hex true 16 a "".

(** [c.isprintable()] below 256. *)
Definition printable (c : ascii) : bool :=
  let n := Str.code c in
  ((32 <=? n) && (n <? 127) || (161 <=? n) && negb (n =? 173))%N.

Definition escape (quote c : ascii) : string :=
  if Ascii.eqb c quote || Ascii.eqb c "\"%char then String "\"%char (String c "")
  else if Ascii.eqb c "010"%char then "\n"
  else if Ascii.eqb c "013"%char then "\r"
  else if Ascii.eqb c "009"%char then "\t"
  else if printable c then String c ""
  else "\x" +:+ hex false 2 (Str.code c) "".

Definition has (c : ascii) (s : string) : bool :=
  existsb (Ascii.eqb c) (Str.chars s).

(** [repr(s)] for a [str]: single quotes, unless the text has a single quote
    and no double quote. *)
Definition repr_str (s : string) : string :=
  let q := if has "'"%char s && negb (has "034"%char s) then "034"%char else "'"%char in
  String q (String.concat "" (map (escape q) (Str.chars s))) +:+ String q "".

Definition repr (v : value) : string :=
  match v with
  | VNone => "None"
  | VInt z => of_Z z
  | VStr s => repr_str s
  end.

(** [str(v)], what [format] puts in place of the braces. *)
Definition str (v : value) : string :=
  match v with
  | VStr s => s
  | _ => repr v
  end.

(** [repr] of a tuple whose items are already rendered. *)
Definition tuple (items : list string) : string :=
  match items with
  | [x] => "(" +:+ x +:+ ",)"
  | _ => "(" +:+ join ", " items +:+ ")"
  end.

Definition list_ (items : list string) : string :=
  "[" +:+ join ", " items +:+ "]".

Definition dict_ (items : list (string * string)) : string :=
  "{" +:+ join ", " (map (fun kv => fst kv +:+ ": " +:+ snd kv) items) +:+ "}".

Definition repr_args (args : list value) : string := tuple (map repr args).

Definition repr_kwargs (kwargs : list (string * value)) : string :=
  dict_ (map (fun kv => (repr_str (fst kv), repr (snd kv))) kwargs).

Definition repr_names (names : list string) : string := list_ (map repr_str names).

End Text.

(** ** Dictionaries *)

Module Dict.

Definition dict (V : Type) : Type := list (string * V).

(** [d[k] = v]: an existing key keeps its place, a new key goes last. *)
Fixpoint set {V} (d : dict V) (k : string) (v : V) : dict V :=
  match d with
  | [] => [(k, v)]
  | (k', v') :: d' =>
      if String.eqb k' k then (k', v) :: d' else (k', v') :: set d' k v
  end.

(** [d.get(k)] *)
Fixpoint get {V} (d : dict V) (k : string) : option V :=
  match d with
  | [] => None
  | (k', v') :: d' => if String.eqb k' k then Some v' else get d' k
  end.

(** [d.pop(k, None)], the value dropped *)
Fixpoint remove {V} (d : dict V) (k : string) : dict V :=
  match d with
  | [] => []
  | (k', v') :: d' => if String.eqb k' k then d' else (k', v') :: remove d' k
  end.

Definition keys {V} (d : dict V) : list string := map fst d.

Definition mem {V} (d : dict V) (k : string) : bool :=
  match get d k with Some _ => true | None => false end.

(** [d.setdefault(k, v)], the dictionary afterwards *)
Definition setdefault {V} (d : dict V) (k : string) (v : V) : dict V :=
  if mem d k then d else set d k v.

End Dict.

(** ** Exceptions, the heap and the world *)

Inductive exn : Type :=
| TypeError (msg : string)
| KeyError (key : string)
| RecursionError (msg : string).

Inductive result (A : Type) : Type :=
| Ok (a : A)
| Raise (e : exn).
Arguments Ok {A} a.
Arguments Raise {A} e.

(** Computations that read and write a state [S] and either return or raise.
    What was written before an exception stays written. *)
Definition St (S A : Type) : Type := S -> result A * S.

#[global] Instance St_ret {S} : MRet (St S) := fun A a s => (Ok a, s).

#[global] Instance St_bind {S} : MBind (St S) := fun A B f m s =>
  match m s with
  | (Ok a, s') => f a s'
  | (Raise e, s') => (Raise e, s')
  end.

Definition raise {S A} (e : exn) : St S A := fun s => (Raise e, s).

(** [try: m  except Exception as e: handler e] *)
Definition try_except {S A} (m : St S A) (handler : exn -> St S A) : St S A :=
  fun s =>
    match m s with
    | (Ok a, s') => (Ok a, s')
    | (Raise e, s') => handler e s'
    end.

(** [str(e)] *)
Definition exn_text (e : exn) : string :=
  match e with
  | TypeError msg => msg
  | KeyError key => key
  | RecursionError msg => msg
  end.

(** An instance: its address (its identity, what [is] compares), the
    identity and the printed name of its class, and its attributes. *)
Record instance : Type := Instance {
  o_addr : N;
  o_class : N;
  o_type : string;
  o_attrs : Dict.dict value
}.

(** The log of constructor dispatches: [type.__call__] looked up and called
    [__new__], respectively [__init__], of the class with this identity. *)
Inductive event : Type :=
| EvNew (cls : N)
| EvInit (cls : N).

(** What every piece of code can reach: the console, the allocator (a bump
    pointer: live objects have distinct addresses) and the dispatch log. *)
Record heap : Type := Heap {
  h_out : list string;
  h_brk : N;
  h_log : list event
}.

(** The heap together with the class attribute [Singleton._instances], a
    dictionary keyed by class objects, that is by their identity. *)
Record world : Type := World {
  w_heap : heap;
  w_instances : gmap N instance
}.

Abbreviation H := (St heap).
Abbreviation M := (St world).

Definition lift {A} (m : H A) : M A :=
  fun w => let (r, h) := m (w_heap w) in (r, World h (w_instances w)).

(** [print(s)] *)
Definition print (s : string) : H unit :=
  fun h => (Ok tt, Heap (h_out h ++ [s +:+ Text.nl]) (h_brk h) (h_log h)).

Definition alloc : H N :=
  fun h => (Ok (h_brk h), Heap (h_out h) (h_brk h + 1) (h_log h)).

Definition log (e : event) : H unit :=
  fun h => (Ok tt, Heap (h_out h) (h_brk h) (h_log h ++ [e])).

(** ** Classes *)

(** A member of a class body: a [def] (with its [__isabstractmethod__]
    flag), a plain attribute, a descriptor put there by [type], or the
    [__classcell__] of a body that calls [super()]. *)
Inductive member : Type :=
| Method (name : string) (abstract : bool)
| Attr (v : value)
| Slot
| ClassCell.

Inductive metaclass : Type :=
| MType
| MABCMeta
| MMyMeta
| MCamelToSnake
| MSingleton
| MSnakeSingleton.

(** What [object.__new__] reads off the class it is asked to instantiate. *)
Record typeinfo : Type := TypeInfo {
  t_id : N;
  t_name : string;
  t_module : string;
  t_qualname : string;
  t_abstract : list string;   (* __abstractmethods__ *)
  t_new : bool;               (* __new__ is overridden *)
  t_init : bool               (* __init__ is overridden *)
}.

(** The body of a [__new__]: from the class and the call's arguments to the
    new instance.  The body of an [__init__]: from the instance and the
    arguments to the instance with its attributes set.  A constructor body is
    code like any other: it can print, allocate and raise, and it can reach
    [Singleton._instances], directly or by calling a class, its own included. *)
Definition new_body : Type := typeinfo -> list value -> Dict.dict value -> M instance.
Definition init_body : Type := instance -> list value -> Dict.dict value -> M instance.

(** A class object.  [c_new] and [c_init] are the bodies that [cls.__new__]
    and [cls.__init__] resolve to, [None] standing for [object]'s. *)
#[warnings="-register-all"]
Inductive class : Type := Class {
  c_id : N;
  c_meta : metaclass;
  c_name : string;
  c_qualname : string;
  c_bases : list class;
  c_dict : Dict.dict member;
  c_abstract : list string;
  c_new : option new_body;
  c_init : option init_body
}.

Definition c_module (c : class) : string :=
  match Dict.get (c_dict c) "__module__" with
  | Some (Attr (VStr m)) => m
  | _ => "builtins"
  end.

Definition info (c : class) : typeinfo :=
  TypeInfo (c_id c) (c_name c) (c_module c) (c_qualname c) (c_abstract c)
           (match c_new c with Some _ => true | None => false end)
           (match c_init c with Some _ => true | None => false end).

(** The dotted name in the text of a class and of its instances. *)
Definition type_path (t : typeinfo) : string :=
  if String.eqb (t_module t) "builtins" then t_name t
  else t_module t +:+ "." +:+ t_qualname t.

(** [str(cls)] *)
Definition str_type (t : typeinfo) : string :=
  "<class '" +:+ type_path t +:+ "'>".

Definition str_class (c : class) : string := str_type (info c).

(** [str(obj)] for an instance with the default [__repr__] *)
Definition str_instance (o : instance) : string :=
  "<" +:+ o_type o +:+ " object at " +:+ Text.pointer (o_addr o) +:+ ">".

(** [a is b] *)
Definition is_ (a b : instance) : bool := (o_addr a =? o_addr b)%N.

(** [getattr(cls, name, None)]: the class's own dictionary, then its bases
    from left to right. *)
Fixpoint getattr (c : class) (name : string) : option member :=
  match c with
  | Class _ _ _ _ bases d _ _ _ =>
      match Dict.get d name with
      | Some m => Some m
      | None =>
          (fix along (bs : list class) : option member :=
             match bs with
             | [] => None
             | b :: bs' =>
                 match getattr b name with
                 | Some m => Some m
                 | None => along bs'
                 end
             end) bases
      end
  end.

(** The names in the dictionaries of a class and of its bases. *)
Fixpoint names_of (c : class) : list string :=
  match c with
  | Class _ _ _ _ bases d _ _ _ =>
      Dict.keys d ++
      (fix along (bs : list class) : list string :=
         match bs with
         | [] => []
         | b :: bs' => names_of b ++ along bs'
         end) bases
  end.

(** ** The runtime: sorting, [object], [type] *)

Fixpoint insert_sorted (x : string) (l : list string) : list string :=
  match l with
  | [] => [x]
  | y :: l' => if String.leb x y then x :: y :: l' else y :: insert_sorted x l'
  end.

(** The order of [str]: by code points, a prefix first. *)
Definition le (a b : string) : Prop := String.leb a b = true.
Definition ordered (l : list string) : Prop := StronglySorted le l.

(** [sorted(l)] on strings. *)
Definition sorted (l : list string) : list string :=
  fold_right insert_sorted [] l.

(** The elements of [l] once each, an element staying at its first place. *)
Fixpoint distinct (l : list string) : list string :=
  match l with
  | [] => []
  | x :: l' => x :: List.filter (fun y => negb (String.eqb x y)) (distinct l')
  end.

Definition excess_args (args : list value) (kwargs : Dict.dict value) : bool :=
  match args, kwargs with
  | [], [] => false
  | _, _ => true
  end.

(** [object.__new__(cls, *args, **kwargs)], with the messages of CPython 3.6,
    the interpreter of the recorded outputs. *)
Definition object_new (t : typeinfo) (args : list value) (kwargs : Dict.dict value)
  : H instance :=
  if excess_args args kwargs && (negb (t_init t) || t_new t) then
    raise (TypeError "object() takes no parameters")
  else
    match t_abstract t with
    | _ :: _ =>
        raise (TypeError ("Can't instantiate abstract class " +:+ t_name t +:+
                          " with abstract methods " +:+
                          Text.join ", " (sorted (t_abstract t))))
    | [] =>
        a ← alloc;
        mret (Instance a (t_id t) (type_path t) [])
    end.

(** [object.__init__(self, *args, **kwargs)] *)
Definition object_init (t : typeinfo) (self : instance) (args : list value)
    (kwargs : Dict.dict value) : H instance :=
  if excess_args args kwargs && (negb (t_new t) || t_init t) then
    raise (TypeError "object.__init__() takes no parameters")
  else mret self.

(** [type.__call__(cls, *args, **kwargs)]: [cls.__new__], then [__init__] on
    what it returned when that is an instance of [cls] (here: of exactly
    [cls]). *)
Definition type_call (c : class) (args : list value) (kwargs : Dict.dict value)
  : M instance :=
  lift (log (EvNew (c_id c)));;
  obj ← match c_new c with
        | Some body => body (info c) args kwargs
        | None => lift (object_new (info c) args kwargs)
        end;
  if (o_class obj =? c_id c)%N then
    lift (log (EvInit (c_id c)));;
    match c_init c with
    | Some body => body obj args kwargs
    | None => lift (object_init (info c) obj args kwargs)
    end
  else mret obj.

(** The first base that overrides a constructor hands it down. *)
Fixpoint inherited {A} (f : class -> option A) (bases : list class) : option A :=
  match bases with
  | [] => None
  | b :: bases' =>
      match f b with
      | Some x => Some x
      | None => inherited f bases'
      end
  end.

(** What a class statement hands to the metaclass besides the name and the
    bases: the namespace filled by the body, and the bodies of the [__new__]
    and [__init__] it defines. *)
Record body : Type := Body {
  b_namespace : Dict.dict member;
  b_new : option new_body;
  b_init : option init_body
}.

(** The namespace of [class name: defs] at module level. *)
Definition namespace (name : string) (defs : Dict.dict member) : Dict.dict member :=
  [("__module__", Attr (VStr "__main__")); ("__qualname__", Attr (VStr name))] ++ defs.

(** The attributes that [type.__new__] takes as it is embedded here: they
    hold no [__slots__], their [__qualname__], if any, is a string, and their
    [__classcell__], if any, is the cell of the body.  Such are the class
    bodies of the notebook.  With [__slots__], [type.__new__] puts one
    descriptor for each slot name into the dictionary of the class and leaves
    out [__dict__] and [__weakref__]; a [__qualname__] or a [__classcell__] of
    another kind makes it raise.  [class_dict] and [type_new] are for
    accepted attributes, and what is proved of classes with bodies of any
    kind assumes that their attributes are accepted. *)
Definition accepted (attrs : Dict.dict member) : Prop :=
  Dict.get attrs "__slots__" = None
  /\ (forall m, Dict.get attrs "__qualname__" = Some m -> exists q, m = Attr (VStr q))
  /\ (forall m, Dict.get attrs "__classcell__" = Some m -> m = ClassCell).

(** The definitions of a class body that assigns none of the names that a
    class statement or [type.__new__] treats in a special way:
    [namespace name defs] is then its namespace, and is accepted. *)
Definition plain_defs (defs : Dict.dict member) : Prop :=
  Forall (fun k => Dict.get defs k = None)
         ["__module__"; "__qualname__"; "__classcell__"; "__slots__"].

(** The dictionary of the class that [type.__new__] builds from accepted
    [attrs]: the module of the calling code ([__main__] in a
    notebook) unless [attrs] names one, no [__qualname__] and no
    [__classcell__], the two descriptors of a class that derives from [object]
    alone, and a [__doc__]. *)
Definition class_dict (bases : list class) (attrs : Dict.dict member)
  : Dict.dict member :=
  let d := Dict.setdefault attrs "__module__" (Attr (VStr "__main__")) in
  let d := Dict.remove (Dict.remove d "__qualname__") "__classcell__" in
  let d := match bases with
           | [] => Dict.setdefault (Dict.setdefault d "__dict__" Slot) "__weakref__" Slot
           | _ :: _ => d
           end in
  Dict.setdefault d "__doc__" (Attr VNone).

(** [type.__new__(mcs, name, bases, attrs)], and [type(name, bases, attrs)]
    with [mcs = MType]. *)
Definition type_new (mcs : metaclass) (name : string) (bases : list class)
    (attrs : Dict.dict member) (b : body) : H class :=
  id ← alloc;
  mret (Class id mcs name
          (match Dict.get attrs "__qualname__" with
           | Some (Attr (VStr q)) => q
           | _ => name
           end)
          bases (class_dict bases attrs) []
          (match b_new b with Some f => Some f | None => inherited c_new bases end)
          (match b_init b with Some f => Some f | None => inherited c_init bases end)).

(** [dir(cls)]: the sorted names of the class, of its bases and of [object],
    whose names the interpreter supplies. *)
Definition dir (object_names : list string) (c : class) : list string :=
  sorted (distinct (names_of c ++ object_names)).

(** [[a for a in dir(cls) if not a.startswith('__')]] *)
Definition public_names (object_names : list string) (c : class) : list string :=
  List.filter (fun a => negb (Str.startswith a "__")) (dir object_names c).

(** ** [abc.ABCMeta] *)

Definition is_abstract (m : option member) : bool :=
  match m with
  | Some (Method _ true) => true
  | _ => false
  end.

Definition set_add (s : list string) (x : string) : list string :=
  if existsb (String.eqb x) s then s else s ++ [x].

Definition with_abstract (c : class) (abstracts : list string) : class :=
  Class (c_id c) (c_meta c) (c_name c) (c_qualname c) (c_bases c) (c_dict c)
        abstracts (c_new c) (c_init c).

(** [ABCMeta.__new__]: the class that [type.__new__] builds, with
    [__abstractmethods__] set to the abstract names of the namespace and the
    names abstract in a base that still resolve to an abstract method. *)
Definition ABCMeta_new (mcs : metaclass) (name : string) (bases : list class)
    (attrs : Dict.dict member) (b : body) : H class :=
  cls ← type_new mcs name bases attrs b;
  let abstracts :=
    fold_left (fun acc kv => if is_abstract (Some (snd kv)) then set_add acc (fst kv) else acc)
              attrs [] in
  let abstracts :=
    fold_left (fun acc base =>
                 fold_left (fun acc name =>
                              if is_abstract (getattr cls name) then set_add acc name else acc)
                           (c_abstract base) acc)
              bases abstracts in
  mret (with_abstract cls abstracts).

(** ** Binding the arguments of a call to the parameters of a [def] *)

Module Bind.

(** A parameter after [self] or [cls]: its name and its default, if any. *)
Definition params : Type := list (string * option value).

Fixpoint positional (ps : params) (args : list value) : Dict.dict (option value) :=
  match ps with
  | [] => []
  | (p, _) :: ps' =>
      match args with
      | a :: args' => (p, Some a) :: positional ps' args'
      | [] => (p, None) :: positional ps' []
      end
  end.

Fixpoint keywords (fname : string) (slots : Dict.dict (option value))
    (kwargs : Dict.dict value) : result (Dict.dict (option value)) :=
  match kwargs with
  | [] => Ok slots
  | (k, v) :: kwargs' =>
      match Dict.get slots k with
      | None =>
          Raise (TypeError (fname +:+ "() got an unexpected keyword argument '" +:+ k +:+ "'"))
      | Some (Some _) =>
          Raise (TypeError (fname +:+ "() got multiple values for argument '" +:+ k +:+ "'"))
      | Some None => keywords fname (Dict.set slots k (Some v)) kwargs'
      end
  end.

Definition defaults (ps : params) : nat :=
  length (List.filter (fun p => match snd p with Some _ => true | None => false end) ps).

(** The counts include [self]. *)
Definition too_many (fname : string) (ps : params) (given : nat) : exn :=
  let hi := S (length ps) in
  let takes := match defaults ps with
               | O => Text.of_nat hi +:+ " positional argument" +:+
                      (if Nat.eqb hi 1 then "" else "s")
               | S _ => "from " +:+ Text.of_nat (hi - defaults ps) +:+ " to " +:+
                        Text.of_nat hi +:+ " positional arguments"
               end in
  TypeError (fname +:+ "() takes " +:+ takes +:+ " but " +:+ Text.of_nat (S given) +:+
             " were given").

Fixpoint name_list (names : list string) : string :=
  match names with
  | [] => ""
  | [a] => a
  | [a; b] => a +:+ " and " +:+ b
  | a :: rest =>
      match rest with
      | [b; c] => a +:+ ", " +:+ b +:+ ", and " +:+ c
      | _ => a +:+ ", " +:+ name_list rest
      end
  end.

Definition missing (fname : string) (names : list string) : exn :=
  TypeError (fname +:+ "() missing " +:+ Text.of_nat (length names) +:+
             " required positional argument" +:+
             (match names with [_] => "" | _ => "s" end) +:+ ": " +:+
             name_list (map Text.repr_str names)).

(** The value of each parameter, from the call or from its default. *)
Fixpoint fill (ps : params) (slots : Dict.dict (option value))
  : Dict.dict value * list string :=
  match ps with
  | [] => ([], [])
  | (p, d) :: ps' =>
      let (bound, lacking) := fill ps' slots in
      match Dict.get slots p with
      | Some (Some v) => ((p, v) :: bound, lacking)
      | _ =>
          match d with
          | Some v => ((p, v) :: bound, lacking)
          | None => (bound, p :: lacking)
          end
      end
  end.

Definition bind (fname : string) (ps : params) (args : list value)
    (kwargs : Dict.dict value) : result (Dict.dict value) :=
  match keywords fname (positional ps args) kwargs with
  | Raise e => Raise e
  | Ok slots =>
      if (length ps <? length args)%nat then Raise (too_many fname ps (length args))
      else
        match fill ps slots with
        | (bound, []) => Ok bound
        | (_, lacking) => Raise (missing fname lacking)
        end
  end.

(** The value bound to parameter [p]. *)
Definition arg (bound : Dict.dict value) (p : string) : value :=
  match Dict.get bound p with
  | Some v => v
  | None => VNone
  end.

(** The call of [def fname(names..., *args, **kwargs)] with every parameter
    of [names] given by position: a keyword of one of these names is a second
    value for it.  The keywords are looked at in the order of the call. *)
Definition taken (fname : string) (names : list string) (kwargs : Dict.dict value)
  : result unit :=
  match find (fun kv => existsb (String.eqb (fst kv)) names) kwargs with
  | Some kv =>
      Raise (TypeError (fname +:+ "() got multiple values for argument '" +:+ fst kv +:+ "'"))
  | None => Ok tt
  end.

End Bind.

Definition from_result {S A} (r : result A) : St S A :=
  match r with
  | Ok a => mret a
  | Raise e => raise e
  end.

(** [self.name = v] *)
Definition setattr (self : instance) (name : string) (v : value) : instance :=
  Instance (o_addr self) (o_class self) (o_type self) (Dict.set (o_attrs self) name v).

(** ** Cell 18: the function [camel_to_snake_case] used as a metaclass *)

(** The loop that fills [snake_attrs]. *)
Definition camel_to_snake_case_attrs {V} (attrs : Dict.dict V) : Dict.dict V :=
  fold_left (fun snake_attrs item =>
               let attr_name := fst item in
               let attr_val := snd item in
               if negb (Str.startswith attr_name "__")
               then Dict.set snake_attrs (convert attr_name) attr_val
               else Dict.set snake_attrs attr_name attr_val)
            attrs [].

Definition camel_to_snake_case (name : string) (bases : list class)
    (attrs : Dict.dict member) (b : body) : H class :=
  print ("Calling the metaclass camel_to_snake_case to construct class: " +:+ name);;
  type_new MType name bases (camel_to_snake_case_attrs attrs) b.

(** ** Cell 21: [meta_function] *)

Definition meta_function (name : string) (bases : list class)
    (attrs : Dict.dict member) (b : body) : H class :=
  print "Calling meta_function";;
  type_new MType name bases attrs b.

(** ** Cell 30: the class [CamelToSnake] *)

Module CamelToSnake.

(** The loop of [__new__]; its test reads [name], the name of the class under
    construction. *)
Definition snake_attrs {V} (name : string) (attrs : Dict.dict V) : Dict.dict V :=
  fold_left (fun snake_attrs item =>
               let attr_name := fst item in
               let attr_val := snd item in
               if negb (Str.startswith name "__")
               then Dict.set snake_attrs (convert attr_name) attr_val
               else Dict.set snake_attrs attr_name attr_val)
            attrs [].

Definition __new__ (mcs : metaclass) (name : string) (bases : list class)
    (attrs : Dict.dict member) (b : body) : H class :=
  type_new mcs name bases (snake_attrs name attrs) b.

End CamelToSnake.

(** The loop of both metaclasses, for a renaming [f] of the keys and an
    initial dictionary [acc]. *)
Definition renamed {V} (f : string -> string) (attrs acc : Dict.dict V) : Dict.dict V :=
  fold_left (fun snake_attrs item => Dict.set snake_attrs (f (fst item)) (snd item))
            attrs acc.

(** A class body with a double-underscore name that holds a capital. *)
Definition hooked_namespace : Dict.dict member :=
  namespace "MyVector" [("__myHook__", Method "__myHook__" false)].

(** ** Cell 25: [MyMeta] *)

(** [mcs.__name__] *)
Definition metaclass_name (mcs : metaclass) : string :=
  match mcs with
  | MType => "type"
  | MABCMeta => "ABCMeta"
  | MMyMeta => "MyMeta"
  | MCamelToSnake => "CamelToSnake"
  | MSingleton => "Singleton"
  | MSnakeSingleton => "SnakeSingleton"
  end.

Definition str_metaclass (mcs : metaclass) : string :=
  match mcs with
  | MType => "<class 'type'>"
  | MABCMeta => "<class 'abc.ABCMeta'>"
  | MMyMeta => "<class '__main__.MyMeta'>"
  | MCamelToSnake => "<class '__main__.CamelToSnake'>"
  | MSingleton => "<class '__main__.Singleton'>"
  | MSnakeSingleton => "<class '__main__.SnakeSingleton'>"
  end.

Definition repr_bases (bases : list class) : string :=
  Text.tuple (map str_class bases).

Module MyMeta.

Definition __prepare__ (mcs : metaclass) (name : string) (bases : list class)
    (kwargs : Dict.dict value) : H (Dict.dict member) :=
  from_result (Bind.taken "__prepare__" ["mcs"; "name"; "bases"] kwargs);;
  print ("Meta.__prepare__(mcs=" +:+ str_metaclass mcs +:+ ", name=" +:+ name +:+
         ", bases=" +:+ repr_bases bases +:+ ", **" +:+ Text.repr_kwargs kwargs);;
  mret [].

Definition __new__ (mcs : metaclass) (name : string) (bases : list class)
    (attrs : Dict.dict member) (b : body) (kwargs : Dict.dict value) : H class :=
  from_result (Bind.taken "__new__" ["mcs"; "name"; "bases"; "attrs"] kwargs);;
  print ("MyMeta.__new__(mcs=" +:+ str_metaclass mcs +:+ ", name=" +:+ name +:+
         ", bases=" +:+ repr_bases bases +:+ ", attrs=" +:+
         Text.repr_names (Dict.keys attrs) +:+ ", **" +:+ Text.repr_kwargs kwargs);;
  type_new mcs name bases attrs b.

Definition __init__ (cls : class) (name : string) (bases : list class)
    (attrs : Dict.dict member) (kwargs : Dict.dict value) : H unit :=
  from_result (Bind.taken "__init__" ["cls"; "name"; "bases"; "attrs"] kwargs);;
  print ("MyMeta.__init__(cls=" +:+ str_class cls +:+ ", name=" +:+ name +:+
         ", bases=" +:+ repr_bases bases +:+ ", attrs=" +:+
         Text.repr_names (Dict.keys attrs) +:+ ", **" +:+ Text.repr_kwargs kwargs).

(** [def __call__(cls, *args, **kwargs)]: a keyword named [cls] does not
    bind, and the call raises before the body starts. *)
Definition __call__ (cls : class) (args : list value) (kwargs : Dict.dict value)
  : M instance :=
  from_result (Bind.taken "__call__" ["cls"] kwargs);;
  lift (print ("MyMeta.__call__(cls=" +:+ str_class cls +:+ ", args=" +:+
               Text.repr_args args +:+ ", kwargs=" +:+ Text.repr_kwargs kwargs));;
  self ← type_call cls args kwargs;
  lift (print ("MyMeta.__call__ return: " +:+ " " +:+ str_instance self));;
  mret self.

End MyMeta.

(** ** Cell 33: [Singleton] *)

Module Singleton.

(** [cls in cls._instances] *)
Definition instances_mem (cls : class) : M bool :=
  fun w => (Ok (bool_decide (is_Some (w_instances w !! c_id cls))), w).

(** [cls._instances[cls] = obj] *)
Definition instances_set (cls : class) (obj : instance) : M unit :=
  fun w => (Ok tt, World (w_heap w) (<[c_id cls := obj]> (w_instances w))).

(** [cls._instances[cls]] *)
Definition instances_get (cls : class) : M instance :=
  fun w =>
    match w_instances w !! c_id cls with
    | Some obj => (Ok obj, w)
    | None => (Raise (KeyError (str_class cls)), w)
    end.

(** What [cls not in x] raises when [x] is the value of the class attribute
    [m]: none of the values a class body of this model can hold is a
    container of classes. *)
Definition not_a_container (cls : class) (m : member) : exn :=
  match m with
  | Attr (VStr _) =>
      TypeError ("'in <string>' requires string as left operand, not " +:+
                 metaclass_name (c_meta cls))
  | Attr (VInt _) => TypeError "argument of type 'int' is not iterable"
  | Attr VNone => TypeError "argument of type 'NoneType' is not iterable"
  | Method _ _ => TypeError "argument of type 'function' is not iterable"
  | Slot => TypeError "argument of type 'getset_descriptor' is not iterable"
  | ClassCell => TypeError "argument of type 'cell' is not iterable"
  end.

(** [def __call__(cls, *args, **kwargs)].  A keyword named [cls] does not
    bind.  [cls._instances] is looked up on the class first: an attribute
    [_instances] of the class or of one of its bases hides the dictionary of
    [Singleton], and the test [cls not in cls._instances] raises on it.  The
    instance is stored when [super().__call__] has returned. *)
Definition __call__ (cls : class) (args : list value) (kwargs : Dict.dict value)
  : M instance :=
  from_result (Bind.taken "__call__" ["cls"] kwargs);;
  match getattr cls "_instances" with
  | Some m => raise (not_a_container cls m)
  | None =>
      cached ← instances_mem cls;
      (if negb cached
       then obj ← type_call cls args kwargs; instances_set cls obj
       else mret tt);;
      instances_get cls
  end.

End Singleton.

(** ** Class statements and calls of a class *)

(** The metaclass of [class name(bases, metaclass=explicit)]. *)
Definition metaclass_of (explicit : option metaclass) (bases : list class) : metaclass :=
  match explicit with
  | Some mcs => mcs
  | None =>
      match bases with
      | b :: _ => c_meta b
      | [] => MType
      end
  end.

(** [class name(bases, metaclass=mcs, kwargs): defs]: the method of each
    metaclass is the first one along [mcs.__mro__]: [SnakeSingleton] takes
    [__new__] from [CamelToSnake], [Singleton] takes it from [type]. *)
Definition class_stmt (explicit : option metaclass) (name : string)
    (bases : list class) (kwargs : Dict.dict value) (b : body) : H class :=
  let mcs := metaclass_of explicit bases in
  match mcs with
  | MType | MSingleton => type_new mcs name bases (b_namespace b) b
  | MABCMeta => ABCMeta_new mcs name bases (b_namespace b) b
  | MCamelToSnake | MSnakeSingleton => CamelToSnake.__new__ mcs name bases (b_namespace b) b
  | MMyMeta =>
      ns ← MyMeta.__prepare__ mcs name bases kwargs;
      let attrs := ns ++ b_namespace b in
      cls ← MyMeta.__new__ mcs name bases attrs b kwargs;
      MyMeta.__init__ cls name bases attrs kwargs;;
      mret cls
  end.

(** Calling [cls], that is [type(cls).__call__(cls, *args, **kwargs)]:
    [SnakeSingleton] takes [__call__] from [Singleton]. *)
Definition instantiate (cls : class) (args : list value) (kwargs : Dict.dict value)
  : M instance :=
  match c_meta cls with
  | MSingleton | MSnakeSingleton => Singleton.__call__ cls args kwargs
  | MMyMeta => MyMeta.__call__ cls args kwargs
  | MType | MABCMeta | MCamelToSnake => type_call cls args kwargs
  end.

(** The class takes [__call__] from [Singleton]. *)
Definition is_singleton (cls : class) : bool :=
  match c_meta cls with
  | MSingleton | MSnakeSingleton => true
  | _ => false
  end.

(** A script of calls of classes with arguments, one statement after the other,
    each inside its own [try]: the result of every call, and the world at the
    end. *)
Definition call : Type := class * list value * Dict.dict value.

Fixpoint run_calls (calls : list call) (w : world) : list (result instance) * world :=
  match calls with
  | [] => ([], w)
  | (cls, args, kwargs) :: calls' =>
      let (r, w1) := instantiate cls args kwargs w in
      let (rs, w2) := run_calls calls' w1 in
      (r :: rs, w2)
  end.

(** ** Cell 5: the abstract base class [Vehicle] and its subclass [Car] *)

Definition Vehicle_body : body :=
  Body (namespace "Vehicle" [("change_gear", Method "change_gear" true);
                             ("start_engine", Method "start_engine" true)])
       None None.

Module Car.

Definition __init__ : init_body := fun self args kwargs =>
  bound ← from_result (Bind.bind "__init__"
                         [("make", None); ("model", None); ("color", None)] args kwargs);
  let self := setattr self "make" (Bind.arg bound "make") in
  let self := setattr self "model" (Bind.arg bound "model") in
  let self := setattr self "color" (Bind.arg bound "color") in
  mret self.

End Car.

Definition Car_body : body :=
  Body (namespace "Car" [("__init__", Method "__init__" false)]) None (Some Car.__init__).

Definition cell5_classes : H (class * class) :=
  Vehicle ← class_stmt (Some MABCMeta) "Vehicle" [] [] Vehicle_body;
  Car ← class_stmt None "Car" [Vehicle] [] Car_body;
  mret (Vehicle, Car).

Definition Car_args : list value := [VStr "Toyota"; VStr "Avensis"; VStr "silver"].

Definition cell5_try (Car : class) : M unit :=
  try_except (car ← instantiate Car Car_args []; mret tt)
             (fun e => match e with
                       | TypeError _ => lift (print (exn_text e))
                       | _ => raise e
                       end).

Definition cell5 : M unit :=
  classes ← lift cell5_classes;
  cell5_try (snd classes).

(** The message cell 5 records. *)
Definition abstract_message : string :=
  "Can't instantiate abstract class Car with abstract methods change_gear, start_engine".

(** A subclass of [Vehicle] that overrides both abstract methods. *)
Definition Tram_body : body :=
  Body (namespace "Tram" [("change_gear", Method "change_gear" false);
                          ("start_engine", Method "start_engine" false)])
       None None.

(** ** Cells 19, 31 and 33: [MyVector] under the three metaclasses *)

Definition MyVector_body : body :=
  Body (namespace "MyVector"
          [("addToVector", Method "addToVector" false);
           ("subtractFromVector", Method "subtractFromVector" false);
           ("calculateDotProduct", Method "calculateDotProduct" false);
           ("calculateCrossProduct", Method "calculateCrossProduct" false);
           ("calculateTripleProduct", Method "calculateTripleProduct" false)])
       None None.

Definition print_public_names (object_names : list string) (cls : class) : H unit :=
  print (Text.repr_names (public_names object_names cls)).

Definition cell19 (object_names : list string) : H class :=
  MyVector ← camel_to_snake_case "MyVector" [] (b_namespace MyVector_body) MyVector_body;
  print_public_names object_names MyVector;;
  mret MyVector.

Definition cell31 (object_names : list string) : H class :=
  MyVector ← class_stmt (Some MCamelToSnake) "MyVector" [] [] MyVector_body;
  print_public_names object_names MyVector;;
  mret MyVector.

Definition str_bool (b : bool) : string := if b then "True" else "False".

Definition cell33_class (object_names : list string) : H class :=
  MyVector ← class_stmt (Some MSnakeSingleton) "MyVector" [] [] MyVector_body;
  print_public_names object_names MyVector;;
  mret MyVector.

Definition cell33 (object_names : list string) : M (instance * instance) :=
  MyVector ← lift (cell33_class object_names);
  v1 ← instantiate MyVector [] [];
  v2 ← instantiate MyVector [] [];
  lift (print (str_bool (is_ v1 v2)));;
  mret (v1, v2).

(** The line that cells 19, 31 and 33 record for the public names of
    [MyVector]. *)
Definition MyVector_names_line : string :=
  "['add_to_vector', 'calculate_cross_product', 'calculate_dot_product', 'calculate_triple_product', 'subtract_from_vector']".

(** ** Cells 21 and 22: [MyClass1] *)

Module MyClass1.

(** [def __new__(cls, *args, **kwargs)]: a keyword named [cls] does not
    bind. *)
Definition __new__ : new_body := fun cls args kwargs =>
  from_result (Bind.taken "__new__" ["cls"] kwargs);;
  lift (print ("MyClass1.__new__(" +:+ str_type cls +:+ ", *" +:+ Text.repr_args args +:+
               ", **" +:+ Text.repr_kwargs kwargs +:+ ")"));;
  lift (object_new cls [] []).

(** [def __init__(self, *args, **kwargs)]: a keyword named [self] does not
    bind. *)
Definition __init__ : init_body := fun self args kwargs =>
  from_result (Bind.taken "__init__" ["self"] kwargs);;
  lift (print ("MyClass1.__init__(" +:+ str_instance self +:+ ", *" +:+
               Text.repr_args args +:+ ", **" +:+ Text.repr_kwargs kwargs +:+ ")"));;
  mret self.

End MyClass1.

Definition MyClass1_body : body :=
  Body (namespace "MyClass1" [("__new__", Method "__new__" false);
                              ("__init__", Method "__init__" false);
                              ("__classcell__", ClassCell)])
       (Some MyClass1.__new__) (Some MyClass1.__init__).

Definition cell21 : H class :=
  meta_function "MyClass1" [] (b_namespace MyClass1_body) MyClass1_body.

Definition cell22 (MyClass1 : class) : M instance :=
  instantiate MyClass1 [VInt 1; VInt 2; VInt 3] [("x", VStr "ex"); ("y", VStr "why")].

(** The two lines cell 22 records; the second one shows the address of the
    instance. *)
Definition cell22_line1 : string :=
  "MyClass1.__new__(<class '__main__.MyClass1'>, *(1, 2, 3), **{'x': 'ex', 'y': 'why'})".

Definition cell22_line2 (address : string) : string :=
  "MyClass1.__init__(<__main__.MyClass1 object at " +:+ address +:+
  ">, *(1, 2, 3), **{'x': 'ex', 'y': 'why'})".

Definition cell22_recorded : list string :=
  [cell22_line1 +:+ Text.nl; cell22_line2 "0x00000169EED619E8" +:+ Text.nl].

(** ** Cells 26 and 27: [MyClass2] *)

Module MyClass2.

(** The parameters [s, a=0, b=0] of both methods. *)
Definition params : Bind.params :=
  [("s", None); ("a", Some (VInt 0)); ("b", Some (VInt 0))].

Definition __new__ : new_body := fun cls args kwargs =>
  bound ← from_result (Bind.bind "__new__" params args kwargs);
  lift (print ("MyClass2.__new__(cls=" +:+ str_type cls +:+
               ", s=" +:+ Text.str (Bind.arg bound "s") +:+
               ", a=" +:+ Text.str (Bind.arg bound "a") +:+
               ", b=" +:+ Text.str (Bind.arg bound "b") +:+ ")"));;
  lift (object_new cls [] []).

Definition __init__ : init_body := fun self args kwargs =>
  bound ← from_result (Bind.bind "__init__" params args kwargs);
  lift (print ("MyClass2.__init__(self=" +:+ str_instance self +:+
               ", s=" +:+ Text.str (Bind.arg bound "s") +:+
               ", a=" +:+ Text.str (Bind.arg bound "a") +:+
               ", b=" +:+ Text.str (Bind.arg bound "b") +:+ ")"));;
  let self := setattr self "a" (Bind.arg bound "a") in
  let self := setattr self "b" (Bind.arg bound "b") in
  mret self.

End MyClass2.

Definition MyClass2_body : body :=
  Body (namespace "MyClass2" [("__new__", Method "__new__" false);
                              ("__init__", Method "__init__" false);
                              ("__classcell__", ClassCell)])
       (Some MyClass2.__new__) (Some MyClass2.__init__).

Definition cell26 : H class :=
  MyClass2 ← class_stmt (Some MMyMeta) "MyClass2" [] [("extra", VInt 1)] MyClass2_body;
  print "Class MyClass created";;
  mret MyClass2.

Definition cell27 (MyClass2 : class) : M instance :=
  a ← instantiate MyClass2 [VStr "hello"] [("a", VInt 1); ("b", VInt 2)];
  lift (print ("MyClass instance created: " +:+ " " +:+ str_instance a));;
  mret a.

(** The names of [object] in the interpreter the notebook was run on. *)
Definition cpython36_object_names : list string :=
  ["__class__"; "__delattr__"; "__dir__"; "__doc__"; "__eq__"; "__format__";
   "__ge__"; "__getattribute__"; "__gt__"; "__hash__"; "__init__";
   "__init_subclass__"; "__le__"; "__lt__"; "__ne__"; "__new__"; "__reduce__";
   "__reduce_ex__"; "__repr__"; "__setattr__"; "__sizeof__"; "__str__";
   "__subclasshook__"].

Definition empty_heap (brk : N) : heap := Heap [] brk [].
Definition empty_world (brk : N) : world := World (empty_heap brk) ∅.

(** ** Constructors and [Singleton._instances] *)

(** The constructors of [cls] leave [Singleton._instances] as they find it. *)
Definition keeps_instances (cls : class) : Prop :=
  forall args kwargs w, w_instances (type_call cls args kwargs w).2 = w_instances w.

(** The classes called in a script all leave [Singleton._instances] alone in
    their constructors. *)
Definition quiet (calls : list call) : Prop :=
  forall k c a kw, calls !! k = Some (c, a, kw) -> keeps_instances c.

(** The constructors of the class may add to [Singleton._instances], as
    those do that call a class of that metaclass, but they neither remove nor
    replace an entry. *)
Definition keeps_entries (cls : class) : Prop :=
  forall args kwargs w (id : N) (obj : instance),
    w_instances w !! id = Some obj ->
    w_instances (type_call cls args kwargs w).2 !! id = Some obj.

(** No constructor of a class called in the script removes or replaces an
    entry of [Singleton._instances]. *)
Definition steady (calls : list call) : Prop :=
  forall k c a kw, calls !! k = Some (c, a, kw) -> keeps_entries c.

(** A computation that neither removes nor replaces an entry of
    [Singleton._instances]. *)
Definition holds {A} (m : M A) : Prop :=
  forall w (id : N) (obj : instance),
    w_instances w !! id = Some obj -> w_instances (m w).2 !! id = Some obj.

(** A computation that leaves [Singleton._instances] as it finds it. *)
Definition frame {A} (m : M A) : Prop :=
  forall w, w_instances (m w).2 = w_instances w.

(** From [h] to [h'] lines were printed, at most one object was allocated,
    and dispatches were logged: what the construction of one instance does. *)
Definition grown (h h' : heap) : Prop :=
  (exists lines, h_out h' = h_out h ++ lines)
  /\ (h_brk h' = h_brk h \/ h_brk h' = (h_brk h + 1)%N)
  /\ (exists events, h_log h' = h_log h ++ events).

(** From [w] to [w'] nothing has changed but for the construction of one
    instance: [Singleton._instances] is as it was. *)
Definition built (w w' : world) : Prop :=
  w_instances w' = w_instances w /\ grown (w_heap w) (w_heap w').

(** [bool(v)] *)
Definition truthy (v : value) : bool :=
  match v with
  | VNone => false
  | VInt z => negb (z =? 0)%Z
  | VStr s => negb (String.eqb s "")
  end.

(** A class whose [__init__] calls the class again:
[[
class Twice(metaclass=Singleton):
    def __init__(self, again=1):
        if again:
            print(Twice(0) is self)
]]
    [Twice id depth] is this class at the address [id], in an interpreter that
    lets [__init__] go [depth] calls of the class deep before it raises
    [RecursionError]. *)
Fixpoint Twice (id : N) (depth : nat) : class :=
  Class id MSingleton "Twice" "Twice" []
    (class_dict [] (namespace "Twice" [("__init__", Method "__init__" false)])) [] None
    (Some (fun self args kwargs =>
             bound ← from_result (Bind.bind "__init__" [("again", Some (VInt 1))] args kwargs);
             if truthy (Bind.arg bound "again") then
               match depth with
               | O => raise (RecursionError "maximum recursion depth exceeded")
               | S d =>
                   inner ← instantiate (Twice id d) [VInt 0] [];
                   lift (print (str_bool (is_ inner self)));;
                   mret self
               end
             else mret self)).

Definition Twice_body (id : N) (depth : nat) : body :=
  Body (namespace "Twice" [("__init__", Method "__init__" false)]) None
       (c_init (Twice id depth)).

(** A class with an attribute [_instances] of its own:
[[
class Hidden(metaclass=Singleton):
    _instances = 5
]] *)
Definition Hidden_body : body :=
  Body (namespace "Hidden" [("_instances", Attr (VInt 5))]) None None.


(** ** [convert] read as one pass *)

Module Snake.

(** The sets of the two patterns. *)
Definition capital (c : ascii) : bool := Re.cset_mem (Re.CRange "A"%char "Z"%char) c.
Definition small (c : ascii) : bool := Re.cset_mem (Re.CRange "a"%char "z"%char) c.
Definition small_or_digit (c : ascii) : bool :=
  Re.cset_mem (Re.CUnion (Re.CRange "a"%char "z"%char) (Re.CRange "0"%char "9"%char)) c.
Definition not_newline (c : ascii) : bool := Re.cset_mem Re.CDot c.

Definition is_small (next : option ascii) : bool :=
  match next with
  | Some n => small n
  | None => false
  end.

(** What the second substitution puts between [x] and the character after
    it. *)
Definition gap (x : ascii) (next : option ascii) : list ascii :=
  match next with
  | Some d => if small_or_digit x && capital d then ["_"%char] else []
  | None => []
  end.

(** The second substitution, character by character. *)
Fixpoint between (s : list ascii) : list ascii :=
  match s with
  | [] => []
  | x :: t => x :: gap x (head t) ++ between t
  end.

(** An underscore goes before [c], which follows [prev] and precedes [next]:
    [c] is a capital that follows a small letter or a digit, or that follows
    any character but a newline and precedes a small letter. *)
Definition breaks (prev : option ascii) (c : ascii) (next : option ascii) : bool :=
  capital c &&
  match prev with
  | None => false
  | Some p => small_or_digit p || (not_newline p && is_small next)
  end.

Fixpoint underscored (prev : option ascii) (s : list ascii) : list ascii :=
  match s with
  | [] => []
  | c :: t =>
      (if breaks prev c (head t) then ["_"%char] else []) ++ c :: underscored (Some c) t
  end.

(** The one-pass reading of [convert]. *)
Definition snake_case (s : string) : string :=
  Str.lower (Str.of_chars (underscored None (Str.chars s))).

(** A word [c :: r] with its first letter made a capital. *)
Definition capitalize (w : list ascii) : list ascii :=
  match w with
  | [] => []
  | c :: r => ascii_of_N (Str.code c - 32) :: r
  end.

(** [wordOneWordTwo...] without its first word: the words capitalized and
    put together. *)
Definition humps (ws : list (list ascii)) : list ascii := concat (map capitalize ws).

(** [sep.join(ws)] on lists of characters. *)
Fixpoint join_chars (sep : list ascii) (ws : list (list ascii)) : list ascii :=
  match ws with
  | [] => []
  | w :: ws' =>
      match ws' with
      | [] => w
      | _ :: _ => w ++ sep ++ join_chars sep ws'
      end
  end.

(** The characters of [s] that are not underscores. *)
Definition letters (s : string) : list ascii :=
  List.filter (fun c => negb (Ascii.eqb c "_"%char)) (Str.chars s).

(** A word of small letters, with at least [n] of them. *)
Definition word (n : nat) (w : list ascii) : Prop :=
  (n <= length w)%nat /\ Forall (fun c => small c = true) w.

End Snake.

(** The name under which [camel_to_snake_case] files the attribute [k]. *)
Definition snake_name (k : string) : string :=
  if Str.startswith k "__" then k else convert k.

(** The items of [attrs] with their keys renamed by [f], in place. *)
Definition rename_keys {V} (f : string -> string) (attrs : Dict.dict V) : Dict.dict V :=
  map (fun item => (f (fst item), snd item)) attrs.

(** [a.startswith('__')] negated, the test of the list comprehensions. *)
Definition public (a : string) : bool := negb (Str.startswith a "__").

(** The public keys [l] of a dictionary after [d[k] = v]. *)
Definition add_name (l : list string) (k : string) : list string :=
  if public k then (if existsb (String.eqb k) l then l else l ++ [k]) else l.

(** * Properties *)

Example convert_addToVector : convert "addToVector" = "add_to_vector".
Proof. vm_compute. reflexivity. Qed.

Example convert_HTTPResponse : convert "getHTTPResponseCode" = "get_http_response_code".
Proof. vm_compute. reflexivity. Qed.

Example convert_dunder : convert "__myHook__" = "__my_hook__".
Proof. vm_compute. reflexivity. Qed.

(** Cells 26 and 27 on a fresh heap whose allocator stands two places
    before 0x00000169EED7D860: the nine lines the notebook records. *)
Example cells26_27_recorded :
  h_out (w_heap ((c ← lift cell26; cell27 c) (empty_world 1554490316895)).2) =
  map (fun line => line +:+ Text.nl)
    ["Meta.__prepare__(mcs=<class '__main__.MyMeta'>, name=MyClass2, bases=(), **{'extra': 1}";
     "MyMeta.__new__(mcs=<class '__main__.MyMeta'>, name=MyClass2, bases=(), attrs=['__module__', '__qualname__', '__new__', '__init__', '__classcell__'], **{'extra': 1}";
     "MyMeta.__init__(cls=<class '__main__.MyClass2'>, name=MyClass2, bases=(), attrs=['__module__', '__qualname__', '__new__', '__init__', '__classcell__'], **{'extra': 1}";
     "Class MyClass created";
     "MyMeta.__call__(cls=<class '__main__.MyClass2'>, args=('hello',), kwargs={'a': 1, 'b': 2}";
     "MyClass2.__new__(cls=<class '__main__.MyClass2'>, s=hello, a=1, b=2)";
     "MyClass2.__init__(self=<__main__.MyClass2 object at 0x00000169EED7D860>, s=hello, a=1, b=2)";
     "MyMeta.__call__ return:  <__main__.MyClass2 object at 0x00000169EED7D860>";
     "MyClass instance created:  <__main__.MyClass2 object at 0x00000169EED7D860>"].
Proof. vm_compute. reflexivity. Qed.

(** Cell 33 on a fresh heap: the two recorded lines, one construction. *)
Example cell33_recorded :
  let w := (cell33 cpython36_object_names (empty_world 100)).2 in
  h_out (w_heap w) = [MyVector_names_line +:+ Text.nl; "True" +:+ Text.nl]
  /\ h_log (w_heap w) = [EvNew 100; EvInit 100].
Proof. vm_compute. split; reflexivity. Qed.

(** Without [Singleton], [MyVector(7)] is refused by [object.__new__]. *)
Example MyVector_takes_no_arguments :
  exists MyVector h1,
    cell31 cpython36_object_names (empty_heap 100) = (Ok MyVector, h1)
    /\ (instantiate MyVector [VInt 7] [] (World h1 ∅)).1 =
       Raise (TypeError "object() takes no parameters").
Proof. do 2 eexists. split; [reflexivity|]. vm_compute. reflexivity. Qed.

Example repr_examples :
  Text.repr_args [VInt 1; VInt 2; VInt 3] = "(1, 2, 3)"
  /\ Text.repr_args [VStr "hello"] = "('hello',)"
  /\ Text.repr_kwargs [("x", VStr "ex"); ("y", VStr "why")] = "{'x': 'ex', 'y': 'why'}"
  /\ Text.pointer 1554490202600 = "0x00000169EED619E8".
Proof. vm_compute. repeat split. Qed.

(** ** [convert] *)

Section Convert.

Local Open Scope N_scope.

Lemma is_upper_lower_char (c : ascii) : Str.is_upper (Str.lower_char c) = false.
Proof.
  destruct c as [[] [] [] [] [] [] [] []]; vm_compute; reflexivity.
Qed.

Lemma lower_char_fixed (c : ascii) : Str.is_upper c = false -> Str.lower_char c = c.
Proof. unfold Str.lower_char. intros ->. reflexivity. Qed.

Lemma capital_is_upper (c : ascii) :
  Re.cset_mem (Re.CRange "A"%char "Z"%char) c = true -> Str.is_upper c = true.
Proof.
  destruct c as [[] [] [] [] [] [] [] []]; vm_compute; congruence.
Qed.

Lemma not_upper_not_capital (c : ascii) :
  Str.is_upper c = false -> Re.cset_mem (Re.CRange "A"%char "Z"%char) c = false.
Proof.
  intros Hc. destruct (Re.cset_mem _ c) eqn:E; [|reflexivity].
  apply capital_is_upper in E. congruence.
Qed.

Local Close Scope N_scope.

(** Both patterns need a capital as their second character. *)
Lemma pattern1_needs_capital (s : list ascii) : Str.plain s -> Re.matches pattern1 s = [].
Proof.
  intros Hs. destruct s as [|c [|d t]]; simpl.
  - reflexivity.
  - destruct (negb _); reflexivity.
  - inversion Hs as [|? ? _ Ht]; subst. inversion Ht as [|? ? Hd _]; subst.
    pose proof (not_upper_not_capital d Hd) as E. simpl in E.
    destruct (negb _); simpl; [rewrite E|]; reflexivity.
Qed.

Lemma pattern2_needs_capital (s : list ascii) : Str.plain s -> Re.matches pattern2 s = [].
Proof.
  intros Hs. destruct s as [|c [|d t]]; simpl.
  - reflexivity.
  - destruct (_ || _); reflexivity.
  - inversion Hs as [|? ? _ Ht]; subst. inversion Ht as [|? ? Hd _]; subst.
    pose proof (not_upper_not_capital d Hd) as E. simpl in E.
    destruct (_ || _); simpl; [rewrite E|]; reflexivity.
Qed.

(** A match consumes a prefix of the input that is not empty: the scan of
    [re.sub] always moves on. *)
Lemma runs_prefix (cs : Re.cset) (s : list ascii) (p : list ascii * list ascii) :
  In p (Re.runs cs s) -> s = fst p ++ snd p /\ fst p <> [].
Proof.
  revert p. induction s as [|c t IH]; intros p; simpl; [intros []|].
  destruct (Re.cset_mem cs c); [|intros []].
  rewrite in_app_iff, in_map_iff. intros [(q & <- & Hq)|[<-|[]]]; simpl.
  - destruct (IH q Hq) as [-> _]. split; [reflexivity | discriminate].
  - split; [reflexivity | discriminate].
Qed.

Lemma matches_prefix (r : Re.regex) (s : list ascii) (m : Re.mres) :
  In m (Re.matches r s) -> s = Re.m_text m ++ Re.m_rest m /\ Re.m_text m <> [].
Proof.
  revert s m. induction r as [cs|cs|r1 IH1 r2 IH2|r IH]; intros s m; simpl.
  - destruct s as [|c t]; [intros []|]. destruct (Re.cset_mem cs c); [|intros []].
    intros [<-|[]]. simpl. split; [reflexivity | discriminate].
  - rewrite in_map_iff. intros (p & <- & Hp). simpl. apply (runs_prefix cs), Hp.
  - rewrite in_flat_map. intros (a & Ha & Hm). rewrite in_map_iff in Hm.
    destruct Hm as (b & <- & Hb). simpl.
    destruct (IH1 _ _ Ha) as [-> Hne]. destruct (IH2 _ _ Hb) as [E _].
    split.
    + rewrite <- app_assoc. f_equal. exact E.
    + destruct (Re.m_text a); [congruence | discriminate].
  - rewrite in_map_iff. intros (a & <- & Ha). simpl. apply IH, Ha.
Qed.

Lemma span_empty (cs : Re.cset) (s rest : list ascii) :
  Re.span cs s = ([], rest) -> rest = s.
Proof.
  destruct s as [|c t]; simpl; [congruence|].
  destruct (Re.cset_mem cs c); [|congruence].
  destruct (Re.span cs t). discriminate.
Qed.

(** The first way of a greedy [+] takes the longest run. *)
Lemma runs_longest_first (cs : Re.cset) (s : list ascii) :
  head (Re.runs cs s) =
  match Re.span cs s with
  | ([], _) => None
  | (run, rest) => Some (run, rest)
  end.
Proof.
  induction s as [|c t IH]; simpl; [reflexivity|].
  destruct (Re.cset_mem cs c); [|reflexivity].
  destruct (Re.span cs t) as [run rest] eqn:E. destruct (Re.runs cs t) as [|p ps]; simpl in *.
  - destruct run; [|discriminate IH]. rewrite (span_empty _ _ _ E). reflexivity.
  - destruct run as [|x run]; [discriminate IH|]. injection IH as ->. reflexivity.
Qed.

(** What the two patterns match at a position, spelled out. *)
Lemma pattern1_match (c d : ascii) (s : list ascii) :
  Re.match_at pattern1 (c :: d :: s) =
  if negb (Ascii.eqb c "010"%char) && Re.cset_mem (Re.CRange "A"%char "Z"%char) d then
    match Re.span (Re.CRange "a"%char "z"%char) s with
    | ([], _) => None
    | (run, rest) => Some (Re.MRes (c :: d :: run) [[c]; d :: run] rest)
    end
  else None.
Proof.
  unfold Re.match_at, pattern1.
  cbn [Re.matches Re.cset_mem flat_map map app Re.m_text Re.m_groups Re.m_rest].
  destruct (negb (Ascii.eqb c "010"%char)); [|reflexivity].
  cbn [flat_map map app Re.m_text Re.m_groups Re.m_rest andb].
  destruct (_ && _)%bool; [|reflexivity].
  cbn [flat_map map app Re.m_text Re.m_groups Re.m_rest].
  rewrite !app_nil_r, !map_map. cbn [Re.m_text Re.m_groups Re.m_rest app].
  pose proof (runs_longest_first (Re.CRange "a"%char "z"%char) s) as Hr.
  destruct (Re.runs (Re.CRange "a"%char "z"%char) s) as [|p ps];
    destruct (Re.span (Re.CRange "a"%char "z"%char) s) as [[|x run] rest];
    simpl in Hr; try discriminate Hr; [reflexivity|].
  injection Hr as ->. reflexivity.
Qed.

Lemma pattern2_match (c d : ascii) (s : list ascii) :
  Re.match_at pattern2 (c :: d :: s) =
  if Re.cset_mem (Re.CUnion (Re.CRange "a"%char "z"%char) (Re.CRange "0"%char "9"%char)) c
     && Re.cset_mem (Re.CRange "A"%char "Z"%char) d
  then Some (Re.MRes [c; d] [[c]; [d]] s)
  else None.
Proof.
  unfold Re.match_at, pattern2.
  cbn [Re.matches flat_map map app Re.m_text Re.m_groups Re.m_rest].
  destruct (Re.cset_mem (Re.CUnion _ _) c); [|reflexivity].
  cbn [flat_map map app Re.m_text Re.m_groups Re.m_rest andb].
  destruct (Re.cset_mem (Re.CRange _ _) d); reflexivity.
Qed.

(** Where the pattern matches nowhere, [re.sub] copies its input. *)
Lemma sub_scan_copies (r : Re.regex) (tpl : list Re.titem) (P : ascii -> Prop) :
  (forall s, Forall P s -> Re.matches r s = []) ->
  forall s, Forall P s -> Re.sub_scan r tpl s 0 = s.
Proof.
  intros Hr s. induction s as [|c t IH]; intros Hs; simpl.
  - reflexivity.
  - unfold Re.match_at. rewrite (Hr _ Hs). simpl.
    inversion Hs; subst. rewrite IH by assumption. reflexivity.
Qed.

Lemma map_lower_plain (s : list ascii) : Str.plain s -> map Str.lower_char s = s.
Proof.
  unfold Str.plain. induction 1 as [|c t Hc _ IH]; simpl; [reflexivity|].
  rewrite lower_char_fixed, IH by assumption. reflexivity.
Qed.

Lemma lower_is_plain (s : string) : Str.upper_free (Str.lower s).
Proof.
  unfold Str.upper_free, Str.plain, Str.lower. rewrite list_ascii_of_string_of_list_ascii.
  induction (Str.chars s) as [|c t IH]; simpl; constructor.
  - apply is_upper_lower_char.
  - exact IH.
Qed.

Lemma convert_plain (s : string) : Str.upper_free s -> convert s = s.
Proof.
  unfold Str.upper_free, convert, Re.sub, Str.lower. intros Hs.
  rewrite (sub_scan_copies _ _ _ pattern1_needs_capital _ Hs).
  rewrite string_of_list_ascii_of_string.
  rewrite (sub_scan_copies _ _ _ pattern2_needs_capital _ Hs).
  rewrite string_of_list_ascii_of_string.
  rewrite (map_lower_plain _ Hs).
  apply string_of_list_ascii_of_string.
Qed.

Lemma convert_is_plain (s : string) : Str.upper_free (convert s).
Proof. unfold convert. apply lower_is_plain. Qed.

End Convert.

(** ** [convert] on names of any code points *)

Section AnyCodePoints.

Local Open Scope N_scope.

Variable db : Unicode.casing.
Hypothesis Hdb : Unicode.well_formed db = true.

Lemma capital_listed (c : N) : Unicode.capital c = true -> In c Unicode.capitals.
Proof.
  unfold Unicode.capital. rewrite andb_true_iff, !N.leb_le. intros [H1 H2].
  unfold Unicode.capitals. cbn [In]. lia.
Qed.

Lemma assoc_row (c : N) (l : list N) :
  Unicode.assoc (Unicode.full_lower db) c = Some l -> In (c, l) (Unicode.full_lower db).
Proof.
  unfold Unicode.assoc.
  destruct (find _ (Unicode.full_lower db)) as [[c' l']|] eqn:E; [|discriminate].
  intros [= <-]. apply find_some in E as [Hin Hc]. cbn [fst] in Hc.
  apply N.eqb_eq in Hc. subst c'. exact Hin.
Qed.

Lemma row_settled (c : N) (l : list N) :
  Unicode.assoc (Unicode.full_lower db) c = Some l ->
  Forall (fun d => Unicode.settled db d = true) l /\ head l <> Some c /\ l <> [].
Proof.
  intros E. apply assoc_row in E.
  unfold Unicode.well_formed in Hdb. rewrite !andb_true_iff in Hdb.
  destruct Hdb as [[[Hrows _] _] _]. rewrite forallb_forall in Hrows.
  specialize (Hrows _ E). cbn [fst snd] in Hrows. apply andb_true_iff in Hrows as [Hhead Hall].
  split; [apply List.Forall_forall; rewrite forallb_forall in Hall; exact Hall|].
  destruct l as [|d l]; [discriminate Hhead|]. split; [|discriminate].
  cbn [head]. intros [= ->]. rewrite N.eqb_refl in Hhead. discriminate Hhead.
Qed.

Lemma capital_mapped (c : N) :
  Unicode.capital c = true -> Unicode.assoc (Unicode.full_lower db) c <> None.
Proof.
  intros Hc. apply capital_listed in Hc.
  unfold Unicode.well_formed in Hdb. rewrite !andb_true_iff in Hdb.
  destruct Hdb as [[[_ Hcaps] _] _]. rewrite forallb_forall in Hcaps.
  specialize (Hcaps _ Hc). destruct (Unicode.assoc _ c); [discriminate | discriminate Hcaps].
Qed.

Lemma sigmas_settled :
  Unicode.settled db 0x3C2 = true /\ Unicode.settled db 0x3C3 = true.
Proof.
  unfold Unicode.well_formed in Hdb. rewrite !andb_true_iff in Hdb. tauto.
Qed.

Lemma settled_spec (d : N) :
  Unicode.settled db d = true <->
  d <> 0x3A3 /\ Unicode.capital d = false /\ Unicode.assoc (Unicode.full_lower db) d = None.
Proof.
  unfold Unicode.settled. rewrite !andb_true_iff, !negb_true_iff, N.eqb_neq.
  destruct (Unicode.assoc _ d); intuition congruence.
Qed.

Lemma unmapped_settled (c : N) :
  c <> 0x3A3 -> Unicode.assoc (Unicode.full_lower db) c = None -> Unicode.settled db c = true.
Proof.
  intros Hc E. apply settled_spec. split; [exact Hc|]. split; [|exact E].
  destruct (Unicode.capital c) eqn:Hcap; [|reflexivity].
  exfalso. apply (capital_mapped c Hcap E).
Qed.

(** What [str.lower] puts out is settled. *)
Lemma lower_at_settled (before : list N) (c : N) (after : list N) :
  Forall (fun d => Unicode.settled db d = true) (Unicode.lower_at db before c after).
Proof.
  unfold Unicode.lower_at, Unicode.lower_full. destruct (N.eqb_spec c 0x3A3) as [->|Hc].
  - constructor; [|constructor].
    destruct (Unicode.final_sigma db before after); apply sigmas_settled.
  - destruct (Unicode.assoc _ c) as [l|] eqn:E.
    + apply (row_settled c l E).
    + constructor; [|constructor]. apply unmapped_settled; assumption.
Qed.

Lemma lower_from_settled (before : list N) (s : Unicode.str) :
  Forall (fun d => Unicode.settled db d = true) (Unicode.lower_from db before s).
Proof.
  revert before. induction s as [|c t IH]; intros before; cbn [Unicode.lower_from].
  - constructor.
  - apply List.Forall_app. split; [apply lower_at_settled | apply IH].
Qed.

(** [str.lower] keeps a text of settled code points, and only such a text. *)
Lemma lower_from_fixed (before : list N) (s : Unicode.str) :
  Forall (fun d => Unicode.settled db d = true) s -> Unicode.lower_from db before s = s.
Proof.
  intros Hs. revert before. induction Hs as [|c t Hc _ IH]; intros before;
    cbn [Unicode.lower_from]; [reflexivity|].
  apply settled_spec in Hc as (Hne & _ & E).
  unfold Unicode.lower_at, Unicode.lower_full.
  apply N.eqb_neq in Hne. rewrite Hne, E, IH. reflexivity.
Qed.

Lemma fixed_settled (before : list N) (s : Unicode.str) :
  Unicode.lower_from db before s = s -> Forall (fun d => Unicode.settled db d = true) s.
Proof.
  revert before. induction s as [|c t IH]; intros before; cbn [Unicode.lower_from];
    [constructor|].
  unfold Unicode.lower_at, Unicode.lower_full. destruct (N.eqb_spec c 0x3A3) as [->|Hc].
  - destruct (Unicode.final_sigma db before t); discriminate.
  - destruct (Unicode.assoc _ c) as [l|] eqn:E.
    + destruct (row_settled c l E) as (_ & Hhead & Hne).
      destruct l as [|d l]; [contradiction|]. cbn [head] in Hhead.
      intros [= -> _]. contradiction.
    + intros [= Ht]. constructor; [apply unmapped_settled; assumption | apply (IH _ Ht)].
Qed.

Lemma settled_not_capital (s : Unicode.str) :
  Forall (fun d => Unicode.settled db d = true) s ->
  Forall (fun d => Unicode.capital d = false) s.
Proof. apply List.Forall_impl. intros d Hd. apply settled_spec in Hd. tauto. Qed.

End AnyCodePoints.

Section AnyCodePointsSub.

Local Open Scope N_scope.

Let plain_text (s : Unicode.str) : Prop := Forall (fun d => Unicode.capital d = false) s.

(** Both patterns need one of A to Z as their second code point. *)
Lemma pattern1_needs_capital_any (s : Unicode.str) :
  plain_text s -> Unicode.matches pattern1 s = [].
Proof.
  intros Hs. destruct s as [|c [|d t]]; cbn [Unicode.matches pattern1 flat_map map app].
  - reflexivity.
  - destruct (Unicode.cset_mem Re.CDot c); reflexivity.
  - inversion Hs as [|? ? _ Ht]; subst. inversion Ht as [|? ? Hd _]; subst.
    destruct (Unicode.cset_mem Re.CDot c);
      cbn [Unicode.matches flat_map map app Unicode.m_rest Unicode.m_text Unicode.m_groups];
      [|reflexivity].
    change (Unicode.cset_mem (Re.CRange "A"%char "Z"%char) d) with (Unicode.capital d).
    rewrite Hd. reflexivity.
Qed.

Lemma pattern2_needs_capital_any (s : Unicode.str) :
  plain_text s -> Unicode.matches pattern2 s = [].
Proof.
  intros Hs. destruct s as [|c [|d t]]; cbn [Unicode.matches pattern2 flat_map map app].
  - reflexivity.
  - destruct (Unicode.cset_mem _ c); reflexivity.
  - inversion Hs as [|? ? _ Ht]; subst. inversion Ht as [|? ? Hd _]; subst.
    destruct (Unicode.cset_mem _ c);
      cbn [Unicode.matches flat_map map app Unicode.m_rest Unicode.m_text Unicode.m_groups];
      [|reflexivity].
    change (Unicode.cset_mem (Re.CRange "A"%char "Z"%char) d) with (Unicode.capital d).
    rewrite Hd. reflexivity.
Qed.

Lemma sub_copies_any (r : Re.regex) (tpl : list Re.titem) :
  (forall s, plain_text s -> Unicode.matches r s = []) ->
  forall s, plain_text s -> Unicode.sub r tpl s = s.
Proof.
  intros Hr s. unfold Unicode.sub.
  induction s as [|c t IH]; intros Hs; cbn [Unicode.sub_scan]; [reflexivity|].
  unfold Unicode.match_at. rewrite (Hr _ Hs). cbn [head].
  inversion Hs; subst. rewrite IH by assumption. reflexivity.
Qed.

(** [convert] keeps a name of settled code points. *)
Lemma convert_settled (db : Unicode.casing) (s : Unicode.str) :
  Forall (fun d => Unicode.settled db d = true) s -> Unicode.convert db s = s.
Proof.
  intros Hs. pose proof (settled_not_capital db s Hs) as Hp.
  unfold Unicode.convert. cbv zeta.
  rewrite (sub_copies_any _ _ pattern1_needs_capital_any s Hp).
  rewrite (sub_copies_any _ _ pattern2_needs_capital_any s Hp).
  apply lower_from_fixed, Hs.
Qed.

End AnyCodePointsSub.

(** C9, as the code has it, on names of any code points and for every
    character database in which lower case is final ([Unicode.well_formed]):
    [convert] is idempotent; it is the identity on every name that
    [str.lower] leaves as it is; and [str.lower] leaves every result of
    [convert] as it is, none of which holds one of the letters A to Z. *)
Theorem convert_idempotent (db : Unicode.casing) :
  Unicode.well_formed db = true ->
  (forall s, Unicode.convert db (Unicode.convert db s) = Unicode.convert db s)
  /\ (forall s, Unicode.lower db s = s -> Unicode.convert db s = s)
  /\ (forall s, Unicode.lower db (Unicode.convert db s) = Unicode.convert db s
                /\ Forall (fun c => Unicode.capital c = false) (Unicode.convert db s)).
Proof.
  intros Hdb.
  assert (Hout : forall s, Forall (fun d => Unicode.settled db d = true) (Unicode.convert db s)).
  { intros s. apply lower_from_settled, Hdb. }
  split; [|split].
  - intros s. apply convert_settled, Hout.
  - intros s Hs. apply convert_settled, (fixed_settled db Hdb [] s Hs).
  - intros s. split.
    + apply lower_from_fixed, Hout.
    + apply (settled_not_capital db), Hout.
Qed.

Lemma convert_idempotent_witness :
  Unicode.well_formed Unicode.ucd = true
  /\ Unicode.lower Unicode.ucd (Unicode.code_points "add_to_vector") =
     Unicode.code_points "add_to_vector"
  /\ Unicode.convert Unicode.ucd (Unicode.code_points "add_to_vector") =
     Unicode.code_points "add_to_vector".
Proof.
  assert (Hdb : Unicode.well_formed Unicode.ucd = true) by (vm_compute; reflexivity).
  assert (Hs : Unicode.lower Unicode.ucd (Unicode.code_points "add_to_vector") =
               Unicode.code_points "add_to_vector") by (vm_compute; reflexivity).
  split; [exact Hdb|]. split; [exact Hs|].
  exact (proj1 (proj2 (convert_idempotent Unicode.ucd Hdb)) _ Hs).
Defined.

(** C9 as stated fails on names with letters beyond Latin-1.  U+01C5 is not
    an uppercase letter (it is a titlecase one), so the name of that one
    letter holds no uppercase letter, and yet [convert] changes it, to
    U+01C6.  U+03D2 is an uppercase letter without a lower case: [convert]
    leaves it, so a result of [convert] holds an uppercase letter. *)
Lemma convert_and_uppercase_letters :
  (existsb (Unicode.uppercase Unicode.ucd) [0x1C5%N] = false
   /\ Unicode.convert Unicode.ucd [0x1C5%N] = [0x1C6%N]
   /\ Unicode.convert Unicode.ucd [0x1C5%N] <> [0x1C5%N])
  /\ (Unicode.convert Unicode.ucd [0x3D2%N] = [0x3D2%N]
      /\ existsb (Unicode.uppercase Unicode.ucd) (Unicode.convert Unicode.ucd [0x3D2%N]) = true).
Proof.
  split; [split; [|split]|split]; try (vm_compute; reflexivity).
  vm_compute. discriminate.
Qed.

(** ** Names of code points below 256

    On the code points of a [string] the functions over code points compute
    what the 8-bit embedding computes. *)

Section Latin1.

Local Open Scope N_scope.

Lemma code_inj (c d : ascii) : Str.code c = Str.code d -> c = d.
Proof.
  unfold Str.code. intros E. apply (f_equal ascii_of_N) in E.
  rewrite !ascii_N_embedding in E. exact E.
Qed.

Lemma cset_mem_code (cs : Re.cset) (c : ascii) :
  Unicode.cset_mem cs (Str.code c) = Re.cset_mem cs c.
Proof.
  induction cs as [|lo hi|a IHa b IHb]; cbn [Unicode.cset_mem Re.cset_mem].
  - f_equal. destruct (Ascii.eqb_spec c "010"%char) as [->|Hne]; [reflexivity|].
    apply N.eqb_neq. intros E. apply Hne, code_inj. exact E.
  - reflexivity.
  - rewrite IHa, IHb. reflexivity.
Qed.

Lemma runs_code (cs : Re.cset) (s : list ascii) :
  Unicode.runs cs (map Str.code s) =
  map (fun p => (map Str.code (fst p), map Str.code (snd p))) (Re.runs cs s).
Proof.
  induction s as [|c t IH]; cbn [map Unicode.runs Re.runs]; [reflexivity|].
  rewrite cset_mem_code. destruct (Re.cset_mem cs c); [|reflexivity].
  rewrite IH, map_app, !map_map. reflexivity.
Qed.

Lemma matches_code (r : Re.regex) (s : list ascii) :
  Unicode.matches r (map Str.code s) = map Unicode.of_match (Re.matches r s).
Proof.
  revert s. induction r as [cs|cs|r1 IH1 r2 IH2|r IH]; intros s;
    cbn [Unicode.matches Re.matches].
  - destruct s as [|c t]; [reflexivity|]. cbn [map]. rewrite cset_mem_code.
    destruct (Re.cset_mem cs c); reflexivity.
  - rewrite runs_code, !map_map. reflexivity.
  - rewrite IH1. generalize (Re.matches r1 s) as l.
    induction l as [|a l IHl]; cbn [map flat_map]; [reflexivity|].
    rewrite map_app, IHl. f_equal.
    cbn [Unicode.of_match Unicode.m_rest Unicode.m_text Unicode.m_groups].
    rewrite IH2, !map_map. apply map_ext. intros b.
    unfold Unicode.of_match.
    cbn [Unicode.m_rest Unicode.m_text Unicode.m_groups Re.m_rest Re.m_text Re.m_groups].
    rewrite !map_app. reflexivity.
  - rewrite IH, !map_map. apply map_ext. intros a. reflexivity.
Qed.

Lemma match_at_code (r : Re.regex) (s : list ascii) :
  Unicode.match_at r (map Str.code s) = option_map Unicode.of_match (Re.match_at r s).
Proof.
  unfold Unicode.match_at, Re.match_at. rewrite matches_code.
  destruct (Re.matches r s); reflexivity.
Qed.

Lemma expand_code (tpl : list Re.titem) (m : Re.mres) :
  Unicode.expand tpl (Unicode.of_match m) = map Str.code (Re.expand tpl m).
Proof.
  unfold Unicode.expand, Re.expand.
  induction tpl as [|[c|n] tpl IH]; cbn [flat_map]; [reflexivity| |].
  - rewrite IH. reflexivity.
  - rewrite map_app, IH. f_equal. cbn [Unicode.of_match Unicode.m_groups].
    change (@nil N) with (map Str.code []). apply map_nth.
Qed.

Lemma sub_scan_code (r : Re.regex) (tpl : list Re.titem) (s : list ascii) (skip : nat) :
  Unicode.sub_scan r tpl (map Str.code s) skip = map Str.code (Re.sub_scan r tpl s skip).
Proof.
  revert skip. induction s as [|c t IH]; intros skip; [reflexivity|].
  cbn [map Unicode.sub_scan Re.sub_scan]. destruct skip as [|k]; [|apply IH].
  change (Str.code c :: map Str.code t) with (map Str.code (c :: t)).
  rewrite match_at_code. destruct (Re.match_at r (c :: t)) as [m|]; cbn [option_map].
  - rewrite expand_code, IH, map_app. cbn [Unicode.of_match Unicode.m_text].
    rewrite length_map. reflexivity.
  - rewrite IH. reflexivity.
Qed.

Lemma lower_at_code (before : list N) (c : ascii) (after : list N) :
  Unicode.lower_at Unicode.ucd before (Str.code c) after = [Str.code (Str.lower_char c)].
Proof. destruct c as [[] [] [] [] [] [] [] []]; vm_compute; reflexivity. Qed.

Lemma lower_from_code (before : list N) (s : list ascii) :
  Unicode.lower_from Unicode.ucd before (map Str.code s) =
  map Str.code (map Str.lower_char s).
Proof.
  revert before. induction s as [|c t IH]; intros before; [reflexivity|].
  cbn [map Unicode.lower_from]. rewrite lower_at_code, IH. reflexivity.
Qed.

Lemma lower_code (s : string) :
  Unicode.lower Unicode.ucd (Unicode.code_points s) = Unicode.code_points (Str.lower s).
Proof.
  unfold Unicode.lower, Unicode.code_points, Str.lower.
  rewrite lower_from_code, list_ascii_of_string_of_list_ascii. reflexivity.
Qed.

Lemma sub_code (r : Re.regex) (tpl : list Re.titem) (s : string) :
  Unicode.sub r tpl (Unicode.code_points s) = Unicode.code_points (Re.sub r tpl s).
Proof.
  unfold Unicode.sub, Unicode.code_points, Re.sub.
  rewrite sub_scan_code, list_ascii_of_string_of_list_ascii. reflexivity.
Qed.

Lemma convert_code (s : string) :
  Unicode.convert Unicode.ucd (Unicode.code_points s) = Unicode.code_points (convert s).
Proof.
  unfold Unicode.convert, convert. cbv zeta. rewrite !sub_code. apply lower_code.
Qed.

Lemma uppercase_code (c : ascii) :
  Unicode.uppercase Unicode.ucd (Str.code c) = Str.is_upper c.
Proof. destruct c as [[] [] [] [] [] [] [] []]; vm_compute; reflexivity. Qed.

End Latin1.

(** X22: on a name of code points below 256, [re.sub], [str.lower] and so
    [convert] work code point by code point and give a name of code points
    below 256 again: what they compute over code points of any size is,
    there, what the 8-bit embedding computes.  In particular [str.lower]
    moves the capitals A to Z and U+00C0 to U+00DE (but U+00D7) up by 32 and
    keeps every other code point, whatever stands around it, and these
    capitals are the code points below 256 that [str.isupper] holds of. *)
Theorem convert_on_latin1 :
  (forall s : string,
      Unicode.convert Unicode.ucd (Unicode.code_points s) = Unicode.code_points (convert s))
  /\ (forall s : string,
        Unicode.lower Unicode.ucd (Unicode.code_points s) =
        Unicode.code_points (Str.lower s))
  /\ (forall (r : Re.regex) (tpl : list Re.titem) (s : string),
        Unicode.sub r tpl (Unicode.code_points s) = Unicode.code_points (Re.sub r tpl s))
  /\ (forall c : ascii, Unicode.uppercase Unicode.ucd (Str.code c) = Str.is_upper c).
Proof.
  split; [exact convert_code|]. split; [exact lower_code|].
  split; [exact sub_code | exact uppercase_code].
Qed.

(** X23: on names of code points below 256, C9 holds with the uppercase
    letters that [str.isupper] knows: [convert] is idempotent, it is the
    identity on a name without uppercase letters, and no result of it holds
    an uppercase letter. *)
Theorem convert_idempotent_latin1 :
  (forall s, convert (convert s) = convert s)
  /\ (forall s, Str.upper_free s -> convert s = s)
  /\ (forall s, Str.upper_free (convert s)).
Proof.
  split; [|split].
  - intros s. apply convert_plain, convert_is_plain.
  - exact convert_plain.
  - exact convert_is_plain.
Qed.

(** ** Sorting and filtering names *)

Section Sorting.

Lemma compare_le_trans (a b c : string) :
  String.compare a b <> Gt -> String.compare b c <> Gt -> String.compare a c <> Gt.
Proof.
  revert b c. induction a as [|x a IH]; intros [|y b] [|z c]; simpl; try congruence.
  unfold Ascii.compare.
  destruct (N.compare_spec (N_of_ascii x) (N_of_ascii y)) as [Exy|Lxy|Gxy];
    destruct (N.compare_spec (N_of_ascii y) (N_of_ascii z)) as [Eyz|Lyz|Gyz];
    try congruence; intros Hab Hbc.
  - rewrite Exy, Eyz, N.compare_refl. eapply IH; eassumption.
  - rewrite Exy. apply N.compare_lt_iff in Lyz. rewrite Lyz. discriminate.
  - rewrite <- Eyz. apply N.compare_lt_iff in Lxy. rewrite Lxy. discriminate.
  - assert (L : (N_of_ascii x < N_of_ascii z)%N) by lia.
    apply N.compare_lt_iff in L. rewrite L. discriminate.
Qed.

Lemma leb_trans (a b c : string) :
  String.leb a b = true -> String.leb b c = true -> String.leb a c = true.
Proof.
  unfold String.leb. intros Hab Hbc.
  assert (H : String.compare a c <> Gt).
  { apply (compare_le_trans a b c).
    - destruct (String.compare a b); congruence.
    - destruct (String.compare b c); congruence. }
  destruct (String.compare a c); congruence.
Qed.

Lemma insert_sorted_In (x y : string) (l : list string) :
  In y (insert_sorted x l) -> y = x \/ In y l.
Proof.
  induction l as [|z l IH]; simpl.
  - intros [->|[]]. left. reflexivity.
  - destruct (String.leb x z); simpl.
    + intros [->|H]; [left; reflexivity | right; exact H].
    + intros [->|H]; [right; left; reflexivity|].
      destruct (IH H) as [->|H']; [left; reflexivity | right; right; exact H'].
Qed.

Lemma insert_sorted_ordered (x : string) (l : list string) :
  ordered l -> ordered (insert_sorted x l).
Proof.
  induction 1 as [|z l Hl IH Hz]; simpl.
  - repeat constructor.
  - destruct (String.leb x z) eqn:E.
    + constructor; [constructor; assumption|].
      constructor; [exact E|].
      eapply List.Forall_impl; [|exact Hz]. intros w Hw. simpl in Hw. eapply leb_trans; eassumption.
    + constructor; [exact IH|].
      rewrite List.Forall_forall. intros w Hw. apply insert_sorted_In in Hw as [->|Hw].
      * destruct (String.leb_total x z) as [H|H]; congruence.
      * rewrite List.Forall_forall in Hz. apply Hz, Hw.
Qed.

Lemma sorted_ordered (l : list string) : ordered (sorted l).
Proof.
  induction l as [|x l IH]; simpl; [constructor | apply insert_sorted_ordered, IH].
Qed.

Variable keep : string -> bool.

Lemma insert_sorted_least (x : string) (l : list string) :
  Forall (le x) l -> insert_sorted x l = x :: l.
Proof.
  destruct 1 as [|y l Hy _]; simpl; [reflexivity|]. simpl in Hy. rewrite Hy. reflexivity.
Qed.

Lemma Forall_filter_keep (Q : string -> Prop) (l : list string) :
  Forall Q l -> Forall Q (List.filter keep l).
Proof.
  induction 1 as [|y l Hy _ IH]; simpl; [constructor|].
  destruct (keep y); [constructor|]; assumption.
Qed.

Lemma filter_insert_sorted (x : string) (l : list string) :
  ordered l ->
  List.filter keep (insert_sorted x l) =
  if keep x then insert_sorted x (List.filter keep l) else List.filter keep l.
Proof.
  induction 1 as [|y l Hl IH Hy]; simpl.
  - destruct (keep x); reflexivity.
  - destruct (String.leb x y) eqn:E; simpl.
    + destruct (keep x) eqn:Kx; [|reflexivity].
      destruct (keep y) eqn:Ky; simpl.
      * rewrite E. reflexivity.
      * symmetry. apply insert_sorted_least, Forall_filter_keep.
        eapply List.Forall_impl; [|exact Hy]. intros w Hw. simpl in Hw. eapply leb_trans; eassumption.
    + destruct (keep y) eqn:Ky; simpl; rewrite IH; destruct (keep x); simpl;
        try rewrite E; reflexivity.
Qed.

(** Filtering commutes with sorting. *)
Lemma filter_sorted (l : list string) :
  List.filter keep (sorted l) = sorted (List.filter keep l).
Proof.
  induction l as [|x l IH]; simpl; [reflexivity|].
  rewrite filter_insert_sorted by apply sorted_ordered.
  destruct (keep x); simpl; rewrite IH; reflexivity.
Qed.

Lemma filter_filter_swap (p q : string -> bool) (l : list string) :
  List.filter p (List.filter q l) = List.filter q (List.filter p l).
Proof.
  induction l as [|y l IH]; simpl; [reflexivity|].
  destruct (q y) eqn:Q, (p y) eqn:P; simpl; rewrite ?Q, ?P, IH; reflexivity.
Qed.

Lemma filter_drop_rejected (x : string) (l : list string) :
  keep x = false ->
  List.filter keep (List.filter (fun y => negb (String.eqb x y)) l) = List.filter keep l.
Proof.
  intros Kx. induction l as [|y l IH]; simpl; [reflexivity|].
  destruct (String.eqb_spec x y) as [<-|Hne]; simpl.
  - rewrite Kx. exact IH.
  - destruct (keep y); rewrite IH; reflexivity.
Qed.

(** Filtering commutes with the removal of repeated names. *)
Lemma filter_distinct (l : list string) :
  List.filter keep (distinct l) = distinct (List.filter keep l).
Proof.
  induction l as [|x l IH]; simpl; [reflexivity|].
  destruct (keep x) eqn:Kx; simpl.
  - rewrite filter_filter_swap, IH. reflexivity.
  - rewrite filter_drop_rejected by exact Kx. exact IH.
Qed.

Lemma filter_none (l : list string) :
  Forall (fun a => keep a = false) l -> List.filter keep l = [].
Proof.
  induction 1 as [|y l Hy _ IH]; simpl; [reflexivity|]. rewrite Hy. exact IH.
Qed.

End Sorting.

(** The public names of a class do not depend on the names of [object], all
    of which start with two underscores. *)
Lemma public_names_own (object_names : list string) (cls : class) :
  Forall Str.dunder object_names ->
  public_names object_names cls =
  sorted (distinct (List.filter (fun a => negb (Str.startswith a "__")) (names_of cls))).
Proof.
  intros Hobj. unfold public_names, dir.
  rewrite filter_sorted, filter_distinct, List.filter_app.
  rewrite (filter_none _ object_names).
  - rewrite app_nil_r. reflexivity.
  - eapply List.Forall_impl; [|exact Hobj]. intros a Ha. simpl in Ha. rewrite Ha. reflexivity.
Qed.

(** ** Running a computation step by step *)

Lemma bind_eq {S A B} (m : St S A) (f : A -> St S B) (s : S) :
  (m ≫= f) s = match m s with
               | (Ok a, s') => f a s'
               | (Raise e, s') => (Raise e, s')
               end.
Proof. reflexivity. Qed.

Lemma type_new_eq mcs name bases attrs b h :
  type_new mcs name bases attrs b h =
  (Ok (Class (h_brk h) mcs name
          (match Dict.get attrs "__qualname__" with
           | Some (Attr (VStr q)) => q
           | _ => name
           end)
          bases (class_dict bases attrs) []
          (match b_new b with Some f => Some f | None => inherited c_new bases end)
          (match b_init b with Some f => Some f | None => inherited c_init bases end)),
   Heap (h_out h) (h_brk h + 1) (h_log h)).
Proof. reflexivity. Qed.

Lemma print_eq s h :
  print s h = (Ok tt, Heap (h_out h ++ [s +:+ Text.nl]) (h_brk h) (h_log h)).
Proof. reflexivity. Qed.

Ltac run_monad :=
  cbv beta iota zeta delta
    [mbind St_bind mret St_ret raise log print alloc lift from_result try_except].

Ltac run_call :=
  repeat progress
    (run_monad;
     cbn [excess_args andb orb negb t_id t_init t_new t_abstract fst snd
          w_heap w_instances h_out h_brk h_log o_class o_addr]).

(** Concrete attributes are accepted, concrete definitions are plain. *)
Ltac show_accepted :=
  split; [vm_compute; reflexivity|];
  split; intros m Hm; vm_compute in Hm;
    first [ discriminate Hm
          | injection Hm as <-; first [reflexivity | eexists; reflexivity] ].

Ltac show_plain_defs := repeat constructor.

(** ** The renamed attribute dictionaries *)

Section Renaming.

Context {V : Type}.

Lemma camel_to_snake_case_attrs_renamed (attrs : Dict.dict V) :
  camel_to_snake_case_attrs attrs =
  renamed (fun k => if Str.startswith k "__" then k else convert k) attrs [].
Proof.
  unfold camel_to_snake_case_attrs, renamed. generalize (@nil (string * V)).
  induction attrs as [|[k v] attrs IH]; intros acc; simpl; [reflexivity|].
  rewrite IH. destruct (Str.startswith k "__"); reflexivity.
Qed.

Lemma CamelToSnake_attrs_renamed (name : string) (attrs : Dict.dict V) :
  CamelToSnake.snake_attrs name attrs =
  renamed (if Str.startswith name "__" then (fun k => k) else convert) attrs [].
Proof.
  unfold CamelToSnake.snake_attrs, renamed. generalize (@nil (string * V)).
  induction attrs as [|[k v] attrs IH]; intros acc; simpl; [reflexivity|].
  rewrite IH. destruct (Str.startswith name "__"); reflexivity.
Qed.

Lemma keys_set (d : Dict.dict V) (k' : string) (v : V) (k : string) :
  In k (Dict.keys (Dict.set d k' v)) <-> In k (Dict.keys d) \/ k = k'.
Proof.
  induction d as [|[k0 v0] d IH]; simpl.
  - intuition congruence.
  - destruct (String.eqb_spec k0 k'); simpl.
    + subst. intuition congruence.
    + rewrite IH. intuition congruence.
Qed.

Lemma keys_renamed (f : string -> string) (attrs acc : Dict.dict V) (k : string) :
  In k (Dict.keys (renamed f attrs acc)) <->
  In k (Dict.keys acc) \/ exists k0, In k0 (Dict.keys attrs) /\ k = f k0.
Proof.
  unfold renamed. revert acc. induction attrs as [|[k1 v1] attrs IH]; intros acc; simpl.
  - split; [auto|]. intros [H|H]; [exact H|]. destruct H as (k0 & [] & _).
  - rewrite IH, keys_set. split.
    + intros [[H | ->] | (k0 & H & ->)]; eauto.
    + intros [H | (k0 & [<- | H] & ->)]; eauto.
Qed.

(** Two renamings that agree on the keys of [attrs] build the same dictionary. *)
Lemma renamed_ext (f g : string -> string) (attrs acc : Dict.dict V) :
  (forall k, In k (Dict.keys attrs) -> f k = g k) ->
  renamed f attrs acc = renamed g attrs acc.
Proof.
  unfold renamed. revert acc. induction attrs as [|[k1 v1] attrs IH]; intros acc Hfg; simpl.
  - reflexivity.
  - rewrite (Hfg k1) by (left; reflexivity). apply IH.
    intros k Hk. apply Hfg. right. exact Hk.
Qed.

End Renaming.

(** ** Cells 19 and 31: the renamed [MyVector] *)

Lemma cpython36_object_names_dunder : Forall Str.dunder cpython36_object_names.
Proof. unfold cpython36_object_names. repeat constructor. Qed.

(** C1: cell 31, which defines [MyVector] with the metaclass [CamelToSnake]
    and prints its names that do not start with two underscores, prints
    exactly the recorded line; the test of [CamelToSnake.__new__] reads the
    class name, so for a class name without leading underscores [convert] is
    applied to every key, the double-underscore ones included. *)
Theorem cell31_output (object_names : list string) (h : heap) :
  Forall Str.dunder object_names ->
  (exists cls,
      cell31 object_names h =
      (Ok cls, Heap (h_out h ++ [MyVector_names_line +:+ Text.nl]) (h_brk h + 1) (h_log h)))
  /\ (forall (name : string) (attrs : Dict.dict member),
        Str.startswith name "__" = false ->
        CamelToSnake.snake_attrs name attrs = renamed convert attrs []).
Proof.
  intros Hobj. split.
  - unfold cell31, print_public_names, class_stmt, CamelToSnake.__new__.
    simpl metaclass_of. cbv iota.
    rewrite bind_eq, type_new_eq, bind_eq, print_eq.
    rewrite public_names_own by exact Hobj.
    eexists. reflexivity.
  - intros name attrs Hname. rewrite CamelToSnake_attrs_renamed, Hname. reflexivity.
Qed.

Lemma cell31_output_witness :
  exists cls,
    cell31 cpython36_object_names (empty_heap 100) =
    (Ok cls, Heap [MyVector_names_line +:+ Text.nl] 101 []).
Proof.
  exact (proj1 (cell31_output cpython36_object_names (empty_heap 100)
                              cpython36_object_names_dunder)).
Defined.

(** C7: cell 19, which defines [MyVector] with the function
    [camel_to_snake_case] as metaclass, prints the recorded two lines; in
    the dictionary the function builds, a name that starts with two
    underscores is kept and every other name is rewritten by [convert]. *)
Theorem cell19_output (object_names : list string) (h : heap) :
  Forall Str.dunder object_names ->
  (exists cls,
      cell19 object_names h =
      (Ok cls,
       Heap (h_out h ++
             ["Calling the metaclass camel_to_snake_case to construct class: MyVector" +:+ Text.nl;
              MyVector_names_line +:+ Text.nl])
            (h_brk h + 1) (h_log h)))
  /\ (forall (attrs : Dict.dict member) (k : string),
        In k (Dict.keys (camel_to_snake_case_attrs attrs)) <->
        exists k0, In k0 (Dict.keys attrs) /\
                   k = if Str.startswith k0 "__" then k0 else convert k0).
Proof.
  intros Hobj. split.
  - unfold cell19, print_public_names, camel_to_snake_case.
    rewrite bind_eq, bind_eq, print_eq, type_new_eq, bind_eq, print_eq.
    rewrite public_names_own by exact Hobj.
    eexists. simpl h_out. rewrite <- app_assoc. reflexivity.
  - intros attrs k. rewrite camel_to_snake_case_attrs_renamed, keys_renamed.
    simpl. intuition.
Qed.

Lemma cell19_output_witness :
  exists cls,
    cell19 cpython36_object_names (empty_heap 100) =
    (Ok cls,
     Heap ["Calling the metaclass camel_to_snake_case to construct class: MyVector" +:+ Text.nl;
           MyVector_names_line +:+ Text.nl] 101 []).
Proof.
  exact (proj1 (cell19_output cpython36_object_names (empty_heap 100)
                              cpython36_object_names_dunder)).
Defined.

(** ** The two metaclasses compared *)

(** Where every double-underscore key is left alone by [convert], the class
    and the function build the same dictionary. *)
Lemma metaclasses_agree (name : string) (attrs : Dict.dict member) :
  Str.startswith name "__" = false ->
  (forall k, In k (Dict.keys attrs) -> Str.startswith k "__" = true -> convert k = k) ->
  CamelToSnake.snake_attrs name attrs = camel_to_snake_case_attrs attrs.
Proof.
  intros Hname Hkeys.
  rewrite CamelToSnake_attrs_renamed, camel_to_snake_case_attrs_renamed, Hname.
  apply renamed_ext. intros k Hk.
  destruct (Str.startswith k "__") eqn:E; [|reflexivity]. apply Hkeys; assumption.
Qed.

(** C8: the two metaclasses are not equivalent.  For the class name
    [MyVector] and a body that defines [__myHook__], the class
    [CamelToSnake] files the method under [__my_hook__] and the function
    [camel_to_snake_case] under [__myHook__]. *)
Theorem metaclasses_disagree :
  Str.startswith "MyVector" "__" = false
  /\ CamelToSnake.snake_attrs "MyVector" hooked_namespace =
     [("__module__", Attr (VStr "__main__")); ("__qualname__", Attr (VStr "MyVector"));
      ("__my_hook__", Method "__myHook__" false)]
  /\ camel_to_snake_case_attrs hooked_namespace =
     [("__module__", Attr (VStr "__main__")); ("__qualname__", Attr (VStr "MyVector"));
      ("__myHook__", Method "__myHook__" false)]
  /\ CamelToSnake.snake_attrs "MyVector" hooked_namespace <>
     camel_to_snake_case_attrs hooked_namespace.
Proof.
  repeat split; try (vm_compute; reflexivity).
  vm_compute. discriminate.
Qed.

(** ** Cell 5: the abstract class *)

Lemma cell5_classes_eq (h : heap) :
  exists Vehicle Car,
    cell5_classes h = (Ok (Vehicle, Car), Heap (h_out h) (h_brk h + 1 + 1) (h_log h))
    /\ c_meta Car = MABCMeta
    /\ c_name Car = "Car"
    /\ c_abstract Car = ["change_gear"; "start_engine"]
    /\ c_new Car = None
    /\ c_init Car = Some Car.__init__.
Proof.
  do 2 eexists. split; [reflexivity|]. repeat split; reflexivity.
Qed.

(** Whatever the arguments, [object.__new__] refuses to build a [Car]. *)
Lemma Car_raises (Car : class) (args : list value) (kwargs : Dict.dict value) (w : world) :
  c_meta Car = MABCMeta -> c_name Car = "Car" ->
  c_abstract Car = ["change_gear"; "start_engine"] ->
  c_new Car = None -> c_init Car = Some Car.__init__ ->
  instantiate Car args kwargs w =
  (Raise (TypeError abstract_message),
   World (Heap (h_out (w_heap w)) (h_brk (w_heap w)) (h_log (w_heap w) ++ [EvNew (c_id Car)]))
         (w_instances w)).
Proof.
  intros Hm Hn Ha Hnew Hinit. unfold instantiate. rewrite Hm.
  unfold type_call. rewrite Hnew. unfold object_new, info. rewrite Hnew, Hinit, Ha, Hn.
  cbn [t_init t_new t_abstract t_name negb orb]. rewrite andb_false_r.
  run_monad. reflexivity.
Qed.

(** C3: the call of [Car] in cell 5 raises a [TypeError]; the cell catches
    it and prints its message, the recorded line. *)
Theorem cell5_output (w : world) :
  exists Vehicle Car h1,
    cell5_classes (w_heap w) = (Ok (Vehicle, Car), h1)
    /\ fst (instantiate Car Car_args [] (World h1 (w_instances w))) =
       Raise (TypeError abstract_message)
    /\ exists w',
         cell5 w = (Ok tt, w')
         /\ h_out (w_heap w') = h_out (w_heap w) ++ [abstract_message +:+ Text.nl].
Proof.
  destruct (cell5_classes_eq (w_heap w)) as (Vehicle & Car & E & Hm & Hn & Ha & Hnew & Hinit).
  exists Vehicle, Car. eexists. split; [exact E|]. split.
  - rewrite Car_raises by assumption. reflexivity.
  - unfold cell5. rewrite bind_eq. unfold lift at 1. rewrite E. cbv iota beta.
    unfold cell5_try, try_except. rewrite bind_eq.
    rewrite Car_raises by assumption. cbv iota beta.
    eexists. split; reflexivity.
Qed.

(** C4: the two class statements of cell 5 succeed, print nothing and
    dispatch no constructor, although [Car] leaves both abstract methods of
    [Vehicle] in place; the failure comes when [Car] is called, with the
    arguments of the cell or any others. *)
Theorem abstract_checked_at_instantiation (h : heap) :
  exists Vehicle Car h1,
    cell5_classes h = (Ok (Vehicle, Car), h1)
    /\ h_out h1 = h_out h
    /\ h_log h1 = h_log h
    /\ c_abstract Car = ["change_gear"; "start_engine"]
    /\ forall args kwargs instances,
         fst (instantiate Car args kwargs (World h1 instances)) =
         Raise (TypeError abstract_message).
Proof.
  destruct (cell5_classes_eq h) as (Vehicle & Car & E & Hm & Hn & Ha & Hnew & Hinit).
  exists Vehicle, Car. eexists. split; [exact E|]. repeat split; try assumption.
  intros args kwargs instances. rewrite Car_raises by assumption. reflexivity.
Qed.

(** A subclass that overrides both methods can be instantiated. *)
Example Tram_instantiates :
  exists Tram tram w,
    (classes ← cell5_classes; class_stmt None "Tram" [fst classes] [] Tram_body)
      (empty_heap 100) = (Ok Tram, w_heap w)
    /\ c_abstract Tram = []
    /\ fst (instantiate Tram [] [] w) = Ok tram.
Proof.
  do 2 eexists. exists (empty_world 103). split; [reflexivity|]. split; reflexivity.
Qed.

(** ** Keywords that name the first parameter *)

Lemma taken_one (fname n : string) (kwargs : Dict.dict value) :
  Bind.taken fname [n] kwargs =
  if Dict.mem kwargs n
  then Raise (TypeError (fname +:+ "() got multiple values for argument '" +:+ n +:+ "'"))
  else Ok tt.
Proof.
  unfold Bind.taken, Dict.mem.
  induction kwargs as [|[k v] kwargs IH]; cbn [find Dict.get existsb fst]; [reflexivity|].
  rewrite orb_false_r. destruct (String.eqb_spec k n) as [->|Hne]; [reflexivity | exact IH].
Qed.

Lemma lift_eq {A} (m : H A) (w : world) :
  lift m w = (fst (m (w_heap w)), World (snd (m (w_heap w))) (w_instances w)).
Proof. unfold lift. destruct (m (w_heap w)). reflexivity. Qed.

(** ** Cell 22: the trace of [MyClass1] *)

Section MyClass1Calls.

Variables (c : class) (args : list value) (kwargs : Dict.dict value) (w : world).
Hypothesis Hnew : c_new c = Some MyClass1.__new__.
Hypothesis Hinit : c_init c = Some MyClass1.__init__.
Hypothesis Habs : c_abstract c = [].

Let line_new : string :=
  ("MyClass1.__new__(" +:+ str_class c +:+ ", *" +:+ Text.repr_args args +:+
   ", **" +:+ Text.repr_kwargs kwargs +:+ ")") +:+ Text.nl.

Let self : instance := Instance (h_brk (w_heap w)) (c_id c) (type_path (info c)) [].

(** Neither [cls] nor [self] among the keywords: both constructors run. *)
Lemma MyClass1_call :
  Dict.mem kwargs "cls" = false -> Dict.mem kwargs "self" = false ->
  type_call c args kwargs w =
  (Ok self,
   World (Heap (h_out (w_heap w) ++
                [line_new;
                 ("MyClass1.__init__(" +:+ str_instance self +:+ ", *" +:+
                  Text.repr_args args +:+ ", **" +:+ Text.repr_kwargs kwargs +:+ ")")
                 +:+ Text.nl])
               (h_brk (w_heap w) + 1)
               (h_log (w_heap w) ++ [EvNew (c_id c); EvInit (c_id c)]))
         (w_instances w)).
Proof.
  intros Hcls Hself. unfold type_call, line_new, self, str_class. rewrite Hnew, Hinit.
  unfold MyClass1.__new__, MyClass1.__init__. rewrite !taken_one, Hcls, Hself.
  unfold object_new, info. rewrite Habs, Hnew, Hinit.
  run_call. rewrite N.eqb_refl. run_call.
  rewrite <- !app_assoc. reflexivity.
Qed.

(** A keyword [cls]: [__new__] raises before its body starts. *)
Lemma MyClass1_call_cls :
  Dict.mem kwargs "cls" = true ->
  type_call c args kwargs w =
  (Raise (TypeError "__new__() got multiple values for argument 'cls'"),
   World (Heap (h_out (w_heap w)) (h_brk (w_heap w)) (h_log (w_heap w) ++ [EvNew (c_id c)]))
         (w_instances w)).
Proof.
  intros Hcls. unfold type_call. rewrite Hnew.
  unfold MyClass1.__new__. rewrite taken_one, Hcls. run_monad. reflexivity.
Qed.

(** A keyword [self] and none [cls]: [__new__] prints and allocates, then
    [__init__] raises before its body starts. *)
Lemma MyClass1_call_self :
  Dict.mem kwargs "cls" = false -> Dict.mem kwargs "self" = true ->
  type_call c args kwargs w =
  (Raise (TypeError "__init__() got multiple values for argument 'self'"),
   World (Heap (h_out (w_heap w) ++ [line_new]) (h_brk (w_heap w) + 1)
               (h_log (w_heap w) ++ [EvNew (c_id c); EvInit (c_id c)]))
         (w_instances w)).
Proof.
  intros Hcls Hself. unfold type_call, line_new, str_class. rewrite Hnew, Hinit.
  unfold MyClass1.__new__, MyClass1.__init__. rewrite !taken_one, Hcls, Hself.
  unfold object_new, info. rewrite Habs, Hnew, Hinit.
  run_call. rewrite N.eqb_refl. run_call.
  rewrite <- !app_assoc. reflexivity.
Qed.

End MyClass1Calls.

Lemma cell21_eq (h : heap) :
  exists MyClass1,
    cell21 h = (Ok MyClass1, Heap (h_out h ++ ["Calling meta_function" +:+ Text.nl])
                                  (h_brk h + 1) (h_log h))
    /\ c_meta MyClass1 = MType
    /\ c_new MyClass1 = Some MyClass1.__new__
    /\ c_init MyClass1 = Some MyClass1.__init__
    /\ c_abstract MyClass1 = []
    /\ str_class MyClass1 = "<class '__main__.MyClass1'>"
    /\ type_path (info MyClass1) = "__main__.MyClass1".
Proof. eexists. split; [reflexivity|]. repeat split; reflexivity. Qed.

Lemma append_inj_l (a x y : string) : a +:+ x = a +:+ y -> x = y.
Proof. induction a as [|c a IH]; simpl; [auto|]. intros [= E]. auto. Qed.

Lemma append_inj_r (x y z : string) : x +:+ z = y +:+ z -> x = y.
Proof.
  intros E. apply (f_equal Str.chars) in E.
  assert (Happ : forall a b, Str.chars (a +:+ b) = Str.chars a ++ Str.chars b).
  { intros a b. induction a as [|c a IH]; simpl; [reflexivity | rewrite IH; reflexivity]. }
  rewrite !Happ in E. apply app_inv_tail in E.
  rewrite <- (string_of_list_ascii_of_string x), <- (string_of_list_ascii_of_string y), E.
  reflexivity.
Qed.

(** C6, as the code has it: cell 22 prints two lines, the first one as
    recorded and the second one with the text of the instance built in this
    run, which is allocated where the allocator stands; the recorded second
    line comes out exactly when that text is the recorded one. *)
Theorem cell22_output (h : heap) (instances : gmap N instance) :
  exists MyClass1 h1 a w2,
    cell21 h = (Ok MyClass1, h1)
    /\ cell22 MyClass1 (World h1 instances) = (Ok a, w2)
    /\ o_addr a = h_brk h1
    /\ h_out (w_heap w2) =
       h_out h1 ++
       [cell22_line1 +:+ Text.nl;
        ("MyClass1.__init__(" +:+ str_instance a +:+
         ", *(1, 2, 3), **{'x': 'ex', 'y': 'why'})") +:+ Text.nl]
    /\ (h_out (w_heap w2) = h_out h1 ++ cell22_recorded <->
        str_instance a = "<__main__.MyClass1 object at 0x00000169EED619E8>").
Proof.
  destruct (cell21_eq h) as (cls & E & Hm & Hnew & Hinit & Habs & Hstr & Hty).
  exists cls. do 3 eexists. split; [exact E|].
  unfold cell22, instantiate. rewrite Hm.
  rewrite (MyClass1_call cls [VInt 1; VInt 2; VInt 3] [("x", VStr "ex"); ("y", VStr "why")]
             _ Hnew Hinit Habs eq_refl eq_refl).
  cbn [w_heap w_instances].
  split; [reflexivity|]. cbn [o_addr h_out w_heap h_brk].
  split; [reflexivity|].
  match goal with |- ?out = _ /\ _ =>
    assert (Hout : out =
      (h_out h ++ ["Calling meta_function" +:+ Text.nl]) ++
      [cell22_line1 +:+ Text.nl;
       ("MyClass1.__init__(" +:+
        str_instance (Instance (h_brk h + 1) (c_id cls) (type_path (info cls)) []) +:+
        ", *(1, 2, 3), **{'x': 'ex', 'y': 'why'})") +:+ Text.nl])
  end.
  { rewrite Hstr. reflexivity. }
  split; [exact Hout|]. rewrite Hout. unfold cell22_recorded. split.
  - intros Eq. apply app_inv_head in Eq.
    apply (f_equal (fun l => nth 1 l "")) in Eq. cbn [nth] in Eq.
    apply append_inj_r in Eq.
    change (cell22_line2 "0x00000169EED619E8")
      with ("MyClass1.__init__(" +:+
            ("<__main__.MyClass1 object at 0x00000169EED619E8>" +:+
             ", *(1, 2, 3), **{'x': 'ex', 'y': 'why'})")) in Eq.
    apply append_inj_l, append_inj_r in Eq. exact Eq.
  - intros ->. reflexivity.
Qed.

Lemma cell22_output_witness :
  exists MyClass1 h1 a w2,
    cell21 (empty_heap 1554490202599) = (Ok MyClass1, h1)
    /\ cell22 MyClass1 (World h1 ∅) = (Ok a, w2)
    /\ h_out (w_heap w2) = h_out h1 ++ cell22_recorded.
Proof.
  destruct (cell22_output (empty_heap 1554490202599) ∅)
    as (cls & h1 & a & w2 & E1 & E2 & Ha & _ & Hrec).
  exists cls, h1, a, w2. split; [exact E1|]. split; [exact E2|].
  apply Hrec.
  destruct (cell21_eq (empty_heap 1554490202599))
    as (cls' & E' & Hm & Hnew & Hinit & Habs & _ & Hty).
  rewrite E1 in E'. injection E' as <- Hh1.
  unfold cell22, instantiate in E2. rewrite Hm in E2.
  rewrite (MyClass1_call cls [VInt 1; VInt 2; VInt 3] [("x", VStr "ex"); ("y", VStr "why")]
             _ Hnew Hinit Habs eq_refl eq_refl) in E2.
  injection E2 as <- _.
  unfold str_instance. cbn [o_type o_addr w_heap]. rewrite Hty, Hh1. reflexivity.
Defined.

(** C6 as stated fails: in a run that allocates the instance at
    0x00000169EED7D860 (the address cell 27 records for another instance) the
    second line shows that address, not the recorded one. *)
Lemma cell22_other_address :
  exists MyClass1 h1 a w2,
    cell21 (empty_heap 1554490316895) = (Ok MyClass1, h1)
    /\ cell22 MyClass1 (World h1 ∅) = (Ok a, w2)
    /\ h_out (w_heap w2) =
       h_out h1 ++ [cell22_line1 +:+ Text.nl;
                    cell22_line2 "0x00000169EED7D860" +:+ Text.nl]
    /\ h_out (w_heap w2) <> h_out h1 ++ cell22_recorded.
Proof.
  do 4 eexists. split; [reflexivity|]. split; [reflexivity|].
  split; [vm_compute; reflexivity|]. vm_compute. discriminate.
Qed.

(** ** [Singleton] *)

Section SingletonCache.

Implicit Types (cls : class) (args : list value) (kwargs : Dict.dict value) (w : world).

Lemma lift_instances {A} (m : H A) w : w_instances (snd (lift m w)) = w_instances w.
Proof. unfold lift. destruct (m (w_heap w)). reflexivity. Qed.

(** A keyword [cls]: the call raises, and nothing else happens. *)
Lemma Singleton_call_cls cls args kwargs w :
  Dict.mem kwargs "cls" = true ->
  Singleton.__call__ cls args kwargs w =
  (Raise (TypeError "__call__() got multiple values for argument 'cls'"), w).
Proof.
  intros Hk. unfold Singleton.__call__. rewrite taken_one, Hk. reflexivity.
Qed.

(** A class attribute [_instances] hides the dictionary of [Singleton]. *)
Lemma Singleton_call_hidden cls args kwargs w (m : member) :
  Dict.mem kwargs "cls" = false -> getattr cls "_instances" = Some m ->
  Singleton.__call__ cls args kwargs w = (Raise (Singleton.not_a_container cls m), w).
Proof.
  intros Hk Hm. unfold Singleton.__call__. rewrite taken_one, Hk, Hm. reflexivity.
Qed.

(** A class in the cache is returned as it is: nothing else happens. *)
Lemma Singleton_call_hit cls args kwargs w (obj : instance) :
  Dict.mem kwargs "cls" = false -> getattr cls "_instances" = None ->
  w_instances w !! c_id cls = Some obj ->
  Singleton.__call__ cls args kwargs w = (Ok obj, w).
Proof.
  intros Hk Hm Hw. unfold Singleton.__call__. rewrite taken_one, Hk, Hm.
  unfold Singleton.instances_mem, Singleton.instances_get. run_monad.
  rewrite bool_decide_eq_true_2 by (rewrite Hw; eexists; reflexivity).
  cbn [negb]. rewrite Hw. reflexivity.
Qed.

(** A class not in the cache is constructed by [type.__call__] and, when that
    returns, stored. *)
Lemma Singleton_call_miss cls args kwargs w :
  Dict.mem kwargs "cls" = false -> getattr cls "_instances" = None ->
  w_instances w !! c_id cls = None ->
  Singleton.__call__ cls args kwargs w =
  match type_call cls args kwargs w with
  | (Ok obj, w') => (Ok obj, World (w_heap w') (<[c_id cls := obj]> (w_instances w')))
  | (Raise e, w') => (Raise e, w')
  end.
Proof.
  intros Hk Hm Hw. unfold Singleton.__call__. rewrite taken_one, Hk, Hm.
  unfold Singleton.instances_mem, Singleton.instances_get, Singleton.instances_set.
  run_monad.
  rewrite bool_decide_eq_false_2 by (rewrite Hw; intros [? ?]; discriminate).
  cbn [negb]. destruct (type_call cls args kwargs w) as [[obj|e] w']; [|reflexivity].
  cbn [w_heap w_instances]. rewrite lookup_insert_eq. reflexivity.
Qed.

(** What a call of a [Singleton] class does, case by case. *)
Lemma Singleton_call_eq cls args kwargs w :
  Singleton.__call__ cls args kwargs w =
  if Dict.mem kwargs "cls"
  then (Raise (TypeError "__call__() got multiple values for argument 'cls'"), w)
  else
    match getattr cls "_instances" with
    | Some m => (Raise (Singleton.not_a_container cls m), w)
    | None =>
        match w_instances w !! c_id cls with
        | Some obj => (Ok obj, w)
        | None =>
            match type_call cls args kwargs w with
            | (Ok obj, w') =>
                (Ok obj, World (w_heap w') (<[c_id cls := obj]> (w_instances w')))
            | (Raise e, w') => (Raise e, w')
            end
        end
    end.
Proof.
  destruct (Dict.mem kwargs "cls") eqn:Hk; [apply Singleton_call_cls, Hk|].
  destruct (getattr cls "_instances") as [m|] eqn:Hm;
    [apply Singleton_call_hidden; assumption|].
  destruct (w_instances w !! c_id cls) as [obj|] eqn:Hw.
  - apply Singleton_call_hit; assumption.
  - apply Singleton_call_miss; assumption.
Qed.

Lemma instantiate_singleton cls args kwargs w :
  is_singleton cls = true ->
  instantiate cls args kwargs w = Singleton.__call__ cls args kwargs w.
Proof.
  unfold is_singleton, instantiate.
  destruct (c_meta cls); intros Hs; try discriminate Hs; reflexivity.
Qed.

Lemma MyMeta_call_instances cls args kwargs w :
  keeps_instances cls ->
  w_instances (MyMeta.__call__ cls args kwargs w).2 = w_instances w.
Proof.
  intros Hkeep. unfold MyMeta.__call__. rewrite taken_one.
  destruct (Dict.mem kwargs "cls"); [reflexivity|]. run_monad.
  match goal with |- context [type_call cls args kwargs ?w0] =>
    pose proof (Hkeep args kwargs w0) as K;
    destruct (type_call cls args kwargs w0) as [[obj|e] w'] end;
    cbn [snd w_instances w_heap] in *; exact K.
Qed.

(** A class that does not take [__call__] from [Singleton] and whose
    constructors leave the cache alone leaves it alone when called. *)
Lemma instantiate_plain cls args kwargs w :
  is_singleton cls = false -> keeps_instances cls ->
  w_instances (snd (instantiate cls args kwargs w)) = w_instances w.
Proof.
  unfold is_singleton, instantiate. intros Hs Hkeep.
  destruct (c_meta cls); try discriminate Hs;
    first [apply Hkeep | apply MyMeta_call_instances, Hkeep].
Qed.

Lemma keeps_instances_entries cls : keeps_instances cls -> keeps_entries cls.
Proof. intros Hkeep args kwargs w id obj Hid. rewrite Hkeep. exact Hid. Qed.

Lemma quiet_steady (calls : list call) : quiet calls -> steady calls.
Proof. intros Hq k c a kw Hk. apply keeps_instances_entries, (Hq k c a kw Hk). Qed.

(** No call of a class whose constructors keep the entries of the cache
    removes or replaces an entry of it. *)
Lemma instantiate_keeps cls args kwargs w (id : N) (obj : instance) :
  keeps_entries cls ->
  w_instances w !! id = Some obj ->
  w_instances (snd (instantiate cls args kwargs w)) !! id = Some obj.
Proof.
  intros Hkeep Hid. destruct (is_singleton cls) eqn:Hs.
  - rewrite instantiate_singleton, Singleton_call_eq by exact Hs.
    destruct (Dict.mem kwargs "cls"); [exact Hid|].
    destruct (getattr cls "_instances"); [exact Hid|].
    destruct (w_instances w !! c_id cls) as [cached|] eqn:Hc; [exact Hid|].
    pose proof (Hkeep args kwargs w id obj Hid) as K.
    destruct (type_call cls args kwargs w) as [[o|e] w']; cbn [snd w_instances] in *;
      [|exact K].
    rewrite lookup_insert_ne; [exact K|]. intros E. congruence.
  - unfold is_singleton in Hs. unfold instantiate.
    destruct (c_meta cls); try discriminate Hs; try (apply Hkeep, Hid).
    unfold MyMeta.__call__. rewrite taken_one.
    destruct (Dict.mem kwargs "cls"); [exact Hid|]. run_monad.
    match goal with |- context [type_call cls args kwargs ?w0] =>
      pose proof (Hkeep args kwargs w0 id obj Hid) as K;
      destruct (type_call cls args kwargs w0) as [[o|e] w'] end;
      cbn [snd w_instances w_heap] in *; exact K.
Qed.

(** What a call of a [Singleton] class returns is in the cache afterwards. *)
Lemma instantiate_caches cls args kwargs w (obj : instance) w' :
  is_singleton cls = true ->
  instantiate cls args kwargs w = (Ok obj, w') ->
  w_instances w' !! c_id cls = Some obj.
Proof.
  intros Hs. rewrite instantiate_singleton, Singleton_call_eq by exact Hs.
  destruct (Dict.mem kwargs "cls"); [discriminate|].
  destruct (getattr cls "_instances"); [discriminate|].
  destruct (w_instances w !! c_id cls) as [cached|] eqn:Hc.
  - intros [= <- <-]. exact Hc.
  - destruct (type_call cls args kwargs w) as [[o|e] w1]; intros [= <- <-].
    cbn [w_instances]. apply lookup_insert_eq.
Qed.

(** A call that returns has bound its keywords and found no class attribute
    [_instances]. *)
Lemma instantiate_returned cls args kwargs w (obj : instance) w' :
  is_singleton cls = true ->
  instantiate cls args kwargs w = (Ok obj, w') ->
  Dict.mem kwargs "cls" = false /\ getattr cls "_instances" = None.
Proof.
  intros Hs. rewrite instantiate_singleton, Singleton_call_eq by exact Hs.
  destruct (Dict.mem kwargs "cls"); [discriminate|].
  destruct (getattr cls "_instances"); [discriminate | auto].
Qed.

(** While the cache holds [obj] for the class, a call that returns returns
    [obj]. *)
Lemma instantiate_cached cls args kwargs w (obj o : instance) w' :
  is_singleton cls = true ->
  w_instances w !! c_id cls = Some obj ->
  instantiate cls args kwargs w = (Ok o, w') ->
  o = obj.
Proof.
  intros Hs Hc. rewrite instantiate_singleton, Singleton_call_eq by exact Hs.
  destruct (Dict.mem kwargs "cls"); [discriminate|].
  destruct (getattr cls "_instances"); [discriminate|].
  rewrite Hc. intros [= <- _]. reflexivity.
Qed.

Lemma quiet_cons c a kw (calls : list call) :
  quiet ((c, a, kw) :: calls) -> keeps_instances c /\ quiet calls.
Proof.
  intros Hq. split.
  - apply (Hq 0%nat c a kw). reflexivity.
  - intros k c' a' kw' Hk. apply (Hq (S k) c' a' kw'). exact Hk.
Qed.

Lemma steady_cons c a kw (calls : list call) :
  steady ((c, a, kw) :: calls) -> keeps_entries c /\ steady calls.
Proof.
  intros Hq. split.
  - apply (Hq 0%nat c a kw). reflexivity.
  - intros k c' a' kw' Hk. apply (Hq (S k) c' a' kw'). exact Hk.
Qed.

Lemma steady_nil : steady [].
Proof. intros k c a kw Hk. destruct k; discriminate Hk. Qed.

Lemma steady_add c a kw (calls : list call) :
  keeps_entries c -> steady calls -> steady ((c, a, kw) :: calls).
Proof.
  intros Hc Hq k c' a' kw' Hk. destruct k as [|k].
  - injection Hk as <- _ _. exact Hc.
  - apply (Hq k c' a' kw'). exact Hk.
Qed.

Lemma run_calls_keeps (calls : list call) w (id : N) (obj : instance) :
  steady calls ->
  w_instances w !! id = Some obj ->
  w_instances (run_calls calls w).2 !! id = Some obj.
Proof.
  revert w. induction calls as [|[[c0 a0] k0] calls IH]; intros w Hq Hw; [exact Hw|].
  apply steady_cons in Hq as [Hc0 Hq].
  simpl. pose proof (instantiate_keeps c0 a0 k0 w id obj Hc0 Hw) as K.
  destruct (instantiate c0 a0 k0 w) as [r0 w1]. specialize (IH w1 Hq K).
  destruct (run_calls calls w1) as [rs w2]. exact IH.
Qed.

(** Once the cache holds [obj] for a class identity, every later call of a
    [Singleton] class of that identity in a script that returns returns
    [obj]. *)
Lemma run_calls_cached (calls : list call) w (id : N) (obj o : instance)
    (j : nat) cls args kwargs :
  steady calls ->
  w_instances w !! id = Some obj ->
  calls !! j = Some (cls, args, kwargs) ->
  is_singleton cls = true -> c_id cls = id ->
  (run_calls calls w).1 !! j = Some (Ok o) ->
  o = obj.
Proof.
  revert w j. induction calls as [|[[c0 a0] k0] calls IH]; intros w j Hq Hw Hj Hs Hid Hr.
  - destruct j; discriminate Hj.
  - apply steady_cons in Hq as [Hc0 Hq]. simpl in Hr.
    destruct (instantiate c0 a0 k0 w) as [r0 w1] eqn:E0.
    destruct (run_calls calls w1) as [rs w2] eqn:E1.
    destruct j as [|j]; simpl in Hj, Hr.
    + injection Hj as -> -> ->. injection Hr as ->.
      apply (instantiate_cached cls args kwargs w obj o w1 Hs); [|exact E0].
      rewrite Hid. exact Hw.
    + apply (IH w1 j); try assumption.
      * pose proof (instantiate_keeps c0 a0 k0 w id obj Hc0 Hw) as K. rewrite E0 in K. exact K.
      * rewrite E1. exact Hr.
Qed.


End SingletonCache.

(** ** Constructors that leave [Singleton._instances] alone *)

Section Frames.

Lemma frame_lift {A} (m : H A) : frame (lift m).
Proof. intros w. apply lift_instances. Qed.

Lemma frame_ret {A} (a : A) : frame (mret a : M A).
Proof. intros w. reflexivity. Qed.

Lemma frame_raise {A} (e : exn) : frame (raise e : M A).
Proof. intros w. reflexivity. Qed.

Lemma frame_from_result {A} (r : result A) : frame (from_result r : M A).
Proof. destruct r; [apply frame_ret | apply frame_raise]. Qed.

Lemma frame_bind {A B} (m : M A) (f : A -> M B) :
  frame m -> (forall a, frame (f a)) -> frame (m ≫= f).
Proof.
  intros Hm Hf w. rewrite bind_eq. specialize (Hm w).
  destruct (m w) as [[a|e] w1]; cbn [snd] in *; [|exact Hm].
  rewrite (Hf a w1). exact Hm.
Qed.

(** A class keeps [Singleton._instances] when its constructors do. *)
Lemma type_call_frame (cls : class) :
  (forall body, c_new cls = Some body -> forall t a k, frame (body t a k)) ->
  (forall body, c_init cls = Some body -> forall o a k, frame (body o a k)) ->
  keeps_instances cls.
Proof.
  intros Hnew Hinit args kwargs. unfold type_call.
  apply frame_bind; [apply frame_lift|]. intros _.
  apply frame_bind.
  - destruct (c_new cls) as [body|]; [apply (Hnew body eq_refl) | apply frame_lift].
  - intros obj. destruct (o_class obj =? c_id cls)%N; [|apply frame_ret].
    apply frame_bind; [apply frame_lift|]. intros _.
    destruct (c_init cls) as [body|]; [apply (Hinit body eq_refl) | apply frame_lift].
Qed.

Lemma default_keeps (cls : class) :
  c_new cls = None -> c_init cls = None -> keeps_instances cls.
Proof. intros Hnew Hinit. apply type_call_frame; intros body E; congruence. Qed.

Lemma MyClass1_new_frame t a k : frame (MyClass1.__new__ t a k).
Proof.
  unfold MyClass1.__new__.
  repeat first [ apply frame_bind; [|intros ?] | apply frame_from_result | apply frame_lift ].
Qed.

Lemma MyClass1_init_frame o a k : frame (MyClass1.__init__ o a k).
Proof.
  unfold MyClass1.__init__.
  repeat first [ apply frame_bind; [|intros ?] | apply frame_from_result | apply frame_lift
               | apply frame_ret ].
Qed.

Lemma MyClass2_new_frame t a k : frame (MyClass2.__new__ t a k).
Proof.
  unfold MyClass2.__new__.
  repeat first [ apply frame_bind; [|intros ?] | apply frame_from_result | apply frame_lift ].
Qed.

Lemma MyClass2_init_frame o a k : frame (MyClass2.__init__ o a k).
Proof.
  unfold MyClass2.__init__.
  repeat first [ apply frame_bind; [|intros ?] | apply frame_from_result | apply frame_lift
               | apply frame_ret ].
Qed.

Lemma Car_init_frame o a k : frame (Car.__init__ o a k).
Proof.
  unfold Car.__init__.
  repeat first [ apply frame_bind; [|intros ?] | apply frame_from_result | apply frame_ret ].
Qed.

End Frames.

(** ** Constructors that call classes *)

Section Holds.

Lemma frame_holds {A} (m : M A) : frame m -> holds m.
Proof. intros Hm w id obj Hid. rewrite Hm. exact Hid. Qed.

Lemma holds_bind {A B} (m : M A) (f : A -> M B) :
  holds m -> (forall a, holds (f a)) -> holds (m ≫= f).
Proof.
  intros Hm Hf w id obj Hid. rewrite bind_eq. specialize (Hm w id obj Hid).
  destruct (m w) as [[a|e] w1]; cbn [snd] in *; [|exact Hm].
  apply (Hf a w1), Hm.
Qed.

Lemma holds_instantiate (cls : class) (args : list value) (kwargs : Dict.dict value) :
  keeps_entries cls -> holds (instantiate cls args kwargs).
Proof. intros Hkeep w id obj Hid. apply instantiate_keeps; assumption. Qed.

(** A class keeps the entries when its constructors do. *)
Lemma type_call_holds (cls : class) :
  (forall body, c_new cls = Some body -> forall t a k, holds (body t a k)) ->
  (forall body, c_init cls = Some body -> forall o a k, holds (body o a k)) ->
  keeps_entries cls.
Proof.
  intros Hnew Hinit args kwargs. unfold type_call.
  apply holds_bind; [apply frame_holds, frame_lift|]. intros _.
  apply holds_bind.
  - destruct (c_new cls) as [body|];
      [apply (Hnew body eq_refl) | apply frame_holds, frame_lift].
  - intros obj. destruct (o_class obj =? c_id cls)%N; [|apply frame_holds, frame_ret].
    apply holds_bind; [apply frame_holds, frame_lift|]. intros _.
    destruct (c_init cls) as [body|];
      [apply (Hinit body eq_refl) | apply frame_holds, frame_lift].
Qed.

(** [Twice] adds to the cache from inside its [__init__], and keeps what the
    cache holds. *)
Lemma Twice_keeps_entries (id : N) (depth : nat) : keeps_entries (Twice id depth).
Proof.
  induction depth as [|d IH]; apply type_call_holds; cbn [c_new c_init Twice];
    try discriminate; intros body [= <-] self args kwargs;
    (apply holds_bind; [apply frame_holds, frame_from_result|]); intros bound;
    destruct (truthy (Bind.arg bound "again"));
    try (apply frame_holds; first [apply frame_raise | apply frame_ret]).
  apply holds_bind; [apply holds_instantiate, IH|]. intros inner.
  apply holds_bind; [apply frame_holds, frame_lift|]. intros _.
  apply frame_holds, frame_ret.
Qed.

End Holds.

(** ** Cell 33: the demonstration *)

Lemma cell33_class_eq (object_names : list string) (h : heap) :
  exists MyVector,
    cell33_class object_names h =
    (Ok MyVector,
     Heap (h_out h ++ [Text.repr_names (public_names object_names MyVector) +:+ Text.nl])
          (h_brk h + 1) (h_log h))
    /\ c_id MyVector = h_brk h
    /\ c_meta MyVector = MSnakeSingleton
    /\ c_new MyVector = None
    /\ c_init MyVector = None
    /\ c_abstract MyVector = []
    /\ getattr MyVector "_instances" = None.
Proof. eexists. split; [reflexivity|]. repeat split; reflexivity. Qed.

(** [type.__call__] on a class that has no abstract method and overrides
    neither [__new__] nor [__init__], called without arguments. *)
Lemma default_call (cls : class) (w : world) :
  c_new cls = None -> c_init cls = None -> c_abstract cls = [] ->
  type_call cls [] [] w =
  (Ok (Instance (h_brk (w_heap w)) (c_id cls) (type_path (info cls)) []),
   World (Heap (h_out (w_heap w)) (h_brk (w_heap w) + 1)
               (h_log (w_heap w) ++ [EvNew (c_id cls); EvInit (c_id cls)]))
         (w_instances w)).
Proof.
  intros Hnew Hinit Habs. unfold type_call. rewrite Hnew, Hinit.
  unfold object_new, object_init, info. rewrite Habs, Hnew, Hinit.
  run_call. rewrite N.eqb_refl. run_call.
  rewrite <- !app_assoc. reflexivity.
Qed.

(** With arguments, [object.__new__] refuses. *)
Lemma default_call_excess (cls : class) (args : list value) (kwargs : Dict.dict value)
    (w : world) :
  c_new cls = None -> c_init cls = None -> excess_args args kwargs = true ->
  type_call cls args kwargs w =
  (Raise (TypeError "object() takes no parameters"),
   World (Heap (h_out (w_heap w)) (h_brk (w_heap w)) (h_log (w_heap w) ++ [EvNew (c_id cls)]))
         (w_instances w)).
Proof.
  intros Hnew Hinit Hex. unfold type_call. rewrite Hnew.
  unfold object_new, info. rewrite Hnew, Hinit, Hex. run_call. reflexivity.
Qed.





(** What class statements build from the bodies of [Twice] and [Flaky]. *)
Example Twice_class (h : heap) (depth : nat) :
  class_stmt (Some MSingleton) "Twice" [] [] (Twice_body (h_brk h) depth) h =
  (Ok (Twice (h_brk h) depth), Heap (h_out h) (h_brk h + 1) (h_log h)).
Proof. destruct depth; reflexivity. Qed.


(** Calls of [Twice] made one after the other do return one object. *)
Example Twice_in_a_script :
  steady [(Twice 100 1, [], []); (Twice 100 1, [VInt 0], [])]
  /\ exists outer,
       (run_calls [(Twice 100 1, [], []); (Twice 100 1, [VInt 0], [])] (empty_world 101)).1 =
       [Ok outer; Ok outer].
Proof.
  split.
  - repeat apply steady_add; try apply steady_nil; apply Twice_keeps_entries.
  - eexists. vm_compute. reflexivity.
Qed.

(** The attribute [_instances] of [Hidden] hides the dictionary of
    [Singleton]: no call of the class returns. *)
Example Hidden_raises :
  exists Hidden h1,
    class_stmt (Some MSingleton) "Hidden" [] [] Hidden_body (empty_heap 100) = (Ok Hidden, h1)
    /\ forall args kwargs w,
         Dict.mem kwargs "cls" = false ->
         instantiate Hidden args kwargs w =
         (Raise (TypeError "argument of type 'int' is not iterable"), w).
Proof.
  do 2 eexists. split; [reflexivity|]. intros args kwargs w Hk.
  rewrite instantiate_singleton, Singleton_call_eq, Hk by reflexivity. reflexivity.
Qed.

(** C10, as the code has it: once a call of a class whose metaclass is
    [Singleton], and that has no class attribute [_instances], has returned
    an instance, the cache holds it, and it stays there through every script
    of calls whose constructors neither remove nor replace an entry of the
    cache.  While the cache holds it, a call without a keyword [cls] returns
    that instance whatever the arguments, a call with a keyword [cls] raises
    [TypeError], and either way nothing changes: nothing is printed or
    allocated and neither [__new__] nor [__init__] is dispatched. *)
Theorem Singleton_returns_cached (cls : class) (args : list value)
    (kwargs : Dict.dict value) (w : world) (obj : instance) (w1 : world) :
  is_singleton cls = true ->
  getattr cls "_instances" = None ->
  instantiate cls args kwargs w = (Ok obj, w1) ->
  w_instances w1 !! c_id cls = Some obj
  /\ (forall calls : list call,
        steady calls -> w_instances (run_calls calls w1).2 !! c_id cls = Some obj)
  /\ forall (w' : world) (args' : list value) (kwargs' : Dict.dict value),
       w_instances w' !! c_id cls = Some obj ->
       instantiate cls args' kwargs' w' =
       (if Dict.mem kwargs' "cls"
        then Raise (TypeError "__call__() got multiple values for argument 'cls'")
        else Ok obj,
        w').
Proof.
  intros Hs Hown E.
  pose proof (instantiate_caches _ _ _ _ _ _ Hs E) as Hc.
  split; [exact Hc|]. split.
  - intros calls Hq. apply run_calls_keeps; assumption.
  - intros w' args' kwargs' Hc'.
    rewrite instantiate_singleton, Singleton_call_eq, Hown, Hc' by exact Hs.
    destruct (Dict.mem kwargs' "cls"); reflexivity.
Qed.

Lemma Singleton_returns_cached_witness :
  exists MyVector h1 v w1,
    cell33_class cpython36_object_names (empty_heap 100) = (Ok MyVector, h1)
    /\ instantiate MyVector [] [] (World h1 ∅) = (Ok v, w1)
    /\ h_log (w_heap w1) = [EvNew (c_id MyVector); EvInit (c_id MyVector)]
    /\ instantiate MyVector [VInt 7] [("x", VStr "ex")] w1 = (Ok v, w1).
Proof.
  do 4 eexists. split; [reflexivity|].
  match goal with |- instantiate ?c ?a ?k ?w = (Ok ?v, ?w1) /\ _ =>
    assert (E : instantiate c a k w = (Ok v, w1)) by (vm_compute; reflexivity)
  end.
  split; [exact E|]. split; [vm_compute; reflexivity|].
  pose proof (fun Hs Hown => Singleton_returns_cached _ _ _ _ _ _ Hs Hown E) as T.
  destruct (T eq_refl eq_refl) as (Hc & _ & Hlater).
  exact (Hlater _ [VInt 7] [("x", VStr "ex")] Hc).
Defined.

(** C10 as stated fails.  With the instance of [MyVector] in the cache, the
    call [MyVector(cls=1)] raises: the keyword does not bind in
    [Singleton.__call__].  And when [__new__] has built the first instance of
    [Twice], the call that its [__init__] makes returns another object. *)
Lemma Singleton_call_not_cached :
  (exists MyVector h1 v w1,
      cell33_class cpython36_object_names (empty_heap 100) = (Ok MyVector, h1)
      /\ instantiate MyVector [] [] (World h1 ∅) = (Ok v, w1)
      /\ w_instances w1 !! c_id MyVector = Some v
      /\ instantiate MyVector [] [("cls", VInt 1)] w1 =
         (Raise (TypeError "__call__() got multiple values for argument 'cls'"), w1))
  /\ (exists first w1 later w2,
        (lift (log (EvNew 100));; lift (object_new (info (Twice 100 1)) [] []))
          (empty_world 101) = (Ok first, w1)
        /\ instantiate (Twice 100 0) [VInt 0] []
             (World (Heap [] 102 [EvNew 100; EvInit 100]) ∅) = (Ok later, w2)
        /\ o_class first = 100%N /\ o_class later = 100%N
        /\ is_ later first = false).
Proof.
  split.
  - do 4 eexists. split; [reflexivity|]. split; [vm_compute; reflexivity|].
    split; vm_compute; reflexivity.
  - do 4 eexists. split; [vm_compute; reflexivity|]. split; [vm_compute; reflexivity|].
    repeat split; vm_compute; reflexivity.
Qed.

(** ** Calls through [MyMeta.__call__], and [MyClass2] *)

Section MyMetaCalls.

Implicit Types (cls : class) (args : list value) (kwargs : Dict.dict value)
  (w : world) (h : heap).

(** [MyMeta.__call__] refuses a keyword [cls]; otherwise it prints its line,
    lets [type.__call__] work, and prints what that returned; when
    [type.__call__] raises, the second line is not printed. *)
Lemma MyMeta_call_eq cls args kwargs w :
  MyMeta.__call__ cls args kwargs w =
  if Dict.mem kwargs "cls"
  then (Raise (TypeError "__call__() got multiple values for argument 'cls'"), w)
  else
    match type_call cls args kwargs
            (World (Heap (h_out (w_heap w) ++
                          [("MyMeta.__call__(cls=" +:+ str_class cls +:+ ", args=" +:+
                            Text.repr_args args +:+ ", kwargs=" +:+
                            Text.repr_kwargs kwargs) +:+ Text.nl])
                         (h_brk (w_heap w)) (h_log (w_heap w)))
                   (w_instances w)) with
    | (Ok self, w') =>
        (Ok self,
         World (Heap (h_out (w_heap w') ++
                      [("MyMeta.__call__ return: " +:+ " " +:+ str_instance self) +:+ Text.nl])
                     (h_brk (w_heap w')) (h_log (w_heap w')))
               (w_instances w'))
    | (Raise e, w') => (Raise e, w')
    end.
Proof.
  unfold MyMeta.__call__. rewrite taken_one.
  destruct (Dict.mem kwargs "cls"); [reflexivity|]. run_monad.
  destruct (type_call _ _ _ _) as [[self|e] w']; reflexivity.
Qed.

(** Whether the arguments bind does not depend on the name of the function,
    which only shows in the messages. *)
Lemma keywords_fname (f g : string) (slots : Dict.dict (option value)) kwargs
    (s : Dict.dict (option value)) :
  Bind.keywords f slots kwargs = Ok s -> Bind.keywords g slots kwargs = Ok s.
Proof.
  revert slots. induction kwargs as [|[k v] kwargs IH]; intros slots; simpl; [auto|].
  destruct (Dict.get slots k) as [[x|]|]; try discriminate. apply IH.
Qed.

Lemma bind_fname (f g : string) (ps : Bind.params) args kwargs (bound : Dict.dict value) :
  Bind.bind f ps args kwargs = Ok bound -> Bind.bind g ps args kwargs = Ok bound.
Proof.
  unfold Bind.bind.
  destruct (Bind.keywords f (Bind.positional ps args) kwargs) as [s|e] eqn:E; [|discriminate].
  rewrite (keywords_fname f g _ _ _ E).
  destruct (length ps <? length args)%nat; [discriminate|].
  destruct (Bind.fill ps s) as [b [|p lacking]]; [auto | discriminate].
Qed.

(** Keywords that bind name parameters. *)
Lemma get_set_slot (slots : Dict.dict (option value)) (k : string) (x : option value)
    (n : string) :
  Dict.get slots n = None -> Dict.get (Dict.set slots k x) n = None \/ n = k.
Proof.
  induction slots as [|[k0 v0] slots IH]; cbn [Dict.set Dict.get].
  - intros _. destruct (String.eqb_spec k n); [right; congruence | left; reflexivity].
  - destruct (String.eqb_spec k0 k) as [->|Hne]; cbn [Dict.get].
    + destruct (String.eqb_spec k n); [intros; right; congruence | auto].
    + destruct (String.eqb_spec k0 n); [discriminate | exact IH].
Qed.

Lemma set_keeps_None (slots : Dict.dict (option value)) (k : string) (x : option value)
    (n : string) :
  Dict.get slots n = None -> Dict.get slots k <> None ->
  Dict.get (Dict.set slots k x) n = None.
Proof.
  intros Hn Hk. destruct (get_set_slot slots k x n Hn) as [E| ->]; [exact E | contradiction].
Qed.

Lemma keywords_known (f : string) (slots : Dict.dict (option value)) kwargs
    (s : Dict.dict (option value)) (n : string) :
  Bind.keywords f slots kwargs = Ok s -> Dict.get slots n = None ->
  Dict.mem kwargs n = false.
Proof.
  unfold Dict.mem. revert slots.
  induction kwargs as [|[k v] kwargs IH]; intros slots; cbn [Bind.keywords Dict.get];
    [reflexivity|].
  destruct (Dict.get slots k) as [[x|]|] eqn:Hk; try discriminate. intros E Hn.
  destruct (String.eqb_spec k n) as [->|Hne]; [congruence|].
  apply (IH _ E). apply set_keeps_None; congruence.
Qed.

Lemma positional_get (ps : Bind.params) args (n : string) :
  Dict.get (Bind.positional ps args) n = None <-> ~ In n (map fst ps).
Proof.
  revert args. induction ps as [|[p d] ps IH]; intros args; cbn [Bind.positional map fst].
  - split; [intros _ [] | reflexivity].
  - destruct args as [|a args]; cbn [Dict.get]; destruct (String.eqb_spec p n) as [->|Hne];
      cbn [In]; rewrite ?IH; split; try discriminate; intuition congruence.
Qed.

Lemma bind_known (f : string) (ps : Bind.params) args kwargs (bound : Dict.dict value)
    (n : string) :
  Bind.bind f ps args kwargs = Ok bound -> ~ In n (map fst ps) -> Dict.mem kwargs n = false.
Proof.
  unfold Bind.bind.
  destruct (Bind.keywords f (Bind.positional ps args) kwargs) as [s|e] eqn:E; [|discriminate].
  intros _ Hn. apply (keywords_known _ _ _ _ _ E). apply positional_get, Hn.
Qed.

Lemma cell26_eq h :
  exists MyClass2,
    cell26 h =
    (Ok MyClass2,
     Heap (h_out h ++
           map (fun line => line +:+ Text.nl)
             ["Meta.__prepare__(mcs=<class '__main__.MyMeta'>, name=MyClass2, bases=(), **{'extra': 1}";
              "MyMeta.__new__(mcs=<class '__main__.MyMeta'>, name=MyClass2, bases=(), attrs=['__module__', '__qualname__', '__new__', '__init__', '__classcell__'], **{'extra': 1}";
              "MyMeta.__init__(cls=<class '__main__.MyClass2'>, name=MyClass2, bases=(), attrs=['__module__', '__qualname__', '__new__', '__init__', '__classcell__'], **{'extra': 1}";
              "Class MyClass created"])
          (h_brk h + 1) (h_log h))
    /\ c_meta MyClass2 = MMyMeta
    /\ c_new MyClass2 = Some MyClass2.__new__
    /\ c_init MyClass2 = Some MyClass2.__init__
    /\ c_abstract MyClass2 = []
    /\ str_class MyClass2 = "<class '__main__.MyClass2'>"
    /\ type_path (info MyClass2) = "__main__.MyClass2".
Proof.
  eexists. split.
  - unfold cell26, class_stmt, metaclass_of, MyMeta.__prepare__, MyMeta.__new__,
      MyMeta.__init__, type_new.
    repeat match goal with
           | |- context [Bind.taken ?f ?names ?kw] =>
               change (Bind.taken f names kw) with (Ok tt : result unit)
           end.
    run_monad. cbn [h_out h_brk h_log].
    rewrite <- !app_assoc. reflexivity.
  - repeat split; reflexivity.
Qed.

(** [type.__call__] on a class with the constructors of [MyClass2], for
    arguments that bind to [s, a=0, b=0]. *)
Lemma MyClass2_type_call cls args kwargs w (bound : Dict.dict value) :
  c_new cls = Some MyClass2.__new__ -> c_init cls = Some MyClass2.__init__ ->
  c_abstract cls = [] ->
  Bind.bind "__new__" MyClass2.params args kwargs = Ok bound ->
  type_call cls args kwargs w =
  let a := Instance (h_brk (w_heap w)) (c_id cls) (type_path (info cls)) [] in
  (Ok (setattr (setattr a "a" (Bind.arg bound "a")) "b" (Bind.arg bound "b")),
   World (Heap (h_out (w_heap w) ++
                [("MyClass2.__new__(cls=" +:+ str_class cls +:+
                  ", s=" +:+ Text.str (Bind.arg bound "s") +:+
                  ", a=" +:+ Text.str (Bind.arg bound "a") +:+
                  ", b=" +:+ Text.str (Bind.arg bound "b") +:+ ")") +:+ Text.nl;
                 ("MyClass2.__init__(self=" +:+ str_instance a +:+
                  ", s=" +:+ Text.str (Bind.arg bound "s") +:+
                  ", a=" +:+ Text.str (Bind.arg bound "a") +:+
                  ", b=" +:+ Text.str (Bind.arg bound "b") +:+ ")") +:+ Text.nl])
               (h_brk (w_heap w) + 1)
               (h_log (w_heap w) ++ [EvNew (c_id cls); EvInit (c_id cls)]))
         (w_instances w)).
Proof.
  intros Hnew Hinit Habs Hbind. unfold type_call, str_class. rewrite Hnew, Hinit.
  unfold MyClass2.__new__, MyClass2.__init__.
  rewrite Hbind, (bind_fname "__new__" "__init__" _ _ _ _ Hbind).
  unfold object_new, info. rewrite Habs, Hnew, Hinit.
  run_call. rewrite N.eqb_refl. run_call.
  rewrite <- ?app_assoc. reflexivity.
Qed.

(** When the arguments do not bind, [__new__] raises before it prints or
    allocates. *)
Lemma MyClass2_type_call_fails cls args kwargs w (e : exn) :
  c_new cls = Some MyClass2.__new__ ->
  Bind.bind "__new__" MyClass2.params args kwargs = Raise e ->
  type_call cls args kwargs w =
  (Raise e,
   World (Heap (h_out (w_heap w)) (h_brk (w_heap w)) (h_log (w_heap w) ++ [EvNew (c_id cls)]))
         (w_instances w)).
Proof.
  intros Hnew Hbind. unfold type_call. rewrite Hnew.
  unfold MyClass2.__new__. rewrite Hbind. run_monad. reflexivity.
Qed.

End MyMetaCalls.

(** ** What a call of a toy class changes *)

Section Built.

Implicit Types (cls : class) (args : list value) (kwargs : Dict.dict value) (w : world).

Lemma grown_refl (h : heap) : grown h h.
Proof.
  split; [exists []; symmetry; apply app_nil_r|].
  split; [left; reflexivity | exists []; symmetry; apply app_nil_r].
Qed.

Lemma built_refl w : built w w.
Proof. split; [reflexivity | apply grown_refl]. Qed.

Ltac show_built :=
  cbn [snd w_heap w_instances h_out h_brk h_log];
  first
    [ apply built_refl
    | split; [reflexivity|];
      cbn [snd w_heap w_instances h_out h_brk h_log];
      split; [first [ exists []; symmetry; apply app_nil_r
                    | rewrite <- ?app_assoc; eexists; reflexivity ]|];
      split; [first [left; reflexivity | right; reflexivity]|];
      first [ exists []; symmetry; apply app_nil_r
            | rewrite <- ?app_assoc; eexists; reflexivity ] ].

Lemma excess_args_false args kwargs :
  excess_args args kwargs = false -> args = [] /\ kwargs = [].
Proof. destruct args, kwargs; try discriminate. auto. Qed.

Lemma default_built cls args kwargs w :
  c_new cls = None -> c_init cls = None -> c_abstract cls = [] ->
  built w (type_call cls args kwargs w).2.
Proof.
  intros Hnew Hinit Habs. destruct (excess_args args kwargs) eqn:Hex.
  - rewrite (default_call_excess _ _ _ _ Hnew Hinit Hex). show_built.
  - apply excess_args_false in Hex as [-> ->].
    rewrite (default_call _ _ Hnew Hinit Habs). show_built.
Qed.

Lemma MyClass1_built cls args kwargs w :
  c_new cls = Some MyClass1.__new__ -> c_init cls = Some MyClass1.__init__ ->
  c_abstract cls = [] ->
  built w (type_call cls args kwargs w).2.
Proof.
  intros Hnew Hinit Habs.
  destruct (Dict.mem kwargs "cls") eqn:Hcls;
    [rewrite (MyClass1_call_cls _ _ _ _ Hnew Hcls); show_built|].
  destruct (Dict.mem kwargs "self") eqn:Hself.
  - rewrite (MyClass1_call_self _ _ _ _ Hnew Hinit Habs Hcls Hself). show_built.
  - rewrite (MyClass1_call _ _ _ _ Hnew Hinit Habs Hcls Hself). show_built.
Qed.

Lemma MyClass2_built cls args kwargs w :
  c_new cls = Some MyClass2.__new__ -> c_init cls = Some MyClass2.__init__ ->
  c_abstract cls = [] ->
  built w (MyMeta.__call__ cls args kwargs w).2.
Proof.
  intros Hnew Hinit Habs. rewrite MyMeta_call_eq.
  destruct (Dict.mem kwargs "cls"); [show_built|].
  destruct (Bind.bind "__new__" MyClass2.params args kwargs) as [bound|e] eqn:Hbind.
  - rewrite (MyClass2_type_call _ _ _ _ _ Hnew Hinit Habs Hbind). cbv zeta. show_built.
  - rewrite (MyClass2_type_call_fails _ _ _ _ _ Hnew Hbind). show_built.
Qed.

End Built.

Lemma MyVector_call_fills_cache :
  exists MyVector h1 v w',
    cell33_class cpython36_object_names (empty_heap 100) = (Ok MyVector, h1)
    /\ instantiate MyVector [] [] (World h1 ∅) = (Ok v, w')
    /\ w_instances (World h1 ∅) !! c_id MyVector = None
    /\ w_instances w' !! c_id MyVector = Some v
    /\ w_instances w' <> w_instances (World h1 ∅).
Proof.
  do 4 eexists. split; [reflexivity|]. split; [vm_compute; reflexivity|].
  split; [reflexivity|]. split; [vm_compute; reflexivity|].
  intros E. apply (f_equal (fun m => m !! 100%N)) in E. vm_compute in E. discriminate E.
Qed.

(** C5, as the code has it.  A call of [Car], of [MyClass1], of [MyClass2]
    or of the [MyVector] of cells 19 and 31, with any arguments, changes
    nothing that existed before it: [Singleton._instances] is as it was, and
    the call has only printed lines, allocated at most the one new object and
    dispatched constructors.  The one exception is the [MyVector] of cell 33:
    its call likewise only prints, allocates at most one object and
    dispatches constructors, but when the cache does not hold an instance of
    the class and the call returns, the returned instance has been stored in
    [Singleton._instances] under the class, and nothing else of the cache has
    changed.  When the cache holds the instance the call changes nothing at
    all, and when the call raises the cache is as it was. *)
Theorem toy_classes_and_the_cache (object_names : list string) (h : heap) :
  (exists Vehicle Car h1,
      cell5_classes h = (Ok (Vehicle, Car), h1)
      /\ forall args kwargs w, built w (instantiate Car args kwargs w).2)
  /\ (exists MyVector h1,
        cell19 object_names h = (Ok MyVector, h1)
        /\ forall args kwargs w, built w (instantiate MyVector args kwargs w).2)
  /\ (exists MyVector h1,
        cell31 object_names h = (Ok MyVector, h1)
        /\ forall args kwargs w, built w (instantiate MyVector args kwargs w).2)
  /\ (exists MyClass1 h1,
        cell21 h = (Ok MyClass1, h1)
        /\ forall args kwargs w, built w (instantiate MyClass1 args kwargs w).2)
  /\ (exists MyClass2 h1,
        cell26 h = (Ok MyClass2, h1)
        /\ forall args kwargs w, built w (instantiate MyClass2 args kwargs w).2)
  /\ (exists MyVector h1,
        cell33_class object_names h = (Ok MyVector, h1)
        /\ forall args kwargs w,
             grown (w_heap w) (w_heap (instantiate MyVector args kwargs w).2)
             /\ (forall v, w_instances w !! c_id MyVector = Some v ->
                   instantiate MyVector args kwargs w =
                   (if Dict.mem kwargs "cls"
                    then Raise (TypeError "__call__() got multiple values for argument 'cls'")
                    else Ok v,
                    w))
             /\ (forall v w', w_instances w !! c_id MyVector = None ->
                              instantiate MyVector args kwargs w = (Ok v, w') ->
                              w_instances w' = <[c_id MyVector := v]> (w_instances w))
             /\ (forall e w', instantiate MyVector args kwargs w = (Raise e, w') ->
                              w_instances w' = w_instances w)).
Proof.
  split; [|split; [|split; [|split; [|split]]]].
  - destruct (cell5_classes_eq h) as (Vehicle & Car & E & Hm & Hn & Ha & Hnew & Hinit).
    exists Vehicle, Car. eexists. split; [exact E|]. intros args kwargs w.
    rewrite Car_raises by assumption.
    split; [reflexivity|]. cbn [snd w_heap h_out h_brk h_log].
    split; [exists []; symmetry; apply app_nil_r|].
    split; [left; reflexivity | eexists; reflexivity].
  - do 2 eexists. split; [reflexivity|]. intros args kwargs w.
    apply default_built; reflexivity.
  - do 2 eexists. split; [reflexivity|]. intros args kwargs w.
    apply default_built; reflexivity.
  - destruct (cell21_eq h) as (cls & E & Hm & Hnew & Hinit & Habs & _).
    exists cls. eexists. split; [exact E|]. intros args kwargs w.
    unfold instantiate. rewrite Hm. apply MyClass1_built; assumption.
  - destruct (cell26_eq h) as (cls & E & Hm & Hnew & Hinit & Habs & _).
    exists cls. eexists. split; [exact E|]. intros args kwargs w.
    unfold instantiate. rewrite Hm. apply MyClass2_built; assumption.
  - destruct (cell33_class_eq object_names h)
      as (cls & E & Hid & Hm & Hnew & Hinit & Habs & Hown).
    assert (Hs : is_singleton cls = true) by (unfold is_singleton; rewrite Hm; reflexivity).
    exists cls. eexists. split; [exact E|]. intros args kwargs w.
    rewrite instantiate_singleton, Singleton_call_eq, Hown by exact Hs.
    pose proof (default_built cls args kwargs w Hnew Hinit Habs) as [Hkeep Hgrown].
    split; [|split; [|split]].
    + destruct (Dict.mem kwargs "cls"); [apply grown_refl|].
      destruct (w_instances w !! c_id cls); [apply grown_refl|].
      destruct (type_call cls args kwargs w) as [[o|e] w']; exact Hgrown.
    + intros v Hc. rewrite Hc. destruct (Dict.mem kwargs "cls"); reflexivity.
    + intros v w' Hc. rewrite Hc. destruct (Dict.mem kwargs "cls"); [discriminate|].
      destruct (type_call cls args kwargs w) as [[o|e] w1]; intros [= <- <-].
      cbn [w_instances snd] in *. rewrite Hkeep. reflexivity.
    + intros e w'. destruct (Dict.mem kwargs "cls"); [intros [= _ <-]; reflexivity|].
      destruct (w_instances w !! c_id cls) as [cached|]; [discriminate|].
      destruct (type_call cls args kwargs w) as [[o|e'] w1]; intros [= <- <-].
      exact Hkeep.
Qed.

Lemma toy_classes_and_the_cache_witness :
  exists MyVector h1 v w',
    cell33_class cpython36_object_names (empty_heap 100) = (Ok MyVector, h1)
    /\ instantiate MyVector [] [] (World h1 ∅) = (Ok v, w')
    /\ w_instances w' = <[c_id MyVector := v]> ∅.
Proof.
  destruct (toy_classes_and_the_cache cpython36_object_names (empty_heap 100))
    as (_ & _ & _ & _ & _ & cls & h1 & E & Hcls).
  exists cls, h1.
  destruct (instantiate cls [] [] (World h1 ∅)) as [[v|e] w'] eqn:E1.
  - exists v, w'. split; [exact E|]. split; [reflexivity|].
    refine (proj1 (proj2 (proj2 (Hcls [] [] (World h1 ∅)))) v w' _ E1).
    vm_compute in E. injection E as <- <-. reflexivity.
  - exfalso. vm_compute in E. injection E as <- <-. vm_compute in E1. discriminate E1.
Defined.

(** * Further properties *)

(** ** [convert] is one pass *)

Section OnePass.

Import Snake.

Lemma small_not_capital (c : ascii) : small c = true -> capital c = false.
Proof. destruct c as [[] [] [] [] [] [] [] []]; vm_compute; congruence. Qed.

Lemma small_is_small_or_digit (c : ascii) : small c = true -> small_or_digit c = true.
Proof. destruct c as [[] [] [] [] [] [] [] []]; vm_compute; congruence. Qed.

Lemma capital_not_small_or_digit (c : ascii) : capital c = true -> small_or_digit c = false.
Proof. destruct c as [[] [] [] [] [] [] [] []]; vm_compute; congruence. Qed.

Lemma span_spec (cs : Re.cset) (s run rest : list ascii) :
  Re.span cs s = (run, rest) ->
  s = run ++ rest /\ Forall (fun c => Re.cset_mem cs c = true) run.
Proof.
  revert run rest. induction s as [|c t IH]; intros run rest; simpl.
  - intros [= <- <-]. split; [reflexivity | constructor].
  - destruct (Re.cset_mem cs c) eqn:E.
    + destruct (Re.span cs t) as [run' rest']. intros [= <- <-].
      destruct (IH _ _ eq_refl) as [-> Hr]. split; [reflexivity | constructor; assumption].
    + intros [= <- <-]. split; [reflexivity | constructor].
Qed.

Lemma span_first (cs : Re.cset) (s : list ascii) :
  match fst (Re.span cs s) with
  | [] => match head s with Some d => Re.cset_mem cs d | None => false end = false
  | _ :: _ => match head s with Some d => Re.cset_mem cs d | None => false end = true
  end.
Proof.
  destruct s as [|c t]; simpl; [reflexivity|].
  destruct (Re.cset_mem cs c) eqn:E; [|reflexivity].
  destruct (Re.span cs t). reflexivity.
Qed.

Lemma sub_scan_skip (r : Re.regex) (tpl : list Re.titem) (l rest : list ascii) :
  Re.sub_scan r tpl (l ++ rest) (length l) = Re.sub_scan r tpl rest 0.
Proof.
  induction l as [|c l IH]; simpl; [|exact IH].
  destruct rest; reflexivity.
Qed.

Lemma pattern1_short (c : ascii) : Re.match_at pattern1 [c] = None.
Proof. unfold Re.match_at, pattern1. simpl. destruct (negb _); reflexivity. Qed.

Lemma pattern2_short (c : ascii) : Re.match_at pattern2 [c] = None.
Proof. unfold Re.match_at, pattern2. simpl. destruct (_ || _); reflexivity. Qed.

Lemma sub_scan_step (r : Re.regex) (tpl : list Re.titem) (c : ascii) (t : list ascii) :
  Re.sub_scan r tpl (c :: t) 0 =
  match Re.match_at r (c :: t) with
  | Some m => Re.expand tpl m ++ Re.sub_scan r tpl t (pred (length (Re.m_text m)))
  | None => c :: Re.sub_scan r tpl t 0
  end.
Proof. reflexivity. Qed.

(** The second substitution never skips a place: it is [between]. *)
Lemma pass2 (s : list ascii) : Re.sub_scan pattern2 repl s 0 = between s.
Proof.
  assert (H : forall n s, (length s <= n)%nat -> Re.sub_scan pattern2 repl s 0 = between s).
  { clear s. induction n as [|n IH]; intros [|x [|d t]] Hlen; simpl in Hlen; try lia;
      try reflexivity.
    - rewrite sub_scan_step, pattern2_short. reflexivity.
    - rewrite sub_scan_step, pattern2_match.
      fold (small_or_digit x). fold (capital d).
      cbn [between head gap]. destruct (small_or_digit x && capital d) eqn:E.
      + apply andb_true_iff in E as [_ Hd].
        change (Re.expand repl (Re.MRes [x; d] [[x]; [d]] t)) with [x; "_"%char; d].
        change (Re.sub_scan pattern2 repl (d :: t)
                  (pred (length (Re.m_text (Re.MRes [x; d] [[x]; [d]] t)))))
          with (Re.sub_scan pattern2 repl t 0).
        rewrite (IH t) by lia.
        destruct t as [|e t]; cbn [head gap];
          rewrite ?(capital_not_small_or_digit d Hd); reflexivity.
      + rewrite (IH (d :: t)) by (simpl; lia). reflexivity. }
  apply (H (length s)). lia.
Qed.

Lemma head_pass1 (s : list ascii) : head (Re.sub_scan pattern1 repl s 0) = head s.
Proof.
  destruct s as [|c [|d t]]; [reflexivity| |].
  - rewrite sub_scan_step, pattern1_short. reflexivity.
  - rewrite sub_scan_step, pattern1_match.
    destruct (_ && _); [|reflexivity].
    destruct (Re.span _ t) as [[|x run] rest]; reflexivity.
Qed.

Lemma between_run (r : list ascii) (y : ascii) (u : list ascii) :
  Forall (fun c => small c = true) (r ++ [y]) ->
  between (r ++ y :: u) = r ++ y :: gap y (head u) ++ between u.
Proof.
  induction r as [|z r IH]; intros Hs; [reflexivity|].
  inversion Hs as [|? ? Hz Hr]; subst. cbn [app between]. rewrite (IH Hr).
  assert (Hn : exists n, head (r ++ y :: u) = Some n /\ small n = true).
  { destruct r as [|n r]; simpl.
    - exists y. inversion Hr; subst. auto.
    - exists n. inversion Hr; subst. auto. }
  destruct Hn as (n & -> & Hn). cbn [gap].
  rewrite (small_not_capital n Hn), andb_false_r. reflexivity.
Qed.

Lemma underscored_run (p : option ascii) (r : list ascii) (y : ascii) (u : list ascii) :
  Forall (fun c => small c = true) (r ++ [y]) ->
  underscored p (r ++ y :: u) = r ++ y :: underscored (Some y) u.
Proof.
  revert p. induction r as [|z r IH]; intros p Hs; inversion Hs as [|? ? Hz Hr]; subst;
    cbn [app underscored]; unfold breaks at 1.
  - rewrite (small_not_capital y Hz). reflexivity.
  - rewrite (small_not_capital z Hz), (IH _ Hr). reflexivity.
Qed.

Lemma breaks_None (c : ascii) (next : option ascii) : breaks None c next = false.
Proof. unfold breaks. apply andb_false_r. Qed.

Lemma underscored_Some (p : ascii) (t : list ascii) :
  underscored (Some p) t =
  match t with
  | d :: t' => if breaks (Some p) d (head t') then ["_"%char] else []
  | [] => []
  end ++ underscored None t.
Proof.
  destruct t as [|d t']; [reflexivity|]. cbn [underscored].
  unfold breaks at 3. rewrite andb_false_r. reflexivity.
Qed.

(** The two substitutions one after the other are one pass. *)
Lemma one_pass (s : list ascii) :
  between (Re.sub_scan pattern1 repl s 0) = underscored None s.
Proof.
  assert (H : forall n s, (length s <= n)%nat ->
                          between (Re.sub_scan pattern1 repl s 0) = underscored None s).
  { clear s. induction n as [|n IH]; intros [|c [|d t]] Hlen; simpl in Hlen; try lia;
      try reflexivity.
    - cbn [Re.sub_scan]. rewrite pattern1_short. cbn. unfold breaks.
      rewrite andb_false_r. reflexivity.
    - assert (Hno :
        (not_newline c && capital d && is_small (head t) = false) ->
        between (c :: Re.sub_scan pattern1 repl (d :: t) 0) = underscored None (c :: d :: t)).
      { intros Hc. cbn [between]. rewrite head_pass1, (IH (d :: t)) by (simpl; lia).
        cbn [underscored head gap].
        rewrite !breaks_None.
        assert (E : small_or_digit c && capital d = breaks (Some c) d (head t)).
        { unfold breaks. destruct (small_or_digit c), (capital d), (not_newline c),
            (is_small (head t)); simpl in *; congruence. }
        rewrite E. reflexivity. }
      rewrite sub_scan_step, pattern1_match.
      change (negb (Ascii.eqb c "010"%char)) with (not_newline c).
      change (Re.cset_mem (Re.CRange "A"%char "Z"%char) d) with (capital d).
      pose proof (span_first (Re.CRange "a"%char "z"%char) t) as Hfirst.
      change (match head t with
              | Some d => Re.cset_mem (Re.CRange "a"%char "z"%char) d
              | None => false
              end) with (is_small (head t)) in Hfirst.
      destruct (not_newline c && capital d) eqn:Hcd; [|apply Hno; reflexivity].
      destruct (Re.span (Re.CRange "a"%char "z"%char) t) as [[|x run] rest] eqn:Hspan;
        cbn [fst] in Hfirst.
      + apply Hno. rewrite Hfirst. reflexivity.
      + apply andb_true_iff in Hcd as [Hc Hd].
        destruct (span_spec _ _ _ _ Hspan) as [-> Hrun].
        change (fun c => Re.cset_mem (Re.CRange "a"%char "z"%char) c = true)
          with (fun c => small c = true) in Hrun.
        change (Re.expand repl (Re.MRes (c :: d :: x :: run) [[c]; d :: x :: run] rest))
          with ([c] ++ ["_"%char] ++ (d :: x :: run) ++ []).
        change (Re.sub_scan pattern1 repl (d :: (x :: run) ++ rest)
                  (pred (length (Re.m_text
                     (Re.MRes (c :: d :: x :: run) [[c]; d :: x :: run] rest)))))
          with (Re.sub_scan pattern1 repl ((x :: run) ++ rest) (length (x :: run))).
        rewrite sub_scan_skip, app_nil_r.
        destruct (exists_last (l := x :: run)) as (r & y & Er); [discriminate|].
        rewrite Er in *. clear Er x run.
        assert (Hx : exists n0, head (r ++ y :: Re.sub_scan pattern1 repl rest 0) = Some n0
                                /\ head (r ++ y :: rest) = Some n0 /\ small n0 = true).
        { destruct r as [|n0 r]; simpl.
          - exists y. inversion Hrun; subst. auto.
          - exists n0. inversion Hrun; subst. auto. }
        destruct Hx as (n0 & Hh1 & Hh2 & Hn0).
        assert (Hy : small y = true).
        { rewrite List.Forall_forall in Hrun. apply Hrun, in_or_app. right. left. reflexivity. }
        cbn [app]. rewrite <- !(app_assoc r [y]). cbn [app].
        (* left: the text after the first substitution, read by the second *)
        assert (L : between (c :: "_"%char :: d :: r ++ y :: Re.sub_scan pattern1 repl rest 0)
                    = c :: "_"%char :: d :: r ++ y :: gap y (head rest) ++ underscored None rest).
        { cbn [between head]. rewrite Hh1. cbn [gap].
          rewrite (small_not_capital n0 Hn0).
          change (capital "_"%char) with false.
          change (small_or_digit "_"%char) with false.
          rewrite ?andb_false_r. cbn [andb app].
          rewrite (between_run r y _ Hrun), head_pass1.
          rewrite (IH rest) by (rewrite !length_app in Hlen; simpl in Hlen; lia).
          reflexivity. }
        (* right: the one pass over the name *)
        assert (R : underscored None (c :: d :: r ++ y :: rest)
                    = c :: "_"%char :: d :: r ++ y :: gap y (head rest) ++ underscored None rest).
        { cbn [underscored head]. rewrite Hh2, breaks_None. cbn [app].
          assert (B : breaks (Some c) d (Some n0) = true).
          { unfold breaks, is_small. rewrite Hd, Hc, Hn0. cbn [andb]. apply orb_true_r. }
          rewrite B. cbn [app].
          rewrite (underscored_run _ r y _ Hrun), underscored_Some.
          do 4 f_equal. f_equal.
          destruct rest as [|e rest']; [reflexivity|]. cbn [head gap]. unfold breaks.
          rewrite (small_is_small_or_digit y Hy). cbn [andb orb].
          rewrite andb_true_r. reflexivity. }
        rewrite L, R. reflexivity. }
  apply (H (length s)). lia.
Qed.

Lemma convert_snake_case (s : string) : convert s = snake_case s.
Proof.
  unfold convert, snake_case, Re.sub.
  rewrite list_ascii_of_string_of_list_ascii, pass2, one_pass. reflexivity.
Qed.

End OnePass.

(** X1: [convert] is one pass over the name: an underscore goes before every
    capital A-Z that follows a small letter or a digit, or that follows any
    character but a newline and precedes a small letter; then the whole is put
    in lower case. *)
Theorem convert_one_pass (s : string) : convert s = Snake.snake_case s.
Proof. apply convert_snake_case. Qed.

(** ** What [convert] keeps *)

Section ConvertKeeps.

Import Snake.

Lemma chars_snake_case (s : string) :
  Str.chars (snake_case s) = map Str.lower_char (underscored None (Str.chars s)).
Proof.
  unfold snake_case, Str.lower. rewrite !list_ascii_of_string_of_list_ascii. reflexivity.
Qed.

Lemma lower_char_underscore (c : ascii) :
  Ascii.eqb (Str.lower_char c) "_"%char = Ascii.eqb c "_"%char.
Proof. destruct c as [[] [] [] [] [] [] [] []]; vm_compute; reflexivity. Qed.

Lemma filter_underscored (prev : option ascii) (l : list ascii) :
  List.filter (fun c => negb (Ascii.eqb c "_"%char)) (underscored prev l) =
  List.filter (fun c => negb (Ascii.eqb c "_"%char)) l.
Proof.
  revert prev. induction l as [|c t IH]; intros prev; [reflexivity|].
  cbn [underscored]. rewrite List.filter_app. cbn [List.filter]. rewrite IH.
  destruct (breaks prev c (head t)); reflexivity.
Qed.

Lemma filter_map_lower (l : list ascii) :
  List.filter (fun c => negb (Ascii.eqb c "_"%char)) (map Str.lower_char l) =
  map Str.lower_char (List.filter (fun c => negb (Ascii.eqb c "_"%char)) l).
Proof.
  induction l as [|c t IH]; [reflexivity|]. cbn [map List.filter].
  rewrite lower_char_underscore, IH. destruct (negb _); reflexivity.
Qed.

Lemma length_underscored (prev : option ascii) (l : list ascii) :
  (length l <= length (underscored prev l)
   <= length l + length (List.filter capital l))%nat.
Proof.
  revert prev. induction l as [|c t IH]; intros prev; [simpl; lia|].
  cbn [underscored List.filter]. rewrite length_app. specialize (IH (Some c)).
  unfold breaks. destruct (capital c); cbn [andb length].
  - destruct (match prev with Some _ => _ | None => _ end); cbn [length]; lia.
  - cbn [length]. lia.
Qed.

Lemma length_chars (s : string) : length (Str.chars s) = String.length s.
Proof. induction s as [|c s IH]; simpl; [reflexivity | rewrite IH; reflexivity]. Qed.

(** No underscore goes before the first character, and none inside a part
    without capitals A-Z. *)
Lemma underscored_plain_prefix (p t : list ascii) :
  Forall (fun c => capital c = false) p ->
  exists u, underscored None (p ++ t) = p ++ u.
Proof.
  generalize (@None ascii) as prev. induction p as [|c p IH]; intros prev Hp.
  - eexists. reflexivity.
  - inversion Hp as [|? ? Hc Hp']; subst. cbn [app underscored]. unfold breaks at 1.
    rewrite Hc. cbn [andb app]. destruct (IH (Some c) Hp') as (u & ->).
    eexists. reflexivity.
Qed.

Lemma upper_not_capital (c : ascii) : Str.is_upper c = false -> capital c = false.
Proof. apply not_upper_not_capital. Qed.

Lemma convert_prefix (p t : string) :
  Str.upper_free p -> exists u, convert (p +:+ t) = p +:+ u.
Proof.
  intros Hp. rewrite convert_snake_case. unfold Snake.snake_case, Str.lower.
  rewrite list_ascii_of_string_of_list_ascii.
  assert (Hc : Forall (fun c => Snake.capital c = false) (Str.chars p)).
  { eapply List.Forall_impl; [|exact Hp]. intros c. apply upper_not_capital. }
  assert (Happ : Str.chars (p +:+ t) = Str.chars p ++ Str.chars t).
  { clear. induction p as [|c p IH]; simpl; [reflexivity | rewrite IH; reflexivity]. }
  rewrite Happ. destruct (underscored_plain_prefix _ (Str.chars t) Hc) as (u & ->).
  rewrite map_app, (map_lower_plain _ Hp).
  exists (Str.of_chars (map Str.lower_char u)).
  clear. induction p as [|c p IH]; simpl; [reflexivity | rewrite IH; reflexivity].
Qed.

Lemma dunder_split (k : string) :
  Str.startswith k "__" = true -> exists t, k = "__" +:+ t.
Proof.
  unfold Str.startswith. destruct k as [|a [|b k]]; cbn [String.prefix]; intros Hd;
    try discriminate Hd.
  - destruct (Ascii.ascii_dec "_"%char a); discriminate Hd.
  - destruct (Ascii.ascii_dec "_"%char a); [|discriminate Hd].
    destruct (Ascii.ascii_dec "_"%char b); [|discriminate Hd].
    subst. exists k. reflexivity.
Qed.

(** A name that starts with two underscores still does after [convert]. *)
Lemma convert_stays_dunder (k : string) :
  Str.startswith k "__" = true -> Str.startswith (convert k) "__" = true.
Proof.
  intros Hk. destruct (dunder_split k Hk) as (t & ->).
  destruct (convert_prefix "__" t) as (u & ->).
  - unfold Str.upper_free, Str.plain. simpl. repeat constructor.
  - unfold Str.startswith. simpl. destruct u; reflexivity.
Qed.

End ConvertKeeps.

(** X2: on a name [s] of code points below 256, [convert] only adds
    underscores and lowers the case: without its underscores, [convert(s)] is
    [s.lower()] without its underscores. *)
Theorem convert_keeps_letters (s : string) :
  Snake.letters (convert s) = Snake.letters (Str.lower s).
Proof.
  rewrite convert_snake_case. unfold Snake.letters.
  rewrite chars_snake_case, filter_map_lower, filter_underscored.
  unfold Str.lower. rewrite list_ascii_of_string_of_list_ascii, filter_map_lower.
  reflexivity.
Qed.

(** X3: [convert] never shortens a name of code points below 256, and
    lengthens it by at most one character for each capital A-Z in it. *)
Theorem convert_length (s : string) :
  (String.length s <= String.length (convert s)
   <= String.length s + length (List.filter Snake.capital (Str.chars s)))%nat.
Proof.
  rewrite convert_snake_case, <- !length_chars, chars_snake_case, length_map.
  apply length_underscored.
Qed.

(** X5: in a name of code points below 256, [convert] leaves in place a
    leading part without capital letters; in particular a name that starts
    with two underscores still does after [convert]. *)
Theorem convert_keeps_plain_prefix (p t : string) :
  Str.upper_free p ->
  (exists u, convert (p +:+ t) = p +:+ u)
  /\ (Str.dunder p -> Str.dunder (convert (p +:+ t))).
Proof.
  intros Hp. pose proof (convert_prefix p t Hp) as E.
  split; [exact E|].
  destruct E as (u & ->). unfold Str.dunder, Str.startswith.
  destruct p as [|a [|b p]]; cbn [String.prefix String.append]; intros Hd;
    try discriminate Hd.
  - destruct (Ascii.ascii_dec "_"%char a); discriminate Hd.
  - destruct (Ascii.ascii_dec "_"%char a); [|discriminate Hd].
    destruct (Ascii.ascii_dec "_"%char b); [|discriminate Hd].
    subst. simpl. destruct (p +:+ u); reflexivity.
Qed.

Lemma convert_keeps_plain_prefix_witness :
  Str.upper_free "__get" /\ Str.dunder "__get" /\ Str.dunder (convert ("__get" +:+ "Item__")).
Proof.
  assert (H : Str.upper_free "__get").
  { unfold Str.upper_free, Str.plain. simpl. repeat constructor. }
  split; [exact H|]. split; [reflexivity|].
  exact (proj2 (convert_keeps_plain_prefix "__get" "Item__" H) eq_refl).
Defined.

(** A leading double underscore can also come out of [convert]: a name such
    as [_Init__] is not a double-underscore name and is renamed to
    [__init__]. *)
Example convert_makes_dunder :
  Str.startswith "_Init__" "__" = false /\ convert "_Init__" = "__init__".
Proof. split; vm_compute; reflexivity. Qed.

(** ** [convert] on camelCase and PascalCase names *)

Section CamelCase.

Import Snake.

Lemma small_facts (c : ascii) :
  small c = true ->
  not_newline c = true /\ Str.lower_char c = c
  /\ capital (ascii_of_N (Str.code c - 32)) = true
  /\ not_newline (ascii_of_N (Str.code c - 32)) = true
  /\ Str.lower_char (ascii_of_N (Str.code c - 32)) = c.
Proof. destruct c as [[] [] [] [] [] [] [] []]; vm_compute; intuition congruence. Qed.

Lemma map_lower_small (w : list ascii) :
  Forall (fun c => small c = true) w -> map Str.lower_char w = w.
Proof.
  induction 1 as [|c w Hc _ IH]; [reflexivity|]. simpl.
  destruct (small_facts c Hc) as (_ & -> & _). rewrite IH. reflexivity.
Qed.

Lemma map_lower_capitalize (w : list ascii) :
  Forall (fun c => small c = true) w -> map Str.lower_char (capitalize w) = w.
Proof.
  destruct 1 as [|c w Hc Hw]; [reflexivity|]. simpl.
  destruct (small_facts c Hc) as (_ & _ & _ & _ & ->). rewrite (map_lower_small w Hw).
  reflexivity.
Qed.

Lemma join_chars_concat (sep w0 : list ascii) (ws : list (list ascii)) :
  join_chars sep (w0 :: ws) = w0 ++ concat (map (fun w => sep ++ w) ws).
Proof.
  revert w0. induction ws as [|w ws IH]; intros w0.
  - simpl. rewrite app_nil_r. reflexivity.
  - change (join_chars sep (w0 :: w :: ws)) with (w0 ++ sep ++ join_chars sep (w :: ws)).
    rewrite IH. simpl. rewrite <- !app_assoc. reflexivity.
Qed.

Lemma underscored_cons (p : option ascii) (c : ascii) (t : list ascii) :
  underscored p (c :: t) =
  (if breaks p c (head t) then ["_"%char] else []) ++ c :: underscored (Some c) t.
Proof. reflexivity. Qed.

(** After a small letter the one pass copies a word of small letters. *)
Lemma underscored_word (p : option ascii) (w u : list ascii) (y : ascii) :
  Forall (fun c => small c = true) w -> not_newline y = true ->
  exists y', not_newline y' = true /\
             underscored (Some y) (w ++ u) = w ++ underscored (Some y') u.
Proof.
  intros Hw Hy. destruct w as [|x r]; [exists y; auto|].
  destruct (exists_last (l := x :: r)) as (r' & y' & Er); [discriminate|].
  rewrite Er in *. exists y'. split.
  - assert (Hy' : small y' = true).
    { rewrite List.Forall_forall in Hw. apply Hw, in_or_app. right. left. reflexivity. }
    apply (small_facts y' Hy').
  - rewrite <- !(app_assoc r' [y']). cbn [app]. apply underscored_run, Hw.
Qed.

(** After any character but a newline, every capitalized word of two small
    letters or more gets its underscore. *)
Lemma underscored_humps (y : ascii) (ws : list (list ascii)) :
  not_newline y = true -> Forall (word 2) ws ->
  underscored (Some y) (humps ws) = concat (map (fun w => "_"%char :: capitalize w) ws).
Proof.
  revert y. induction ws as [|w ws IH]; intros y Hy Hws; [reflexivity|].
  inversion Hws as [|? ? [Hlen Hw] Hws']; subst.
  destruct w as [|c [|x r]]; simpl in Hlen; try lia.
  inversion Hw as [|? ? Hc Hxr]; subst.
  assert (Hx : small x = true) by (inversion Hxr; assumption).
  destruct (small_facts c Hc) as (_ & _ & HC & HCn & _).
  assert (Hhead : head ((x :: r) ++ humps ws) = Some x) by reflexivity.
  remember (x :: r) as xr eqn:Exr.
  unfold humps. cbn [map concat capitalize]. fold (humps ws).
  change ((ascii_of_N (Str.code c - 32) :: xr) ++ humps ws)
    with (ascii_of_N (Str.code c - 32) :: xr ++ humps ws).
  rewrite underscored_cons, Hhead.
  assert (B : breaks (Some y) (ascii_of_N (Str.code c - 32)) (Some x) = true).
  { unfold breaks, is_small. rewrite HC, Hy, Hx. cbn [andb]. apply orb_true_r. }
  rewrite B. cbn [app]. do 2 f_equal.
  destruct (underscored_word None xr (humps ws) _ Hxr HCn) as (y' & Hy' & ->).
  f_equal. apply IH; assumption.
Qed.

Lemma lower_of_chars (l : list ascii) :
  Str.lower (Str.of_chars l) = Str.of_chars (map Str.lower_char l).
Proof. unfold Str.lower. rewrite list_ascii_of_string_of_list_ascii. reflexivity. Qed.

Lemma map_lower_humps (ws : list (list ascii)) :
  Forall (word 2) ws ->
  map Str.lower_char (concat (map (fun w => "_"%char :: capitalize w) ws)) =
  concat (map (fun w => ["_"%char] ++ w) ws).
Proof.
  induction 1 as [|w ws [_ Hw] _ IH]; [reflexivity|].
  cbn [map concat app]. rewrite map_app, (map_lower_capitalize w Hw), IH. reflexivity.
Qed.

End CamelCase.

(** X4: on a camelCase name, a first word of small letters followed by
    capitalized words of two small letters or more, [convert] gives the words
    in lower case joined by underscores; so it does on the PascalCase name
    whose first word is capitalized as well. *)
Theorem convert_camel_case (w0 : list ascii) (ws : list (list ascii)) :
  Snake.word 1 w0 -> Forall (Snake.word 2) ws ->
  convert (Str.of_chars (w0 ++ Snake.humps ws)) =
    Str.of_chars (Snake.join_chars ["_"%char] (w0 :: ws))
  /\ convert (Str.of_chars (Snake.humps (w0 :: ws))) =
    Str.of_chars (Snake.join_chars ["_"%char] (w0 :: ws)).
Proof.
  intros [Hlen Hw0] Hws. rewrite !convert_snake_case. unfold Snake.snake_case.
  rewrite !list_ascii_of_string_of_list_ascii, !lower_of_chars, join_chars_concat.
  destruct w0 as [|c r]; [simpl in Hlen; lia|].
  inversion Hw0 as [|? ? Hc Hr]; subst.
  destruct (small_facts c Hc) as (Hcn & Hcl & HC & HCn & HCl).
  split; f_equal.
  - remember (c :: r) as w0 eqn:Ew0.
    destruct (exists_last (l := w0)) as (r' & y' & Er); [subst; discriminate|].
    rewrite Er in Hw0 |- *. rewrite <- (app_assoc r' [y']). cbn [app].
    rewrite (underscored_run None r' y' _ Hw0).
    assert (Hy' : Snake.small y' = true).
    { rewrite List.Forall_forall in Hw0. apply Hw0, in_or_app. right. left. reflexivity. }
    rewrite underscored_humps by (try apply (small_facts y' Hy'); exact Hws).
    change (r' ++ y' :: ?u) with (r' ++ [y'] ++ u). rewrite app_assoc, map_app.
    rewrite (map_lower_small _ Hw0), (map_lower_humps _ Hws). reflexivity.
  - unfold Snake.humps at 1. cbn [map concat Snake.capitalize]. fold (Snake.humps ws).
    change ((ascii_of_N (Str.code c - 32) :: r) ++ Snake.humps ws)
      with (ascii_of_N (Str.code c - 32) :: r ++ Snake.humps ws).
    rewrite underscored_cons, breaks_None. cbn [app map]. rewrite HCl. f_equal.
    destruct (underscored_word None r (Snake.humps ws) _ Hr HCn) as (y' & Hy' & ->).
    rewrite underscored_humps by assumption.
    rewrite map_app, (map_lower_small _ Hr), (map_lower_humps _ Hws). reflexivity.
Qed.

Lemma convert_camel_case_witness :
  convert "calculateCrossProduct" = "calculate_cross_product"
  /\ convert "CalculateCrossProduct" = "calculate_cross_product".
Proof.
  assert (W : forall w, (1 <= length (Str.chars w))%nat ->
                        forallb Snake.small (Str.chars w) = true ->
                        Snake.word 1 (Str.chars w)
                        /\ ((2 <= length (Str.chars w))%nat -> Snake.word 2 (Str.chars w))).
  { intros w Hl Hs. rewrite forallb_forall in Hs.
    split; [|intros Hl2]; (split; [assumption | apply List.Forall_forall; exact Hs]). }
  destruct (W "calculate" ltac:(simpl; lia) eq_refl) as [H0 _].
  destruct (W "cross" ltac:(simpl; lia) eq_refl) as [_ H1].
  destruct (W "product" ltac:(simpl; lia) eq_refl) as [_ H2].
  assert (Hws : Forall (Snake.word 2) [Str.chars "cross"; Str.chars "product"]).
  { apply List.Forall_cons; [apply H1; simpl; lia|].
    apply List.Forall_cons; [apply H2; simpl; lia|]. apply List.Forall_nil. }
  exact (convert_camel_case (Str.chars "calculate") [Str.chars "cross"; Str.chars "product"]
           H0 Hws).
Defined.

(** ** The dictionaries the metaclasses build *)

Section SnakeAttrs.

Context {V : Type}.
Implicit Types (d attrs acc : Dict.dict V) (f : string -> string).

Lemma get_set d (k : string) (v : V) (k' : string) :
  Dict.get (Dict.set d k v) k' = if String.eqb k k' then Some v else Dict.get d k'.
Proof.
  induction d as [|[k0 v0] d IH]; simpl.
  - destruct (String.eqb k k'); reflexivity.
  - destruct (String.eqb_spec k0 k) as [->|Hne]; simpl.
    + destruct (String.eqb_spec k k'); reflexivity.
    + rewrite IH. destruct (String.eqb_spec k0 k') as [->|]; [|reflexivity].
      destruct (String.eqb_spec k k'); [congruence | reflexivity].
Qed.

Lemma set_fresh d (k : string) (v : V) :
  ~ In k (Dict.keys d) -> Dict.set d k v = d ++ [(k, v)].
Proof.
  induction d as [|[k0 v0] d IH]; simpl; intros Hk; [reflexivity|].
  destruct (String.eqb_spec k0 k) as [->|Hne]; [tauto|]. rewrite IH by tauto. reflexivity.
Qed.

Lemma keys_set_NoDup d (k : string) (v : V) :
  List.NoDup (Dict.keys d) -> List.NoDup (Dict.keys (Dict.set d k v)).
Proof.
  induction d as [|[k0 v0] d IH]; simpl; intros Hd.
  - constructor; [intros [] | constructor].
  - inversion Hd as [|? ? Hk0 Hd']; subst.
    destruct (String.eqb_spec k0 k) as [->|Hne]; simpl; constructor; auto.
    intros H. apply (proj1 (keys_set d k v k0)) in H. destruct H as [H|H]; [tauto | congruence].
Qed.

Lemma length_set d (k : string) (v : V) :
  (length (Dict.set d k v) <= S (length d))%nat.
Proof.
  induction d as [|[k0 v0] d IH]; simpl; [lia|].
  destruct (String.eqb k0 k); simpl; lia.
Qed.

Lemma renamed_no_collision f attrs acc :
  List.NoDup (Dict.keys acc ++ map f (Dict.keys attrs)) ->
  renamed f attrs acc = acc ++ rename_keys f attrs.
Proof.
  unfold renamed, rename_keys. revert acc.
  induction attrs as [|[k v] attrs IH]; intros acc Hnd; simpl.
  - rewrite app_nil_r. reflexivity.
  - simpl in Hnd. assert (Hk : ~ In (f k) (Dict.keys acc)).
    { apply List.NoDup_remove_2 in Hnd. intros H. apply Hnd, in_or_app. left. exact H. }
    rewrite (set_fresh _ _ _ Hk), IH.
    + rewrite <- app_assoc. reflexivity.
    + unfold Dict.keys in *. rewrite map_app, <- app_assoc. exact Hnd.
Qed.

Lemma get_app d d' (k : string) :
  Dict.get (d ++ d') k = match Dict.get d k with Some v => Some v | None => Dict.get d' k end.
Proof.
  induction d as [|[k0 v0] d IH]; simpl; [reflexivity|].
  destruct (String.eqb k0 k); [reflexivity | exact IH].
Qed.

(** Of the items whose renamed key is [k], the last one is kept. *)
Lemma renamed_lookup f attrs acc (k : string) :
  Dict.get (renamed f attrs acc) k =
  match Dict.get (rev (rename_keys f attrs)) k with
  | Some v => Some v
  | None => Dict.get acc k
  end.
Proof.
  unfold renamed, rename_keys. revert acc.
  induction attrs as [|[k0 v0] attrs IH]; intros acc; simpl; [reflexivity|].
  rewrite IH, get_app, get_set. simpl.
  destruct (Dict.get (rev _) k); [reflexivity|].
  destruct (String.eqb (f k0) k); reflexivity.
Qed.

Lemma renamed_NoDup f attrs acc :
  List.NoDup (Dict.keys acc) -> List.NoDup (Dict.keys (renamed f attrs acc)).
Proof.
  unfold renamed. revert acc. induction attrs as [|[k0 v0] attrs IH]; intros acc Hacc;
    simpl; [exact Hacc|]. apply IH, keys_set_NoDup, Hacc.
Qed.

Lemma renamed_length f attrs acc :
  (length (renamed f attrs acc) <= length acc + length attrs)%nat.
Proof.
  unfold renamed. revert acc. induction attrs as [|[k0 v0] attrs IH]; intros acc; simpl;
    [lia|]. specialize (IH (Dict.set acc (f k0) v0)).
  pose proof (length_set acc (f k0) v0). lia.
Qed.

Lemma camel_to_snake_case_attrs_snake_name attrs :
  camel_to_snake_case_attrs attrs = renamed snake_name attrs [].
Proof. apply camel_to_snake_case_attrs_renamed. Qed.

Lemma rename_keys_id attrs : rename_keys (fun k => k) attrs = attrs.
Proof.
  unfold rename_keys. induction attrs as [|[k v] attrs IH]; simpl; [|rewrite IH]; reflexivity.
Qed.

Lemma keys_rename_keys f attrs : Dict.keys (rename_keys f attrs) = map f (Dict.keys attrs).
Proof. unfold rename_keys, Dict.keys. rewrite !map_map. reflexivity. Qed.

End SnakeAttrs.

(** X6: where no two attributes get the same name, the dictionary that
    [camel_to_snake_case] builds holds every attribute of the class body, in
    the order of the body, each value under its new name. *)
Theorem camel_to_snake_case_keeps_all {V} (attrs : Dict.dict V) :
  List.NoDup (map snake_name (Dict.keys attrs)) ->
  camel_to_snake_case_attrs attrs = rename_keys snake_name attrs.
Proof.
  intros Hnd. rewrite camel_to_snake_case_attrs_snake_name.
  apply (renamed_no_collision snake_name attrs []). exact Hnd.
Qed.

Lemma camel_to_snake_case_keeps_all_witness :
  camel_to_snake_case_attrs (b_namespace MyVector_body) =
  rename_keys snake_name (b_namespace MyVector_body).
Proof.
  apply camel_to_snake_case_keeps_all.
  vm_compute. repeat (constructor; [simpl; intuition discriminate|]). constructor.
Defined.

(** X7: in the dictionary that [camel_to_snake_case] builds, a name holds
    the value of the last attribute of the body that is renamed to it: of two
    attributes with one new name the earlier is dropped.  The dictionary has
    no repeated key and no more items than the body. *)
Theorem camel_to_snake_case_last_wins {V} (attrs : Dict.dict V) :
  (forall k, Dict.get (camel_to_snake_case_attrs attrs) k =
             Dict.get (rev (rename_keys snake_name attrs)) k)
  /\ List.NoDup (Dict.keys (camel_to_snake_case_attrs attrs))
  /\ (length (camel_to_snake_case_attrs attrs) <= length attrs)%nat.
Proof.
  rewrite camel_to_snake_case_attrs_snake_name. split; [|split].
  - intros k. rewrite renamed_lookup. simpl. destruct (Dict.get _ k); reflexivity.
  - apply renamed_NoDup. constructor.
  - apply (renamed_length snake_name attrs []).
Qed.

(** A body that defines [getName] and then [get_name] loses the first. *)
Example camel_to_snake_case_collision :
  camel_to_snake_case_attrs
    [("getName", Method "getName" false); ("get_name", Method "get_name" false)] =
  [("get_name", Method "get_name" false)].
Proof. vm_compute. reflexivity. Qed.

(** X8: [CamelToSnake.__new__] renames by the name of the class.  For a
    class whose name starts with two underscores the attributes are passed on
    as they are; for any other class every key goes through [convert], the
    double-underscore keys too, and where no two keys get the same name all
    attributes are kept in order. *)
Theorem CamelToSnake_by_class_name {V} (name : string) (attrs : Dict.dict V) :
  (Str.startswith name "__" = true -> List.NoDup (Dict.keys attrs) ->
   CamelToSnake.snake_attrs name attrs = attrs)
  /\ (Str.startswith name "__" = false ->
      List.NoDup (map convert (Dict.keys attrs)) ->
      CamelToSnake.snake_attrs name attrs = rename_keys convert attrs).
Proof.
  split; intros Hname Hnd; rewrite CamelToSnake_attrs_renamed, Hname.
  - rewrite (renamed_no_collision (fun k => k) attrs []).
    + apply rename_keys_id.
    + simpl. rewrite map_id. exact Hnd.
  - apply (renamed_no_collision convert attrs []). exact Hnd.
Qed.

Lemma CamelToSnake_by_class_name_witness :
  CamelToSnake.snake_attrs "__Hidden" hooked_namespace = hooked_namespace
  /\ CamelToSnake.snake_attrs "MyVector" hooked_namespace =
     rename_keys convert hooked_namespace.
Proof.
  split.
  - apply (proj1 (CamelToSnake_by_class_name "__Hidden" hooked_namespace)); [reflexivity|].
    vm_compute. repeat (constructor; [simpl; intuition discriminate|]). constructor.
  - apply (proj2 (CamelToSnake_by_class_name "MyVector" hooked_namespace)); [reflexivity|].
    vm_compute. repeat (constructor; [simpl; intuition discriminate|]). constructor.
Defined.

(** X9: for a class whose name does not start with two underscores and
    attribute names of code points below 256, the class [CamelToSnake] and
    the function [camel_to_snake_case] build the same dictionary exactly when
    no double-underscore attribute name holds a capital letter. *)
Theorem metaclasses_agree_on_plain_dunders (name : string) (attrs : Dict.dict member) :
  Str.startswith name "__" = false ->
  CamelToSnake.snake_attrs name attrs = camel_to_snake_case_attrs attrs <->
  (forall k, In k (Dict.keys attrs) -> Str.dunder k -> Str.upper_free k).
Proof.
  intros Hname. split.
  - intros Heq k Hk Hd.
    assert (Hin : In k (Dict.keys (camel_to_snake_case_attrs attrs))).
    { rewrite camel_to_snake_case_attrs_renamed. apply keys_renamed. right.
      exists k. split; [exact Hk|]. unfold Str.dunder in Hd. rewrite Hd. reflexivity. }
    rewrite <- Heq, CamelToSnake_attrs_renamed, Hname in Hin. apply keys_renamed in Hin.
    destruct Hin as [[]|(k0 & _ & ->)]. apply convert_is_plain.
  - intros Hkeys. apply metaclasses_agree; [exact Hname|].
    intros k Hk Hd. apply convert_plain, Hkeys; assumption.
Qed.

Lemma metaclasses_agree_on_plain_dunders_witness :
  CamelToSnake.snake_attrs "MyVector" (b_namespace MyVector_body) =
  camel_to_snake_case_attrs (b_namespace MyVector_body).
Proof.
  apply (proj2 (metaclasses_agree_on_plain_dunders "MyVector" (b_namespace MyVector_body)
                  eq_refl)).
  intros k Hk Hd. simpl in Hk.
  repeat (destruct Hk as [<-|Hk];
          [first [ vm_compute in Hd; discriminate Hd
                 | vm_compute; repeat constructor ]|]).
  destruct Hk.
Defined.

(** ** More on [Singleton] and on calls of the other classes *)

Section Calls.

Implicit Types (cls : class) (args : list value) (kwargs : Dict.dict value)
  (w : world) (h : heap).

Lemma instantiate_change cls args kwargs w (id : N) (obj : instance) :
  keeps_instances cls ->
  w_instances (instantiate cls args kwargs w).2 !! id = Some obj ->
  w_instances w !! id = Some obj
  \/ (w_instances w !! id = None /\ is_singleton cls = true /\ c_id cls = id
      /\ (instantiate cls args kwargs w).1 = Ok obj).
Proof.
  intros Hkeep. destruct (is_singleton cls) eqn:Hs.
  - rewrite instantiate_singleton, Singleton_call_eq by exact Hs.
    destruct (Dict.mem kwargs "cls"); [auto|].
    destruct (getattr cls "_instances"); [auto|].
    destruct (w_instances w !! c_id cls) as [cached|] eqn:Hc; [auto|].
    pose proof (Hkeep args kwargs w) as K.
    destruct (type_call cls args kwargs w) as [[o|e] w']; cbn [fst snd w_instances] in *;
      [|rewrite K; auto].
    destruct (decide (c_id cls = id)) as [<-|Hne].
    + rewrite lookup_insert_eq. intros [= ->]. right. auto.
    + rewrite lookup_insert_ne, K by exact Hne. auto.
  - rewrite instantiate_plain by assumption. auto.
Qed.

Lemma run_calls_cache (calls : list call) w (id : N) (obj : instance) :
  quiet calls ->
  w_instances (run_calls calls w).2 !! id = Some obj <->
  (w_instances w !! id = Some obj
   \/ (w_instances w !! id = None
       /\ exists j cls args kwargs,
            calls !! j = Some (cls, args, kwargs)
            /\ is_singleton cls = true /\ c_id cls = id
            /\ (run_calls calls w).1 !! j = Some (Ok obj))).
Proof.
  revert w. induction calls as [|[[c0 a0] k0] calls IH]; intros w Hq.
  - simpl. split; [auto|]. intros [Hw|(_ & j & c & a & k & Hj & _)]; [exact Hw|].
    destruct j; discriminate Hj.
  - apply quiet_cons in Hq as [Hc0 Hq].
    pose proof (instantiate_change c0 a0 k0 w id obj Hc0) as Hchange.
    pose proof (fun x => instantiate_keeps c0 a0 k0 w id x (keeps_instances_entries _ Hc0))
      as Hkeep.
    pose proof (quiet_steady _ Hq) as Hst.
    pose proof (instantiate_caches c0 a0 k0 w obj) as Hcaches.
    simpl. destruct (instantiate c0 a0 k0 w) as [r0 w1]. specialize (IH w1 Hq).
    destruct (run_calls calls w1) as [rs w2] eqn:E1. cbn [fst snd] in *. rewrite IH. clear IH.
    split.
    + intros [H1|(H1 & j & c & a & k & Hj & Hs & Hid & Hr)].
      * destruct (Hchange H1) as [Hw|(Hw & Hs & Hid & ->)]; [auto|].
        right. split; [exact Hw|]. exists 0%nat, c0, a0, k0. auto.
      * right. split.
        -- destruct (w_instances w !! id) as [x|] eqn:Hw; [|reflexivity].
           rewrite (Hkeep x eq_refl) in H1. discriminate H1.
        -- exists (S j), c, a, k. auto.
    + intros [Hw|(Hw & j & c & a & k & Hj & Hs & Hid & Hr)].
      * left. apply Hkeep, Hw.
      * destruct j as [|j]; simpl in Hj, Hr.
        -- injection Hj as -> -> ->. injection Hr as ->. left.
           rewrite <- Hid. apply (Hcaches w1 Hs eq_refl).
        -- destruct (w_instances w1 !! id) as [x|] eqn:H1.
           ++ left. f_equal. symmetry.
              apply (run_calls_cached calls w1 id x obj j c a k Hst H1 Hj Hs Hid).
              rewrite E1. exact Hr.
           ++ right. split; [reflexivity|]. exists j, c, a, k. auto.
Qed.

(** A call without arguments of a class that keeps the constructors of
    [object] and does not take [__call__] from [Singleton]. *)
Lemma plain_call cls w :
  is_singleton cls = false ->
  c_new cls = None -> c_init cls = None -> c_abstract cls = [] ->
  exists out,
    instantiate cls [] [] w =
    (Ok (Instance (h_brk (w_heap w)) (c_id cls) (type_path (info cls)) []),
     World (Heap out (h_brk (w_heap w) + 1)
                 (h_log (w_heap w) ++ [EvNew (c_id cls); EvInit (c_id cls)]))
           (w_instances w)).
Proof.
  intros Hs Hnew Hinit Habs. unfold is_singleton in Hs. unfold instantiate.
  destruct (c_meta cls); try discriminate Hs;
    rewrite ?MyMeta_call_eq, (default_call _ _ Hnew Hinit Habs);
    cbn [Dict.mem Dict.get w_heap w_instances h_out h_brk h_log]; eexists; reflexivity.
Qed.

End Calls.



(** X11: after any script of calls of classes that have no attribute
    [_instances] of their own and whose constructors leave the cache alone,
    [Singleton._instances] holds what it held before and, for every class
    identity it did not hold, the instance that a call of a [Singleton] class
    of that identity returned in the script; it holds nothing else, and calls
    of other classes add nothing. *)
Theorem Singleton_cache_after_script (calls : list call) (w : world) :
  quiet calls ->
  (forall k c a kw, calls !! k = Some (c, a, kw) -> getattr c "_instances" = None) ->
  forall (id : N) (obj : instance),
    w_instances (run_calls calls w).2 !! id = Some obj <->
    (w_instances w !! id = Some obj
     \/ (w_instances w !! id = None
         /\ exists j cls args kwargs,
              calls !! j = Some (cls, args, kwargs)
              /\ is_singleton cls = true /\ c_id cls = id
              /\ (run_calls calls w).1 !! j = Some (Ok obj))).
Proof. intros Hq _ id obj. apply run_calls_cache, Hq. Qed.

Lemma Singleton_cache_after_script_witness :
  exists MyVector h1 v,
    cell33_class cpython36_object_names (empty_heap 100) = (Ok MyVector, h1)
    /\ (run_calls [(MyVector, [VInt 7], []); (MyVector, [], [])] (World h1 ∅)).1 =
       [Raise (TypeError "object() takes no parameters"); Ok v]
    /\ w_instances (run_calls [(MyVector, [VInt 7], []); (MyVector, [], [])] (World h1 ∅)).2
         !! c_id MyVector = Some v.
Proof.
  do 3 eexists. split; [reflexivity|]. split; [vm_compute; reflexivity|].
  match goal with |- w_instances (run_calls ?cs ?w).2 !! _ = _ =>
    assert (Hq : quiet cs)
  end.
  { intros k c a kw Hk.
    destruct k as [|[|k]]; simpl in Hk; try discriminate Hk;
      injection Hk as <- _ _; apply default_keeps; reflexivity. }
  refine (proj2 (Singleton_cache_after_script _ _ Hq _ _ _) _).
  { intros k c a kw Hk.
    destruct k as [|[|k]]; simpl in Hk; try discriminate Hk;
      injection Hk as <- _ _; reflexivity. }
  right. split; [reflexivity|].
  exists 1%nat. do 3 eexists. split; [reflexivity|]. split; [reflexivity|].
  split; [reflexivity|]. vm_compute. reflexivity.
Defined.

(** X12: a class that overrides neither [__new__] nor [__init__], has no
    abstract method and does not take [__call__] from [Singleton] builds a new
    object on every call: two calls in a row return objects that are not the
    same. *)
Theorem plain_class_makes_new_objects (cls : class) (w : world) :
  is_singleton cls = false ->
  c_new cls = None -> c_init cls = None -> c_abstract cls = [] ->
  exists v1 w1 v2 w2,
    instantiate cls [] [] w = (Ok v1, w1)
    /\ instantiate cls [] [] w1 = (Ok v2, w2)
    /\ is_ v1 v2 = false
    /\ w_instances w2 = w_instances w.
Proof.
  intros Hs Hnew Hinit Habs.
  destruct (plain_call cls w Hs Hnew Hinit Habs) as (out1 & E1).
  match type of E1 with _ = (_, ?w1) =>
    destruct (plain_call cls w1 Hs Hnew Hinit Habs) as (out2 & E2) end.
  do 4 eexists. split; [exact E1|]. split; [exact E2|].
  split; [|reflexivity]. unfold is_. cbn [o_addr w_heap h_brk]. apply N.eqb_neq. lia.
Qed.

Lemma plain_class_makes_new_objects_witness :
  exists MyVector h1,
    cell31 cpython36_object_names (empty_heap 100) = (Ok MyVector, h1)
    /\ exists v1 w1 v2 w2,
         instantiate MyVector [] [] (World h1 ∅) = (Ok v1, w1)
         /\ instantiate MyVector [] [] w1 = (Ok v2, w2)
         /\ is_ v1 v2 = false.
Proof.
  do 2 eexists. split; [reflexivity|].
  match goal with |- exists v1 w1 v2 w2, instantiate ?c [] [] ?w = _ /\ _ =>
    destruct (plain_class_makes_new_objects c w eq_refl eq_refl eq_refl eq_refl)
      as (v1 & w1 & v2 & w2 & E1 & E2 & Hne & _)
  end.
  exists v1, w1, v2, w2. auto.
Defined.

(** X13: the [MyClass1] of cell 21 takes any positional arguments and any
    keywords but [cls] and [self].  Its [__new__] hands none of them to
    [object.__new__]: the call prints the line of [__new__] and then the line
    of [__init__], both showing the arguments, and returns a new instance
    without attributes.  A keyword [cls] makes [__new__] raise before it
    prints or allocates.  A keyword [self] (and none [cls]) lets [__new__]
    print and allocate, and makes [__init__] raise before it prints. *)
Theorem MyClass1_call_trace (h : heap) (instances : gmap N instance)
    (args : list value) (kwargs : Dict.dict value) :
  exists MyClass1 h1,
    cell21 h = (Ok MyClass1, h1)
    /\ instantiate MyClass1 args kwargs (World h1 instances) =
       let line_new :=
         ("MyClass1.__new__(<class '__main__.MyClass1'>, *" +:+ Text.repr_args args +:+
          ", **" +:+ Text.repr_kwargs kwargs +:+ ")") +:+ Text.nl in
       let a := Instance (h_brk h1) (c_id MyClass1) "__main__.MyClass1" [] in
       if Dict.mem kwargs "cls" then
         (Raise (TypeError "__new__() got multiple values for argument 'cls'"),
          World (Heap (h_out h1) (h_brk h1) (h_log h1 ++ [EvNew (c_id MyClass1)])) instances)
       else if Dict.mem kwargs "self" then
         (Raise (TypeError "__init__() got multiple values for argument 'self'"),
          World (Heap (h_out h1 ++ [line_new]) (h_brk h1 + 1)
                      (h_log h1 ++ [EvNew (c_id MyClass1); EvInit (c_id MyClass1)]))
                instances)
       else
         (Ok a,
          World (Heap (h_out h1 ++
                       [line_new;
                        ("MyClass1.__init__(<__main__.MyClass1 object at " +:+
                         Text.pointer (h_brk h1) +:+ ">, *" +:+ Text.repr_args args +:+
                         ", **" +:+ Text.repr_kwargs kwargs +:+ ")") +:+ Text.nl])
                      (h_brk h1 + 1)
                      (h_log h1 ++ [EvNew (c_id MyClass1); EvInit (c_id MyClass1)]))
                instances).
Proof.
  destruct (cell21_eq h) as (cls & E & Hm & Hnew & Hinit & Habs & Hstr & Hty).
  exists cls. eexists. split; [exact E|].
  unfold instantiate. rewrite Hm. cbv zeta.
  destruct (Dict.mem kwargs "cls") eqn:Hcls;
    [rewrite (MyClass1_call_cls _ _ _ _ Hnew Hcls); reflexivity|].
  destruct (Dict.mem kwargs "self") eqn:Hself.
  - rewrite (MyClass1_call_self _ _ _ _ Hnew Hinit Habs Hcls Hself).
    cbn [w_heap w_instances h_out h_brk h_log]. rewrite Hstr. reflexivity.
  - rewrite (MyClass1_call _ _ _ _ Hnew Hinit Habs Hcls Hself).
    cbn [w_heap w_instances h_out h_brk h_log].
    unfold str_instance. cbn [o_type o_addr]. rewrite Hstr, Hty. reflexivity.
Qed.

(** ** [MyMeta] and [MyClass2] *)

(** X14: a call of the [MyClass2] of cell 26 whose arguments bind to the
    parameters [s, a=0, b=0] prints four lines in this order: the line of
    [MyMeta.__call__], the line of [MyClass2.__new__], the line of
    [MyClass2.__init__], and the return line of [MyMeta.__call__]; the lines
    show the bound values, and the last two the address of the new instance.
    The instance returned has the attributes [a] and [b], and not [s]. *)
Theorem MyClass2_call_trace (h : heap) (instances : gmap N instance)
    (args : list value) (kwargs : Dict.dict value) (bound : Dict.dict value) :
  Bind.bind "__new__" MyClass2.params args kwargs = Ok bound ->
  exists MyClass2 h1 obj w2,
    cell26 h = (Ok MyClass2, h1)
    /\ instantiate MyClass2 args kwargs (World h1 instances) = (Ok obj, w2)
    /\ o_addr obj = h_brk h1
    /\ o_attrs obj = [("a", Bind.arg bound "a"); ("b", Bind.arg bound "b")]
    /\ h_out (w_heap w2) =
       h_out h1 ++
       map (fun line => line +:+ Text.nl)
         ["MyMeta.__call__(cls=<class '__main__.MyClass2'>, args=" +:+ Text.repr_args args +:+
          ", kwargs=" +:+ Text.repr_kwargs kwargs;
          "MyClass2.__new__(cls=<class '__main__.MyClass2'>, s=" +:+
          Text.str (Bind.arg bound "s") +:+ ", a=" +:+ Text.str (Bind.arg bound "a") +:+
          ", b=" +:+ Text.str (Bind.arg bound "b") +:+ ")";
          "MyClass2.__init__(self=<__main__.MyClass2 object at " +:+
          Text.pointer (o_addr obj) +:+ ">, s=" +:+
          Text.str (Bind.arg bound "s") +:+ ", a=" +:+ Text.str (Bind.arg bound "a") +:+
          ", b=" +:+ Text.str (Bind.arg bound "b") +:+ ")";
          "MyMeta.__call__ return:  <__main__.MyClass2 object at " +:+
          Text.pointer (o_addr obj) +:+ ">"]
    /\ h_log (w_heap w2) = h_log h1 ++ [EvNew (c_id MyClass2); EvInit (c_id MyClass2)]
    /\ w_instances w2 = instances.
Proof.
  intros Hbind.
  destruct (cell26_eq h) as (cls & E & Hm & Hnew & Hinit & Habs & Hstr & Hty).
  exists cls. do 3 eexists. split; [exact E|].
  unfold instantiate. rewrite Hm, MyMeta_call_eq.
  rewrite (bind_known _ _ _ _ _ "cls" Hbind)
    by (cbn; intros [?|[?|[?|[]]]]; discriminate).
  rewrite (MyClass2_type_call cls _ _ _ _ Hnew Hinit Habs Hbind).
  cbv zeta. cbn [w_heap w_instances h_out h_brk h_log].
  split; [reflexivity|].
  cbn [o_addr o_attrs setattr Dict.set h_out h_log w_heap h_brk w_instances].
  repeat split.
  unfold str_instance. cbn [o_type o_addr]. rewrite Hstr, Hty.
  rewrite <- !app_assoc. reflexivity.
Qed.

Lemma MyClass2_call_trace_witness :
  exists MyClass2 h1 obj w2,
    cell26 (empty_heap 1554490316895) = (Ok MyClass2, h1)
    /\ instantiate MyClass2 [VStr "hello"; VInt 1] [("b", VInt 2)] (World h1 ∅) = (Ok obj, w2)
    /\ o_attrs obj = [("a", VInt 1); ("b", VInt 2)].
Proof.
  destruct (MyClass2_call_trace (empty_heap 1554490316895) ∅
              [VStr "hello"; VInt 1] [("b", VInt 2)]
              [("s", VStr "hello"); ("a", VInt 1); ("b", VInt 2)] eq_refl)
    as (cls & h1 & obj & w2 & E1 & E2 & _ & Hattrs & _).
  exists cls, h1, obj, w2. auto.
Defined.

(** X15: a call of the [MyClass2] of cell 26 with a keyword [cls] raises in
    [MyMeta.__call__] before anything is printed or dispatched.  A call
    without that keyword whose arguments do not bind to [s, a=0, b=0] raises
    the [TypeError] of the binding out of [__new__]: only the first line of
    [MyMeta.__call__] is printed, no object is allocated and [__init__] is not
    dispatched. *)
Theorem MyClass2_call_rejected (h : heap) (instances : gmap N instance)
    (args : list value) (kwargs : Dict.dict value) :
  exists MyClass2 h1,
    cell26 h = (Ok MyClass2, h1)
    /\ (Dict.mem kwargs "cls" = true ->
        instantiate MyClass2 args kwargs (World h1 instances) =
        (Raise (TypeError "__call__() got multiple values for argument 'cls'"),
         World h1 instances))
    /\ (Dict.mem kwargs "cls" = false ->
        forall e, Bind.bind "__new__" MyClass2.params args kwargs = Raise e ->
        instantiate MyClass2 args kwargs (World h1 instances) =
        (Raise e,
         World (Heap (h_out h1 ++
                      [("MyMeta.__call__(cls=<class '__main__.MyClass2'>, args=" +:+
                        Text.repr_args args +:+ ", kwargs=" +:+ Text.repr_kwargs kwargs)
                       +:+ Text.nl])
                     (h_brk h1) (h_log h1 ++ [EvNew (c_id MyClass2)]))
               instances)).
Proof.
  destruct (cell26_eq h) as (cls & E & Hm & Hnew & Hinit & Habs & Hstr & Hty).
  exists cls. eexists. split; [exact E|].
  unfold instantiate. rewrite Hm, MyMeta_call_eq. split.
  - intros ->. reflexivity.
  - intros -> e Hbind. rewrite (MyClass2_type_call_fails cls _ _ _ _ Hnew Hbind).
    cbn [w_heap w_instances h_out h_brk h_log]. rewrite Hstr. reflexivity.
Qed.

Lemma MyClass2_call_rejected_witness :
  exists MyClass2 h1 w2,
    cell26 (empty_heap 100) = (Ok MyClass2, h1)
    /\ instantiate MyClass2 [] [("a", VInt 1)] (World h1 ∅) =
       (Raise (TypeError "__new__() missing 1 required positional argument: 's'"), w2)
    /\ h_brk (w_heap w2) = h_brk h1.
Proof.
  destruct (MyClass2_call_rejected (empty_heap 100) ∅ [] [("a", VInt 1)])
    as (cls & h1 & E1 & _ & E2).
  exists cls, h1. eexists. split; [exact E1|].
  split; [exact (E2 eq_refl _ eq_refl) | reflexivity].
Defined.

(** Three more refusals of the binding, with the messages of the interpreter. *)
Example MyClass2_bind_errors :
  Bind.bind "__new__" MyClass2.params [VInt 1; VInt 2; VInt 3; VInt 4] [] =
  Raise (TypeError "__new__() takes from 2 to 4 positional arguments but 5 were given")
  /\ Bind.bind "__new__" MyClass2.params [VInt 1; VInt 2] [("a", VInt 3)] =
     Raise (TypeError "__new__() got multiple values for argument 'a'")
  /\ Bind.bind "__new__" MyClass2.params [VInt 1] [("c", VInt 3)] =
     Raise (TypeError "__new__() got an unexpected keyword argument 'c'").
Proof. vm_compute. repeat split. Qed.

(** ** Subclasses of the classes that the metaclasses built *)

Section ClassDict.

Lemma not_dunder_neq (k k' : string) :
  Str.startswith k "__" = false -> Str.startswith k' "__" = true -> k' <> k.
Proof. intros Hk Hk' ->. congruence. Qed.

Lemma get_remove_ne {V} (d : Dict.dict V) (k k' : string) :
  k <> k' -> Dict.get (Dict.remove d k) k' = Dict.get d k'.
Proof.
  intros Hne. induction d as [|[k0 v0] d IH]; simpl; [reflexivity|].
  destruct (String.eqb_spec k0 k) as [->|H0]; simpl.
  - destruct (String.eqb_spec k k'); [contradiction | reflexivity].
  - rewrite IH. reflexivity.
Qed.

Lemma get_setdefault_ne {V} (d : Dict.dict V) (k : string) (v : V) (k' : string) :
  k <> k' -> Dict.get (Dict.setdefault d k v) k' = Dict.get d k'.
Proof.
  intros Hne. unfold Dict.setdefault. destruct (Dict.mem d k); [reflexivity|].
  rewrite get_set. destruct (String.eqb_spec k k'); [contradiction | reflexivity].
Qed.

(** [type.__new__] adds, and drops, only names with two leading underscores. *)
Lemma class_dict_get (bases : list class) (attrs : Dict.dict member) (k : string) :
  Str.startswith k "__" = false ->
  Dict.get (class_dict bases attrs) k = Dict.get attrs k.
Proof.
  intros Hk. unfold class_dict.
  assert (Hne : forall k', Str.startswith k' "__" = true -> k' <> k)
    by (intros k'; apply not_dunder_neq, Hk).
  destruct bases;
    repeat first [ rewrite get_setdefault_ne by (apply Hne; reflexivity)
                 | rewrite get_remove_ne by (apply Hne; reflexivity) ];
    reflexivity.
Qed.

Lemma get_keys {V} (d : Dict.dict V) (k : string) :
  In k (Dict.keys d) <-> Dict.get d k <> None.
Proof.
  induction d as [|[k0 v0] d IH]; simpl; [tauto|].
  destruct (String.eqb_spec k0 k) as [->|Hne].
  - split; [discriminate | auto].
  - rewrite <- IH. split; [intros [H|H]; [contradiction | exact H] | auto].
Qed.




Lemma namespace_get (name : string) (defs : Dict.dict member) (k : string) :
  Str.startswith k "__" = false ->
  Dict.get (namespace name defs) k = Dict.get defs k.
Proof.
  intros Hk. unfold namespace. cbn [app Dict.get].
  destruct (String.eqb_spec "__module__" k) as [<-|_]; [discriminate Hk|].
  destruct (String.eqb_spec "__qualname__" k) as [<-|_]; [discriminate Hk|]. reflexivity.
Qed.

End ClassDict.



Section Abstract.

Lemma getattr_eq id mcs name q (bases : list class) (d : Dict.dict member) a nw it (k : string) :
  getattr (Class id mcs name q bases d a nw it) k =
  match Dict.get d k with
  | Some m => Some m
  | None => inherited (fun b => getattr b k) bases
  end.
Proof.
  cbn [getattr]. destruct (Dict.get d k); [reflexivity|].
  induction bases as [|b bases IH]; [reflexivity|].
  cbn [inherited]. destruct (getattr b k); [reflexivity | exact IH].
Qed.

Lemma get_In {V} (d : Dict.dict V) (k : string) (v : V) :
  Dict.get d k = Some v -> In (k, v) d.
Proof.
  induction d as [|[k0 v0] d IH]; simpl; [discriminate|].
  destruct (String.eqb_spec k0 k) as [->|Hne]; [intros [= ->]; auto | auto].
Qed.

Lemma no_abstract_defs (attrs : Dict.dict member) (acc : list string) :
  (forall k m, In (k, m) attrs -> is_abstract (Some m) = false) ->
  fold_left (fun acc kv => if is_abstract (Some (snd kv)) then set_add acc (fst kv) else acc)
            attrs acc = acc.
Proof.
  revert acc. induction attrs as [|[k m] attrs IH]; intros acc Hattrs; [reflexivity|].
  cbn [fold_left fst snd]. rewrite (Hattrs k m) by (left; reflexivity).
  apply IH. intros k' m' H. apply (Hattrs k' m'). right. exact H.
Qed.


Lemma namespace_no_abstract (name : string) (defs : Dict.dict member) :
  (forall k m, In (k, m) defs -> is_abstract (Some m) = false) ->
  forall k m, In (k, m) (namespace name defs) -> is_abstract (Some m) = false.
Proof.
  intros Hdefs k m [[= <- <-] | [[= <- <-] | H]]; [reflexivity | reflexivity |].
  apply (Hdefs k m H).
Qed.

(** The class statement of a subclass of a class [V] that [ABCMeta] built
    with the two abstract methods of [Vehicle], for a body without abstract
    methods: abstract stay the methods that the body does not define. *)
Lemma abstract_subclass (V : class) (name : string) (defs : Dict.dict member)
    (init : option init_body) (h : heap) :
  c_meta V = MABCMeta -> c_abstract V = ["change_gear"; "start_engine"] ->
  is_abstract (getattr V "change_gear") = true ->
  is_abstract (getattr V "start_engine") = true ->
  (forall k m, In (k, m) defs -> is_abstract (Some m) = false) ->
  exists Sub,
    class_stmt None name [V] [] (Body (namespace name defs) None init) h =
    (Ok Sub, Heap (h_out h) (h_brk h + 1) (h_log h))
    /\ c_meta Sub = MABCMeta /\ c_name Sub = name /\ c_id Sub = h_brk h
    /\ c_abstract Sub =
       List.filter (fun n => negb (Dict.mem defs n)) ["change_gear"; "start_engine"]
    /\ c_new Sub = c_new V
    /\ c_init Sub = match init with Some f => Some f | None => c_init V end.
Proof.
  intros Hmeta Habs Hcg Hse Hdefs.
  unfold class_stmt, metaclass_of. rewrite Hmeta. unfold ABCMeta_new.
  rewrite bind_eq, type_new_eq. cbv beta iota zeta. eexists. split; [reflexivity|].
  cbn [c_meta c_name c_id c_abstract c_new c_init with_abstract b_namespace b_new b_init
       inherited].
  split; [reflexivity|]. split; [reflexivity|]. split; [reflexivity|].
  split; [|split; [destruct (c_new V) | destruct init, (c_init V)]; reflexivity].
  rewrite (no_abstract_defs _ _ (namespace_no_abstract name defs Hdefs)).
  cbn [fold_left]. rewrite Habs. cbn [fold_left]. rewrite !getattr_eq.
  rewrite !class_dict_get, !namespace_get by reflexivity. cbn [inherited].
  unfold Dict.mem. cbn [List.filter].
  destruct (Dict.get defs "change_gear") as [m1|] eqn:E1;
    destruct (Dict.get defs "start_engine") as [m2|] eqn:E2;
    rewrite ?(Hdefs _ _ (get_In _ _ _ E1)), ?(Hdefs _ _ (get_In _ _ _ E2));
    cbn [negb]; try reflexivity.
  - destruct (getattr V "start_engine"); [rewrite Hse | discriminate Hse]; reflexivity.
  - destruct (getattr V "change_gear"); [rewrite Hcg | discriminate Hcg]; reflexivity.
  - destruct (getattr V "change_gear"); [rewrite Hcg | discriminate Hcg].
    destruct (getattr V "start_engine"); [rewrite Hse | discriminate Hse]. reflexivity.
Qed.

(** [object.__new__] refuses a class that has abstract methods left. *)
Lemma abstract_class_raises (cls : class) (args : list value) (kwargs : Dict.dict value)
    (w : world) (a : string) (l : list string) :
  c_meta cls = MABCMeta -> c_new cls = None -> c_abstract cls = a :: l ->
  instantiate cls args kwargs w =
  (Raise (TypeError
            (if excess_args args kwargs &&
                match c_init cls with Some _ => false | None => true end
             then "object() takes no parameters"
             else "Can't instantiate abstract class " +:+ c_name cls +:+
                  " with abstract methods " +:+ Text.join ", " (sorted (c_abstract cls)))),
   World (Heap (h_out (w_heap w)) (h_brk (w_heap w)) (h_log (w_heap w) ++ [EvNew (c_id cls)]))
         (w_instances w)).
Proof.
  intros Hm Hnew Ha. unfold instantiate. rewrite Hm.
  unfold type_call. rewrite Hnew. unfold object_new, info. rewrite Hnew.
  cbn [t_init t_new t_abstract t_name]. rewrite Ha, orb_false_r.
  destruct (c_init cls); cbn [negb]; destruct (excess_args args kwargs);
    run_monad; reflexivity.
Qed.

Lemma Vehicle_eq (h : heap) :
  exists Vehicle,
    class_stmt (Some MABCMeta) "Vehicle" [] [] Vehicle_body h =
    (Ok Vehicle, Heap (h_out h) (h_brk h + 1) (h_log h))
    /\ c_meta Vehicle = MABCMeta
    /\ c_abstract Vehicle = ["change_gear"; "start_engine"]
    /\ is_abstract (getattr Vehicle "change_gear") = true
    /\ is_abstract (getattr Vehicle "start_engine") = true
    /\ c_new Vehicle = None /\ c_init Vehicle = None.
Proof. eexists. split; [reflexivity|]. repeat split; reflexivity. Qed.

End Abstract.

(** X17: in a subclass of [Vehicle] whose body defines no abstract method
    and no [__new__], and assigns none of [__module__], [__qualname__],
    [__classcell__] and [__slots__], [__abstractmethods__] holds those of
    [change_gear] and [start_engine] that the body does not define.  While
    one is left, every call of the subclass raises a [TypeError] in
    [object.__new__], no object is allocated and [__init__] is not
    dispatched; when the body defines both (and no [__init__]), the call
    without arguments returns an instance. *)
Theorem Vehicle_subclass (name : string) (defs : Dict.dict member)
    (init : option init_body) (h : heap) :
  (forall k m, In (k, m) defs -> is_abstract (Some m) = false) ->
  plain_defs defs ->
  exists Vehicle h1 Sub h2,
    class_stmt (Some MABCMeta) "Vehicle" [] [] Vehicle_body h = (Ok Vehicle, h1)
    /\ class_stmt None name [Vehicle] [] (Body (namespace name defs) None init) h1 =
       (Ok Sub, h2)
    /\ c_abstract Sub =
       List.filter (fun n => negb (Dict.mem defs n)) ["change_gear"; "start_engine"]
    /\ (c_abstract Sub <> [] ->
        forall args kwargs w,
          instantiate Sub args kwargs w =
          (Raise (TypeError
                    (if excess_args args kwargs &&
                        match init with Some _ => false | None => true end
                     then "object() takes no parameters"
                     else "Can't instantiate abstract class " +:+ name +:+
                          " with abstract methods " +:+ Text.join ", " (c_abstract Sub))),
           World (Heap (h_out (w_heap w)) (h_brk (w_heap w))
                       (h_log (w_heap w) ++ [EvNew (c_id Sub)]))
                 (w_instances w)))
    /\ (c_abstract Sub = [] -> init = None ->
        forall w, exists obj w',
          instantiate Sub [] [] w = (Ok obj, w') /\ o_class obj = c_id Sub).
Proof.
  intros Hdefs _.
  destruct (Vehicle_eq h) as (V & EV & Hm & Ha & Hcg & Hse & Hnew & Hinit).
  destruct (abstract_subclass V name defs init (Heap (h_out h) (h_brk h + 1) (h_log h))
              Hm Ha Hcg Hse Hdefs)
    as (Sub & ES & Hm' & Hname & Hid & Ha' & Hnew' & Hinit').
  rewrite Hnew in Hnew'. rewrite Hinit in Hinit'.
  exists V. eexists. exists Sub. eexists. split; [exact EV|]. split; [exact ES|].
  split; [exact Ha'|]. split.
  - intros Hne args kwargs w.
    assert (Hsorted : sorted (c_abstract Sub) = c_abstract Sub).
    { rewrite Ha'. cbn [List.filter].
      destruct (Dict.mem defs "change_gear"), (Dict.mem defs "start_engine"); reflexivity. }
    destruct (c_abstract Sub) as [|a l] eqn:E; [contradiction|].
    rewrite (abstract_class_raises Sub args kwargs w a l Hm' Hnew' E).
    rewrite Hname, Hinit', E, Hsorted. destruct init; reflexivity.
  - intros Hnone -> w. unfold instantiate. rewrite Hm'.
    rewrite (default_call Sub _ Hnew' Hinit' Hnone). do 2 eexists. split; reflexivity.
Qed.

Lemma Vehicle_subclass_witness :
  exists Vehicle h1 Sub h2,
    class_stmt (Some MABCMeta) "Vehicle" [] [] Vehicle_body (empty_heap 100) = (Ok Vehicle, h1)
    /\ class_stmt None "Bike" [Vehicle] []
         (Body (namespace "Bike" [("change_gear", Method "change_gear" false)]) None None) h1 =
       (Ok Sub, h2)
    /\ c_abstract Sub = ["start_engine"]
    /\ (instantiate Sub [] [] (World h2 ∅)).1 =
       Raise (TypeError "Can't instantiate abstract class Bike with abstract methods start_engine").
Proof.
  assert (Hdefs : forall k m, In (k, m) [("change_gear", Method "change_gear" false)] ->
                              is_abstract (Some m) = false).
  { intros k m [[= <- <-] | []]. reflexivity. }
  assert (Hplain : plain_defs [("change_gear", Method "change_gear" false)])
    by show_plain_defs.
  destruct (Vehicle_subclass "Bike" [("change_gear", Method "change_gear" false)] None
              (empty_heap 100) Hdefs Hplain)
    as (V & h1 & Sub & h2 & EV & ES & Ha & Hraise & _).
  exists V, h1, Sub, h2. split; [exact EV|]. split; [exact ES|]. split; [exact Ha|].
  rewrite Hraise by (rewrite Ha; discriminate). rewrite Ha. reflexivity.
Defined.

Section CarSubclass.

(** [type.__call__] on a class that takes [__new__] from [object] and
    [__init__] from [Car] and has no abstract method left. *)
Lemma Car_init_call (cls : class) (args : list value) (kwargs : Dict.dict value) (w : world) :
  c_new cls = None -> c_init cls = Some Car.__init__ -> c_abstract cls = [] ->
  type_call cls args kwargs w =
  let obj := Instance (h_brk (w_heap w)) (c_id cls) (type_path (info cls)) [] in
  let w' := World (Heap (h_out (w_heap w)) (h_brk (w_heap w) + 1)
                        (h_log (w_heap w) ++ [EvNew (c_id cls); EvInit (c_id cls)]))
                  (w_instances w) in
  match Bind.bind "__init__" [("make", None); ("model", None); ("color", None)] args kwargs with
  | Ok bound =>
      (Ok (setattr (setattr (setattr obj "make" (Bind.arg bound "make"))
                            "model" (Bind.arg bound "model"))
                   "color" (Bind.arg bound "color")), w')
  | Raise e => (Raise e, w')
  end.
Proof.
  intros Hnew Hinit Habs. unfold type_call. rewrite Hnew, Hinit.
  unfold object_new, info. rewrite Habs, Hnew, Hinit. cbn [t_init t_new t_abstract negb orb].
  rewrite andb_false_r. unfold Car.__init__.
  destruct (Bind.bind "__init__" _ args kwargs) as [bound|e];
    run_call; rewrite N.eqb_refl; run_call;
    rewrite <- ?app_assoc; reflexivity.
Qed.

Lemma Car_eq (h : heap) :
  exists Vehicle Car,
    cell5_classes h = (Ok (Vehicle, Car), Heap (h_out h) (h_brk h + 1 + 1) (h_log h))
    /\ c_meta Car = MABCMeta
    /\ c_abstract Car = ["change_gear"; "start_engine"]
    /\ is_abstract (getattr Car "change_gear") = true
    /\ is_abstract (getattr Car "start_engine") = true
    /\ c_new Car = None /\ c_init Car = Some Car.__init__.
Proof. do 2 eexists. split; [reflexivity|]. repeat split; reflexivity. Qed.

End CarSubclass.

(** X18: a subclass of [Car] whose body defines [change_gear] and
    [start_engine] (and no constructor) can be instantiated, and is
    initialised by [Car.__init__]: a call whose arguments bind to
    [make, model, color] returns an instance with exactly these three
    attributes; any other call raises the [TypeError] of the binding out of
    [__init__], after the object has been allocated. *)
Theorem Car_subclass (name : string) (defs : Dict.dict member) (h : heap) :
  (forall k m, In (k, m) defs -> is_abstract (Some m) = false) ->
  Dict.mem defs "change_gear" = true -> Dict.mem defs "start_engine" = true ->
  exists Vehicle Car h1 Sub h2,
    cell5_classes h = (Ok (Vehicle, Car), h1)
    /\ class_stmt None name [Car] [] (Body (namespace name defs) None None) h1 = (Ok Sub, h2)
    /\ c_abstract Sub = []
    /\ forall args kwargs w,
         match Bind.bind "__init__" [("make", None); ("model", None); ("color", None)]
                         args kwargs with
         | Ok bound =>
             exists obj w',
               instantiate Sub args kwargs w = (Ok obj, w')
               /\ o_addr obj = h_brk (w_heap w)
               /\ o_attrs obj = [("make", Bind.arg bound "make");
                                 ("model", Bind.arg bound "model");
                                 ("color", Bind.arg bound "color")]
         | Raise e =>
             exists w',
               instantiate Sub args kwargs w = (Raise e, w')
               /\ h_brk (w_heap w') = (h_brk (w_heap w) + 1)%N
               /\ h_log (w_heap w') =
                  h_log (w_heap w) ++ [EvNew (c_id Sub); EvInit (c_id Sub)]
         end.
Proof.
  intros Hdefs Hcg Hse.
  destruct (Car_eq h) as (V & C & EC & Hm & Ha & Hacg & Hase & Hnew & Hinit).
  destruct (abstract_subclass C name defs None (Heap (h_out h) (h_brk h + 1 + 1) (h_log h))
              Hm Ha Hacg Hase Hdefs)
    as (Sub & ES & Hm' & Hname & Hid & Ha' & Hnew' & Hinit').
  rewrite Hnew in Hnew'. rewrite Hinit in Hinit'.
  cbn [List.filter] in Ha'. rewrite Hcg, Hse in Ha'. cbn [negb] in Ha'.
  exists V, C. eexists. exists Sub. eexists. split; [exact EC|]. split; [exact ES|].
  split; [exact Ha'|]. intros args kwargs w.
  unfold instantiate. rewrite Hm'.
  rewrite (Car_init_call Sub args kwargs _ Hnew' Hinit' Ha'). cbv zeta.
  destruct (Bind.bind "__init__" _ args kwargs) as [bound|e].
  - do 2 eexists. split; [reflexivity|]. split; reflexivity.
  - eexists. split; [reflexivity|]. split; reflexivity.
Qed.

Lemma Car_subclass_witness :
  exists Vehicle Car h1 Tram h2 obj w',
    cell5_classes (empty_heap 100) = (Ok (Vehicle, Car), h1)
    /\ class_stmt None "Tram" [Car] [] Tram_body h1 = (Ok Tram, h2)
    /\ instantiate Tram Car_args [] (World h2 ∅) = (Ok obj, w')
    /\ o_attrs obj =
       [("make", VStr "Toyota"); ("model", VStr "Avensis"); ("color", VStr "silver")].
Proof.
  assert (Hdefs : forall k m, In (k, m) [("change_gear", Method "change_gear" false);
                                         ("start_engine", Method "start_engine" false)] ->
                              is_abstract (Some m) = false).
  { intros k m [[= <- <-] | [[= <- <-] | []]]; reflexivity. }
  destruct (Car_subclass "Tram" _ (empty_heap 100) Hdefs eq_refl eq_refl)
    as (V & C & h1 & T & h2 & EC & ET & _ & Hcall).
  specialize (Hcall Car_args [] (World h2 ∅)).
  destruct Hcall as (obj & w' & E & _ & Hattrs).
  exists V, C, h1, T, h2, obj, w'. auto.
Defined.

(** ** The public names of the classes with renamed attributes *)

Section PublicNames.

Lemma In_insert_sorted (x y : string) (l : list string) :
  In y (insert_sorted x l) <-> y = x \/ In y l.
Proof.
  split; [apply insert_sorted_In|].
  induction l as [|z l IH]; simpl.
  - intros [->|[]]. left. reflexivity.
  - destruct (String.leb x z); simpl; intros [->|[->|H]]; auto.
Qed.

Lemma In_sorted (y : string) (l : list string) : In y (sorted l) <-> In y l.
Proof.
  induction l as [|x l IH]; simpl; [tauto|].
  rewrite In_insert_sorted, IH. split; intros [H|H]; auto.
Qed.

Lemma In_distinct (y : string) (l : list string) : In y (distinct l) <-> In y l.
Proof.
  induction l as [|x l IH]; simpl; [tauto|].
  rewrite List.filter_In, IH. split.
  - intros [H|[H _]]; auto.
  - intros [H|H]; [auto|]. destruct (String.eqb_spec x y) as [E|Hne]; [auto|].
    right. split; [exact H | reflexivity].
Qed.

Lemma NoDup_distinct (l : list string) : List.NoDup (distinct l).
Proof.
  induction l as [|x l IH]; simpl; constructor.
  - rewrite List.filter_In. intros [_ H]. rewrite String.eqb_refl in H. discriminate H.
  - apply List.NoDup_filter, IH.
Qed.

Lemma NoDup_insert_sorted (x : string) (l : list string) :
  ~ In x l -> List.NoDup l -> List.NoDup (insert_sorted x l).
Proof.
  induction l as [|z l IH]; simpl; intros Hx Hl.
  - constructor; [intros [] | constructor].
  - destruct (String.leb x z).
    + constructor; [exact Hx | exact Hl].
    + inversion Hl as [|? ? Hz Hl']; subst. constructor.
      * rewrite In_insert_sorted. intros [->|H]; tauto.
      * apply IH; tauto.
Qed.

Lemma NoDup_sorted (l : list string) : List.NoDup l -> List.NoDup (sorted l).
Proof.
  induction 1 as [|x l Hx Hl IH]; simpl; [constructor|].
  apply NoDup_insert_sorted; [rewrite In_sorted; exact Hx | exact IH].
Qed.

Lemma add_name_hidden (l : list string) (k : string) :
  Str.startswith k "__" = true -> add_name l k = l.
Proof. intros Hk. unfold add_name, public. rewrite Hk. reflexivity. Qed.

Lemma filter_keys_set {V} (d : Dict.dict V) (k : string) (v : V) :
  List.filter public (Dict.keys (Dict.set d k v)) =
  add_name (List.filter public (Dict.keys d)) k.
Proof.
  unfold add_name. induction d as [|[k0 v0] d IH]; cbn [Dict.set Dict.keys map fst List.filter].
  - destruct (public k); reflexivity.
  - destruct (String.eqb_spec k0 k) as [->|Hne]; cbn [Dict.keys map fst List.filter].
    + destruct (public k); [|reflexivity]. cbn [existsb]. rewrite String.eqb_refl. reflexivity.
    + fold (Dict.keys (Dict.set d k v)). fold (Dict.keys d). rewrite IH.
      destruct (public k0); [|reflexivity]. destruct (public k); [|reflexivity].
      cbn [existsb]. destruct (String.eqb_spec k k0) as [E|_]; [congruence|].
      cbn [orb]. destruct (existsb _ _); reflexivity.
Qed.

Lemma filter_keys_renamed {V} (f : string -> string) (attrs acc : Dict.dict V) :
  List.filter public (Dict.keys (renamed f attrs acc)) =
  fold_left add_name (map f (Dict.keys attrs)) (List.filter public (Dict.keys acc)).
Proof.
  revert acc. induction attrs as [|[k v] attrs IH]; intros acc; [reflexivity|].
  change (renamed f ((k, v) :: attrs) acc) with (renamed f attrs (Dict.set acc (f k) v)).
  rewrite IH, filter_keys_set. reflexivity.
Qed.

Lemma fold_add_name_ext (f g : string -> string) (ks l : list string) :
  (forall k l', In k ks -> add_name l' (f k) = add_name l' (g k)) ->
  fold_left add_name (map f ks) l = fold_left add_name (map g ks) l.
Proof.
  revert l. induction ks as [|k ks IH]; intros l Hfg; [reflexivity|].
  cbn [map fold_left]. rewrite (Hfg k l) by (left; reflexivity).
  apply IH. intros k' l' Hk'. apply Hfg. right. exact Hk'.
Qed.

Lemma filter_keys_remove {V} (d : Dict.dict V) (k : string) :
  Str.startswith k "__" = true ->
  List.filter public (Dict.keys (Dict.remove d k)) = List.filter public (Dict.keys d).
Proof.
  intros Hk. induction d as [|[k0 v0] d IH]; [reflexivity|].
  cbn [Dict.remove Dict.keys map fst List.filter].
  destruct (String.eqb_spec k0 k) as [->|Hne].
  - unfold public at 2. rewrite Hk. reflexivity.
  - cbn [Dict.keys map fst List.filter]. fold (Dict.keys (Dict.remove d k)). fold (Dict.keys d).
    rewrite IH. reflexivity.
Qed.

Lemma filter_keys_setdefault {V} (d : Dict.dict V) (k : string) (v : V) :
  Str.startswith k "__" = true ->
  List.filter public (Dict.keys (Dict.setdefault d k v)) = List.filter public (Dict.keys d).
Proof.
  intros Hk. unfold Dict.setdefault. destruct (Dict.mem d k); [reflexivity|].
  rewrite filter_keys_set. apply add_name_hidden, Hk.
Qed.

(** [type.__new__] leaves the public names of the namespace as they are. *)
Lemma filter_keys_class_dict (bases : list class) (attrs : Dict.dict member) :
  List.filter public (Dict.keys (class_dict bases attrs)) =
  List.filter public (Dict.keys attrs).
Proof.
  unfold class_dict. destruct bases;
    repeat first [ rewrite filter_keys_setdefault by reflexivity
                 | rewrite filter_keys_remove by reflexivity ];
    reflexivity.
Qed.

End PublicNames.

(** X19: for a class without bases built by [camel_to_snake_case] from
    attributes that [type.__new__] accepts once they are renamed (no
    [__slots__] among them; the names being strings of code points below
    256), the list that
    [[a for a in dir(cls) if not a.startswith('__')]] gives is in ascending
    order and without repetition; it holds exactly the names [convert(k)]
    that do not start with two underscores, for the attributes [k] of the
    body that do not; none of them has a capital letter. *)
Theorem public_names_snake_case (object_names : list string) (name : string)
    (attrs : Dict.dict member) (b : body) (h : heap) :
  Forall Str.dunder object_names ->
  accepted (camel_to_snake_case_attrs attrs) ->
  exists cls h1,
    camel_to_snake_case name [] attrs b h = (Ok cls, h1)
    /\ ordered (public_names object_names cls)
    /\ List.NoDup (public_names object_names cls)
    /\ (forall a, In a (public_names object_names cls) <->
                  Str.startswith a "__" = false
                  /\ exists k, In k (Dict.keys attrs) /\ Str.startswith k "__" = false
                               /\ a = convert k)
    /\ Forall Str.upper_free (public_names object_names cls).
Proof.
  intros Hobj _. unfold camel_to_snake_case.
  rewrite bind_eq, print_eq, type_new_eq. do 2 eexists. split; [reflexivity|].
  rewrite public_names_own by exact Hobj. cbn [names_of]. rewrite app_nil_r.
  assert (Hin : forall a,
    In a (sorted (distinct (List.filter (fun a => negb (Str.startswith a "__"))
                              (Dict.keys (class_dict [] (camel_to_snake_case_attrs attrs)))))) <->
    Str.startswith a "__" = false
    /\ exists k, In k (Dict.keys attrs) /\ Str.startswith k "__" = false /\ a = convert k).
  { intros a. rewrite In_sorted, In_distinct, List.filter_In, negb_true_iff. split.
    - intros [Ha Hnd]. split; [exact Hnd|].
      apply get_keys in Ha. rewrite class_dict_get in Ha by exact Hnd. apply get_keys in Ha.
      rewrite camel_to_snake_case_attrs_renamed in Ha. apply keys_renamed in Ha.
      destruct Ha as [[]|(k & Hk & ->)]. exists k.
      destruct (Str.startswith k "__") eqn:E; [congruence | auto].
    - intros [Hnd (k & Hk & Hkd & ->)]. split; [|exact Hnd].
      apply get_keys. rewrite class_dict_get by exact Hnd. apply get_keys.
      rewrite camel_to_snake_case_attrs_renamed. apply keys_renamed. right.
      exists k. rewrite Hkd. auto. }
  split; [apply sorted_ordered|]. split; [apply NoDup_sorted, NoDup_distinct|].
  split; [exact Hin|].
  apply List.Forall_forall. intros a Ha. apply Hin in Ha.
  destruct Ha as [_ (k & _ & _ & ->)]. apply convert_is_plain.
Qed.

Lemma public_names_snake_case_witness :
  exists cls h1,
    camel_to_snake_case "MyVector" [] (b_namespace MyVector_body) MyVector_body
      (empty_heap 100) = (Ok cls, h1)
    /\ In "add_to_vector" (public_names cpython36_object_names cls).
Proof.
  assert (Hacc : accepted (camel_to_snake_case_attrs (b_namespace MyVector_body)))
    by show_accepted.
  destruct (public_names_snake_case cpython36_object_names "MyVector"
              (b_namespace MyVector_body) MyVector_body (empty_heap 100)
              cpython36_object_names_dunder Hacc)
    as (cls & h1 & E & _ & _ & Hin & _).
  exists cls, h1. split; [exact E|]. apply Hin. split; [reflexivity|].
  exists "addToVector". split; [|split; reflexivity]. simpl. tauto.
Defined.

(** X20: the two metaclasses give a class the same public names, for a
    class whose name does not start with two underscores, whose bases, if
    any, are classes built by [type], and whose attributes [type.__new__]
    accepts once either metaclass has renamed them (no [__slots__] among
    them; the names being strings of code points below 256): their
    dictionaries differ only in
    names that start with two underscores, which [CamelToSnake] converts and
    [camel_to_snake_case] keeps. *)
Theorem metaclasses_same_public_names (object_names : list string) (name : string)
    (bases : list class) (attrs : Dict.dict member) (b : body) (h : heap) :
  Forall Str.dunder object_names ->
  Str.startswith name "__" = false ->
  Forall (fun base => c_meta base = MType) bases ->
  accepted (camel_to_snake_case_attrs attrs) ->
  accepted (CamelToSnake.snake_attrs name attrs) ->
  exists F C h1 h2,
    camel_to_snake_case name bases attrs b h = (Ok F, h1)
    /\ CamelToSnake.__new__ MCamelToSnake name bases attrs b h = (Ok C, h2)
    /\ public_names object_names F = public_names object_names C.
Proof.
  intros Hobj Hname _ _ _. unfold camel_to_snake_case, CamelToSnake.__new__.
  rewrite bind_eq, print_eq, !type_new_eq. do 4 eexists.
  split; [reflexivity|]. split; [reflexivity|].
  rewrite !public_names_own by exact Hobj. do 2 f_equal.
  cbn [names_of]. rewrite !List.filter_app. f_equal.
  change (fun a => negb (Str.startswith a "__")) with public.
  rewrite !filter_keys_class_dict.
  rewrite camel_to_snake_case_attrs_renamed, CamelToSnake_attrs_renamed, Hname.
  rewrite !filter_keys_renamed. apply fold_add_name_ext. intros k l _.
  destruct (Str.startswith k "__") eqn:E; [|reflexivity].
  rewrite !add_name_hidden; [reflexivity | apply convert_stays_dunder, E | exact E].
Qed.

Lemma metaclasses_same_public_names_witness :
  exists F C h1 h2,
    camel_to_snake_case "MyVector" [] hooked_namespace (Body hooked_namespace None None)
      (empty_heap 100) = (Ok F, h1)
    /\ CamelToSnake.__new__ MCamelToSnake "MyVector" [] hooked_namespace
         (Body hooked_namespace None None) (empty_heap 100) = (Ok C, h2)
    /\ public_names cpython36_object_names F = public_names cpython36_object_names C
    /\ c_dict F <> c_dict C.
Proof.
  assert (Hf : accepted (camel_to_snake_case_attrs hooked_namespace)) by show_accepted.
  assert (Hc : accepted (CamelToSnake.snake_attrs "MyVector" hooked_namespace))
    by show_accepted.
  destruct (metaclasses_same_public_names cpython36_object_names "MyVector" []
              hooked_namespace (Body hooked_namespace None None) (empty_heap 100)
              cpython36_object_names_dunder eq_refl (List.Forall_nil _) Hf Hc)
    as (F & C & h1 & h2 & EF & EC & Hsame).
  exists F, C, h1, h2. split; [exact EF|]. split; [exact EC|]. split; [exact Hsame|].
  vm_compute in EF. vm_compute in EC. injection EF as <- _. injection EC as <- _.
  vm_compute. discriminate.
Defined.

(** X21: [Singleton._instances] is one dictionary for all classes, keyed by
    the class: two classes with the metaclass [Singleton] that keep the
    constructors of [object] and have no attribute [_instances] of their own
    get one instance each, the two are different objects, and afterwards each
    class returns its own whatever the arguments, unless the call has a
    keyword [cls], which makes it raise. *)
Theorem Singleton_one_instance_per_class (c1 c2 : class) (w : world) :
  is_singleton c1 = true -> is_singleton c2 = true -> c_id c1 <> c_id c2 ->
  c_new c1 = None -> c_init c1 = None -> c_abstract c1 = [] ->
  c_new c2 = None -> c_init c2 = None -> c_abstract c2 = [] ->
  getattr c1 "_instances" = None -> getattr c2 "_instances" = None ->
  w_instances w !! c_id c1 = None -> w_instances w !! c_id c2 = None ->
  exists v1 w1 v2 w2,
    instantiate c1 [] [] w = (Ok v1, w1)
    /\ instantiate c2 [] [] w1 = (Ok v2, w2)
    /\ o_class v1 = c_id c1 /\ o_class v2 = c_id c2
    /\ is_ v1 v2 = false
    /\ forall args kwargs,
         instantiate c1 args kwargs w2 =
         (if Dict.mem kwargs "cls"
          then Raise (TypeError "__call__() got multiple values for argument 'cls'")
          else Ok v1, w2)
         /\ instantiate c2 args kwargs w2 =
            (if Dict.mem kwargs "cls"
             then Raise (TypeError "__call__() got multiple values for argument 'cls'")
             else Ok v2, w2).
Proof.
  intros Hs1 Hs2 Hne Hn1 Hi1 Ha1 Hn2 Hi2 Ha2 Ho1 Ho2 Hw1 Hw2.
  rewrite (instantiate_singleton c1), Singleton_call_eq, Ho1, Hw1 by exact Hs1.
  cbn [Dict.mem Dict.get]. rewrite (default_call _ _ Hn1 Hi1 Ha1).
  do 4 eexists. split; [reflexivity|].
  rewrite (instantiate_singleton c2), Singleton_call_eq, Ho2 by exact Hs2.
  cbn [Dict.mem Dict.get w_heap w_instances].
  rewrite lookup_insert_ne, Hw2 by exact Hne.
  rewrite (default_call _ _ Hn2 Hi2 Ha2). cbn [w_heap w_instances].
  split; [reflexivity|].
  split; [reflexivity|]. split; [reflexivity|]. split.
  - unfold is_. cbn [o_addr h_brk]. apply N.eqb_neq. lia.
  - intros args kwargs.
    rewrite !instantiate_singleton, !Singleton_call_eq, Ho1, Ho2 by assumption.
    cbn [w_instances].
    rewrite lookup_insert_eq, lookup_insert_ne, lookup_insert_eq by congruence.
    destruct (Dict.mem kwargs "cls"); split; reflexivity.
Qed.

Lemma Singleton_one_instance_per_class_witness :
  exists MyVector Other h2,
    (MyVector ← cell33_class cpython36_object_names;
     Other ← class_stmt (Some MSingleton) "Other" [] [] (Body (namespace "Other" []) None None);
     mret (MyVector, Other)) (empty_heap 100) = (Ok (MyVector, Other), h2)
    /\ exists v1 w1 v2 w2,
         instantiate MyVector [] [] (World h2 ∅) = (Ok v1, w1)
         /\ instantiate Other [] [] w1 = (Ok v2, w2)
         /\ is_ v1 v2 = false
         /\ instantiate MyVector [VInt 7] [] w2 = (Ok v1, w2).
Proof.
  do 3 eexists. split; [reflexivity|].
  match goal with |- exists v1 w1 v2 w2, instantiate ?c1 [] [] ?w = _ /\ instantiate ?c2 _ _ _ = _ /\ _ =>
    assert (Hne : c_id c1 <> c_id c2) by (vm_compute; discriminate);
    destruct (Singleton_one_instance_per_class c1 c2 w eq_refl eq_refl Hne
                eq_refl eq_refl eq_refl eq_refl eq_refl eq_refl eq_refl eq_refl
                eq_refl eq_refl)
      as (v1 & w1 & v2 & w2 & E1 & E2 & _ & _ & Hdiff & Hlater)
  end.
  exists v1, w1, v2, w2. split; [exact E1|]. split; [exact E2|]. split; [exact Hdiff|].
  apply (Hlater [VInt 7] []).
Defined.
